(** * syojctl: credential store, judge API client and command layer

    A shallow embedding of the Go sources [credentials/manager.go],
    [api/client.go], [cmd/show_problem.go], [cmd/submit.go] and
    [cmd/login.go], together with models of the parts of the Go standard
    library they call ([unicode/utf8], [encoding/json], [net/http]'s cookie
    jar, [bufio]) and of [github.com/adrg/xdg].

    Go strings are byte sequences: they are embedded as [string], whose
    characters are the 8-bit [ascii] values. *)

From Stdlib Require Import String Ascii NArith ZArith List Bool Lia DecimalString.
Import ListNotations.

#[local] Set Warnings "-register-all".

#[local] Open Scope string_scope.
#[local] Open Scope N_scope.

(** ** Bytes *)

Definition byte := ascii.

(** The numeric value of a byte. *)
Definition bv (b : byte) : N := N_of_ascii b.

(** The byte with a given value (taken modulo 256, as Go's [byte(x)]). *)
Definition mk (n : N) : byte := ascii_of_N (n mod 256).

Definition dquote : byte := "034"%char.
Definition backslash : byte := "\"%char.

(** [s[:n]] for [n <= len(s)]. *)
Fixpoint take (n : nat) (s : string) : string :=
  match n, s with
  | S n', String b t => String b (take n' t)
  | _, _ => EmptyString
  end.

(** ** unicode/utf8 *)

Module utf8.

Definition RuneError : N := 0xFFFD.
Definition MaxRune : N := 0x10FFFF.
Definition RuneSelf : N := 0x80.

Definition within (lo hi : N) (b : byte) : bool :=
  (lo <=? bv b) && (bv b <=? hi).

(** Continuation bytes lie in [locb, hicb] = [0x80, 0xBF]. *)
Definition cont (b : byte) : bool := within 0x80 0xBF b.

(** [DecodeRune p] returns the first rune of [p] and its width in bytes.
    The table [first] of the library maps the lead byte to the width and to
    the range accepted for the second byte; it is written out as the
    comparisons below.  For a lead byte [x] of a sequence of width 2, 3 or
    4 the masks [x & mask2], [x & mask3], [x & mask4] are [x mod 32],
    [x mod 16], [x mod 8]; [b & maskx] is [b mod 64]; the shifts by 6, 12
    and 18 are the products by 64, 4096 and 262144, and the bit fields
    being disjoint their disjunction is their sum. *)
Definition DecodeRune (p : string) : N * nat :=
  match p with
  | EmptyString => (RuneError, 0%nat)
  | String p0 t =>
    let x := bv p0 in
    if x <? RuneSelf then (x, 1%nat)
    else if (x <? 0xC2) || (0xF4 <? x) then (RuneError, 1%nat)
    else if x <? 0xE0 then
      match t with
      | String b1 _ =>
        if negb (cont b1) then (RuneError, 1%nat)
        else ((x mod 32) * 64 + bv b1 mod 64, 2%nat)
      | _ => (RuneError, 1%nat)
      end
    else if x <? 0xF0 then
      match t with
      | String b1 (String b2 _) =>
        let lo := if x =? 0xE0 then 0xA0 else 0x80 in
        let hi := if x =? 0xED then 0x9F else 0xBF in
        if negb (within lo hi b1) then (RuneError, 1%nat)
        else if negb (cont b2) then (RuneError, 1%nat)
        else ((x mod 16) * 4096 + (bv b1 mod 64) * 64 + bv b2 mod 64, 3%nat)
      | _ => (RuneError, 1%nat)
      end
    else
      match t with
      | String b1 (String b2 (String b3 _)) =>
        let lo := if x =? 0xF0 then 0x90 else 0x80 in
        let hi := if x =? 0xF4 then 0x8F else 0xBF in
        if negb (within lo hi b1) then (RuneError, 1%nat)
        else if negb (cont b2) then (RuneError, 1%nat)
        else if negb (cont b3) then (RuneError, 1%nat)
        else ((x mod 8) * 262144 + (bv b1 mod 64) * 4096
              + (bv b2 mod 64) * 64 + bv b3 mod 64, 4%nat)
      | _ => (RuneError, 1%nat)
      end
  end.

(** What is left of [String b t] after a rune of width [size] has been
    consumed from it: [t] itself for width 1. *)
Definition advance (size : nat) (t : string) : string :=
  match size, t with
  | 2%nat, String _ t1 => t1
  | 3%nat, String _ (String _ t2) => t2
  | 4%nat, String _ (String _ (String _ t3)) => t3
  | _, _ => t
  end.

(** [EncodeRune r]: the UTF-8 encoding of [r]; surrogates and values above
    [MaxRune] are encoded as [RuneError]. *)
Definition EncodeRune (r : N) : string :=
  if r <=? 0x7F then String (mk r) EmptyString
  else if r <=? 0x7FF then
    String (mk (0xC0 + r / 64)) (String (mk (0x80 + r mod 64)) EmptyString)
  else
    let r := if (MaxRune <? r) || ((0xD800 <=? r) && (r <=? 0xDFFF))
             then RuneError else r in
    if r <=? 0xFFFF then
      String (mk (0xE0 + r / 4096))
        (String (mk (0x80 + (r / 64) mod 64))
           (String (mk (0x80 + r mod 64)) EmptyString))
    else
      String (mk (0xF0 + r / 262144))
        (String (mk (0x80 + (r / 4096) mod 64))
           (String (mk (0x80 + (r / 64) mod 64))
              (String (mk (0x80 + r mod 64)) EmptyString))).

(** [ValidString s]: [s] consists entirely of valid UTF-8 encoded runes. *)
Fixpoint ValidString (s : string) : bool :=
  match s with
  | EmptyString => true
  | String b t =>
    let '(r, size) := DecodeRune s in
    if (r =? RuneError) && Nat.eqb size 1 then false
    else ValidString (advance size t)
  end.

End utf8.

(** ** unicode/utf16 *)

Module utf16.

Definition IsSurrogate (r : N) : bool := (0xD800 <=? r) && (r <? 0xE000).

(** [DecodeRune r1 r2]: the code point of a surrogate pair, U+FFFD when the
    pair is not valid.  [r2] is [None] where the library passes -1. *)
Definition DecodeRune (r1 : N) (r2 : option N) : N :=
  match r2 with
  | Some r2 =>
    if (0xD800 <=? r1) && (r1 <? 0xDC00) && (0xDC00 <=? r2) && (r2 <? 0xE000)
    then (r1 - 0xD800) * 1024 + (r2 - 0xDC00) + 0x10000
    else 0xFFFD
  | None => 0xFFFD
  end.

End utf16.

(** ** Errors

    Go's [error] values, as far as this program produces and reports
    them. *)

Inductive error :=
| SyntaxError                                  (* *json.SyntaxError *)
| UnmarshalTypeError (Value : string)          (* *json.UnmarshalTypeError *)
| ErrNotExist (msg : string)                   (* a missing file *)
| ErrPermission (msg : string)                 (* an operation the file system refuses *)
| TransportError (msg : string)                (* what [http.Client.Do] returns *)
| ReadError (msg : string)                     (* what [io.ReadAll] returns *)
| URLError (msg : string)                      (* what [http.NewRequest] returns *)
| Errorf (msg : string).                       (* [fmt.Errorf] *)

Inductive result (A : Type) :=
| Ok (a : A)
| Err (e : error).
Arguments Ok {A} a.
Arguments Err {A} e.

Definition isOk {A} (r : result A) : bool :=
  match r with Ok _ => true | Err _ => false end.

(** ** encoding/json: strings *)

Module json.

Definition hexdigit (n : N) : byte :=
  if n <? 10 then mk (48 + n) else mk (87 + n).

(** [htmlSafeSet]: the ASCII bytes written to a JSON string as they are:
    everything from space up, except the double quote, the backslash and
    the characters [<], [>] and [&]. *)
Definition htmlSafeSet (x : N) : bool :=
  (0x20 <=? x) && negb (x =? 34) && negb (x =? 92)
  && negb (x =? 38) && negb (x =? 60) && negb (x =? 62).

Definition escapeByte (b : byte) : string :=
  let x := bv b in
  if htmlSafeSet x then String b EmptyString
  else if (x =? 92) || (x =? 34) then String backslash (String b EmptyString)
  else if x =? 8 then "\b"
  else if x =? 12 then "\f"
  else if x =? 10 then "\n"
  else if x =? 13 then "\r"
  else if x =? 9 then "\t"
  else "\u00" ++ String (hexdigit (x / 16)) (String (hexdigit (x mod 16)) EmptyString).

(** The loop of [appendString] with [escapeHTML] set, as [Marshal] calls
    it: what is written between the two quotes. *)
Fixpoint appendStringBody (src : string) : string :=
  match src with
  | EmptyString => EmptyString
  | String b t =>
    if bv b <? utf8.RuneSelf then escapeByte b ++ appendStringBody t
    else
      let '(c, size) := utf8.DecodeRune src in
      if (c =? utf8.RuneError) && Nat.eqb size 1
      then String backslash "ufffd" ++ appendStringBody t
      else if (c =? 0x2028) || (c =? 0x2029)
      then "\u202" ++ String (hexdigit (c mod 16))
                        (appendStringBody (utf8.advance size t))
      else take size src ++ appendStringBody (utf8.advance size t)
  end.

Definition appendString (src : string) : string :=
  String dquote (appendStringBody src ++ String dquote EmptyString).

Definition unhex (c : byte) : option N :=
  let x := bv c in
  if (48 <=? x) && (x <=? 57) then Some (x - 48)
  else if (97 <=? x) && (x <=? 102) then Some (x - 97 + 10)
  else if (65 <=? x) && (x <=? 70) then Some (x - 65 + 10)
  else None.

(** [getu4 s]: the value of a [\uXXXX] escape at the start of [s]. *)
Definition getu4 (s : string) : option N :=
  match s with
  | String c0 (String c1 (String h1 (String h2 (String h3 (String h4 _))))) =>
    if negb (Ascii.eqb c0 backslash) || negb (Ascii.eqb c1 "u"%char) then None
    else
      match unhex h1, unhex h2, unhex h3, unhex h4 with
      | Some a, Some b, Some c, Some d => Some (((a * 16 + b) * 16 + c) * 16 + d)
      | _, _, _, _ => None
      end
  | _ => None
  end.

(** [s[n:]], clipped at the end of [s]. *)
Definition skip4 (s : string) : string :=
  match s with
  | String _ (String _ (String _ (String _ t))) => t
  | _ => s
  end.

Definition skip6 (s : string) : string :=
  match s with
  | String _ (String _ (String _ (String _ (String _ (String _ t))))) => t
  | _ => s
  end.

Definition cons_opt (p : string) (r : option string) : option string :=
  match r with
  | Some s => Some (p ++ s)
  | None => None
  end.

(** The loop of [unquoteBytes] over what lies between the two quotes of a
    string literal.  The library first copies the longest prefix that needs
    no rewriting; that prefix consists of ASCII bytes and valid runes, which
    the loop below copies likewise. *)
Fixpoint unquoteBody (s : string) : option string :=
  match s with
  | EmptyString => Some EmptyString
  | String c t =>
    let x := bv c in
    if x =? 92 then
      match t with
      | EmptyString => None
      | String e t1 =>
        let y := bv e in
        if (y =? 34) || (y =? 92) || (y =? 47) || (y =? 39)
        then cons_opt (String e EmptyString) (unquoteBody t1)
        else if y =? 98 then cons_opt (String (mk 8) EmptyString) (unquoteBody t1)
        else if y =? 102 then cons_opt (String (mk 12) EmptyString) (unquoteBody t1)
        else if y =? 110 then cons_opt (String (mk 10) EmptyString) (unquoteBody t1)
        else if y =? 114 then cons_opt (String (mk 13) EmptyString) (unquoteBody t1)
        else if y =? 116 then cons_opt (String (mk 9) EmptyString) (unquoteBody t1)
        else if y =? 117 then
          match getu4 s with
          | None => None
          | Some rr =>
            let t5 := skip4 t1 in
            if utf16.IsSurrogate rr then
              let dec := utf16.DecodeRune rr (getu4 t5) in
              if negb (dec =? 0xFFFD)
              then cons_opt (utf8.EncodeRune dec) (unquoteBody (skip6 t5))
              else cons_opt (utf8.EncodeRune 0xFFFD) (unquoteBody t5)
            else cons_opt (utf8.EncodeRune rr) (unquoteBody t5)
          end
        else None
      end
    else if (x =? 34) || (x <? 32) then None
    else if x <? utf8.RuneSelf then cons_opt (String c EmptyString) (unquoteBody t)
    else
      let '(rr, size) := utf8.DecodeRune s in
      cons_opt (utf8.EncodeRune rr) (unquoteBody (utf8.advance size t))
  end.

(** ** encoding/json: the scanner

    The library's scanner is a state machine fed one byte at a time, with a
    stack of the arrays and objects that are open.  It is embedded in two
    layers of the same shape: bytes to tokens, then tokens to a tree. *)

Inductive token :=
| TLBrace | TRBrace | TLBrack | TRBrack | TColon | TComma
| TString (s : string)
| TNumber (lit : string)
| TTrue | TFalse | TNull.

(** States of a number literal: after the sign, after a leading zero, in
    the integer digits, after the dot, in the fraction, after the [e], after
    the sign of the exponent, in the exponent. *)
Inductive nstate := NNeg | N0 | N1 | NDot | NDot0 | NE | NESign | NE0.

Definition isDigit (x : N) : bool := (48 <=? x) && (x <=? 57).

Definition numStep (st : nstate) (c : byte) : option nstate :=
  let x := bv c in
  match st with
  | NNeg => if x =? 48 then Some N0
            else if (49 <=? x) && (x <=? 57) then Some N1 else None
  | N0 => if x =? 46 then Some NDot
          else if (x =? 101) || (x =? 69) then Some NE else None
  | N1 => if isDigit x then Some N1
          else if x =? 46 then Some NDot
          else if (x =? 101) || (x =? 69) then Some NE else None
  | NDot => if isDigit x then Some NDot0 else None
  | NDot0 => if isDigit x then Some NDot0
             else if (x =? 101) || (x =? 69) then Some NE else None
  | NE => if (x =? 43) || (x =? 45) then Some NESign
          else if isDigit x then Some NE0 else None
  | NESign => if isDigit x then Some NE0 else None
  | NE0 => if isDigit x then Some NE0 else None
  end.

Definition numFinal (st : nstate) : bool :=
  match st with
  | N0 | N1 | NDot0 | NE0 => true
  | _ => false
  end.

Inductive mode :=
| MIdle
| MStr (raw : string)
| MEsc (raw : string)
| MHex (raw : string) (n : nat)
| MNum (st : nstate) (lit : string)
| MLit (expect : string) (tok : token).

Definition snoc (s : string) (c : byte) : string := s ++ String c EmptyString.

Definition isSpace (x : N) : bool :=
  (x =? 32) || (x =? 9) || (x =? 13) || (x =? 10).

(** A byte met between two tokens. *)
Definition stepIdle (c : byte) : option (mode * list token) :=
  let x := bv c in
  if isSpace x then Some (MIdle, [])
  else if x =? 123 then Some (MIdle, [TLBrace])
  else if x =? 125 then Some (MIdle, [TRBrace])
  else if x =? 91 then Some (MIdle, [TLBrack])
  else if x =? 93 then Some (MIdle, [TRBrack])
  else if x =? 58 then Some (MIdle, [TColon])
  else if x =? 44 then Some (MIdle, [TComma])
  else if x =? 34 then Some (MStr EmptyString, [])
  else if x =? 45 then Some (MNum NNeg (String c EmptyString), [])
  else if x =? 48 then Some (MNum N0 (String c EmptyString), [])
  else if (49 <=? x) && (x <=? 57) then Some (MNum N1 (String c EmptyString), [])
  else if x =? 116 then Some (MLit "rue" TTrue, [])
  else if x =? 102 then Some (MLit "alse" TFalse, [])
  else if x =? 110 then Some (MLit "ull" TNull, [])
  else None.

Definition step (m : mode) (c : byte) : option (mode * list token) :=
  let x := bv c in
  match m with
  | MIdle => stepIdle c
  | MStr raw =>
    if x =? 34 then
      match unquoteBody raw with
      | Some s => Some (MIdle, [TString s])
      | None => None
      end
    else if x =? 92 then Some (MEsc (snoc raw c), [])
    else if x <? 32 then None
    else Some (MStr (snoc raw c), [])
  | MEsc raw =>
    if (x =? 98) || (x =? 102) || (x =? 110) || (x =? 114) || (x =? 116)
       || (x =? 92) || (x =? 47) || (x =? 34)
    then Some (MStr (snoc raw c), [])
    else if x =? 117 then Some (MHex (snoc raw c) 4, [])
    else None
  | MHex raw n =>
    match unhex c, n with
    | Some _, 1%nat => Some (MStr (snoc raw c), [])
    | Some _, S n' => Some (MHex (snoc raw c) n', [])
    | _, _ => None
    end
  | MNum st lit =>
    match numStep st c with
    | Some st' => Some (MNum st' (snoc lit c), [])
    | None =>
      if numFinal st then
        match stepIdle c with
        | Some (m', out) => Some (m', TNumber lit :: out)
        | None => None
        end
      else None
    end
  | MLit expect tok =>
    match expect with
    | String e rest =>
      if Ascii.eqb c e then
        match rest with
        | EmptyString => Some (MIdle, [tok])
        | _ => Some (MLit rest tok, [])
        end
      else None
    | EmptyString => None
    end
  end.

Fixpoint lexFrom (m : mode) (acc : list token) (s : string) : option (list token) :=
  match s with
  | EmptyString =>
    match m with
    | MIdle => Some acc
    | MNum st lit => if numFinal st then Some (acc ++ [TNumber lit])%list else None
    | _ => None
    end
  | String c t =>
    match step m c with
    | Some (m', out) => lexFrom m' (acc ++ out)%list t
    | None => None
    end
  end.

Definition lex (s : string) : option (list token) := lexFrom MIdle [] s.

(** The tree of a JSON text.  Strings and keys are held unquoted, numbers
    as their literal; the members of an object keep their order and their
    duplicates. *)
Inductive value :=
| Null
| Bool (b : bool)
| Number (lit : string)
| Str (s : string)
| Array (elems : list value)
| Object (members : list (string * value)).

(** An open array with the elements read so far, an open object waiting for
    a key, an open object waiting for the value of a key. *)
Inductive frame :=
| FArr (elems : list value)
| FObjK (members : list (string * value))
| FObjV (members : list (string * value)) (key : string).

Inductive pstate :=
| PValue (stk : list frame)
| PArrFirst (stk : list frame)
| PObjFirst (stk : list frame)
| PObjKey (stk : list frame)
| PColon (stk : list frame)
| PEnd (stk : list frame)
| PDone (v : value).

Definition maxNestingDepth : N := 10000.

(** A value is complete: it is the whole text, or it goes into the
    innermost open array or object. *)
Definition complete (stk : list frame) (v : value) : option pstate :=
  match stk with
  | [] => Some (PDone v)
  | FArr es :: r => Some (PEnd (FArr (es ++ [v])%list :: r))
  | FObjV ms k :: r => Some (PEnd (FObjK (ms ++ [(k, v)])%list :: r))
  | FObjK _ :: _ => None
  end.

Definition push (f : frame) (stk : list frame) (k : list frame -> pstate)
  : option pstate :=
  if N.of_nat (List.length stk) <? maxNestingDepth then Some (k (f :: stk))
  else None.

Definition beginValue (stk : list frame) (t : token) : option pstate :=
  match t with
  | TNull => complete stk Null
  | TTrue => complete stk (Bool true)
  | TFalse => complete stk (Bool false)
  | TNumber lit => complete stk (Number lit)
  | TString s => complete stk (Str s)
  | TLBrack => push (FArr []) stk PArrFirst
  | TLBrace => push (FObjK []) stk PObjFirst
  | _ => None
  end.

Definition beginKey (stk : list frame) (t : token) : option pstate :=
  match t, stk with
  | TString k, FObjK ms :: r => Some (PColon (FObjV ms k :: r))
  | _, _ => None
  end.

Definition pstep (st : pstate) (t : token) : option pstate :=
  match st with
  | PValue stk => beginValue stk t
  | PArrFirst stk =>
    match t, stk with
    | TRBrack, FArr es :: r => complete r (Array es)
    | _, _ => beginValue stk t
    end
  | PObjFirst stk =>
    match t, stk with
    | TRBrace, FObjK ms :: r => complete r (Object ms)
    | _, _ => beginKey stk t
    end
  | PObjKey stk => beginKey stk t
  | PColon stk =>
    match t with
    | TColon => Some (PValue stk)
    | _ => None
    end
  | PEnd stk =>
    match t, stk with
    | TComma, FArr _ :: _ => Some (PValue stk)
    | TRBrack, FArr es :: r => complete r (Array es)
    | TComma, FObjK _ :: _ => Some (PObjKey stk)
    | TRBrace, FObjK ms :: r => complete r (Object ms)
    | _, _ => None
    end
  | PDone _ => None
  end.

Fixpoint parseFrom (st : pstate) (ts : list token) : option value :=
  match ts with
  | [] => match st with PDone v => Some v | _ => None end
  | t :: ts' =>
    match pstep st t with
    | Some st' => parseFrom st' ts'
    | None => None
    end
  end.

(** [parse data]: the tree of [data], [None] where [checkValid] reports a
    syntax error. *)
Definition parse (data : string) : option value :=
  match lex data with
  | Some ts => parseFrom (PValue []) ts
  | None => None
  end.

(** ** encoding/json: decoding into Go values

    The decoder works by reflection on the type of the destination.  The
    types that occur in this program are strings, [int], [bool], slices and
    structs; a struct is described by the JSON names of its fields, in
    order, and its value holds the values of the fields in that order. *)

Inductive kind :=
| KString
| KInt
| KBool
| KSlice (elem : kind)
| KStruct (fields : list (string * kind)).

Inductive rvalue :=
| VString (s : string)
| VInt (n : Z)
| VBool (b : bool)
| VSlice (elems : list rvalue)
| VStruct (fields : list rvalue).

Fixpoint zero (k : kind) : rvalue :=
  match k with
  | KString => VString EmptyString
  | KInt => VInt 0%Z
  | KBool => VBool false
  | KSlice _ => VSlice []
  | KStruct fields =>
    VStruct ((fix zeros (fs : list (string * kind)) : list rvalue :=
                match fs with
                | [] => []
                | (_, fk) :: fs' => zero fk :: zeros fs'
                end) fields)
  end.

Definition sliceOf (v : rvalue) : list rvalue :=
  match v with VSlice l => l | _ => [] end.

Definition fieldsOf (v : rvalue) : list rvalue :=
  match v with VStruct l => l | _ => [] end.

(** [foldRune]: the smallest rune of the case-folding orbit of a rune that
    is not ASCII.  Two such runes fold to an ASCII letter, the Kelvin sign
    to [K] and the long s to [S]; every other one folds to a rune that is
    not ASCII, taken here to be the rune itself: the names of the fields of
    this program are ASCII, and comparing with them does not depend on
    it. *)
Definition foldRune (r : N) : N :=
  if r =? 0x212A then 75 else if r =? 0x17F then 83 else r.

Fixpoint foldName (s : string) : string :=
  match s with
  | EmptyString => EmptyString
  | String c t =>
    let x := bv c in
    if x <? utf8.RuneSelf then
      String (if (97 <=? x) && (x <=? 122) then mk (x - 32) else c) (foldName t)
    else
      let '(r, size) := utf8.DecodeRune s in
      utf8.EncodeRune (foldRune r) ++ foldName (utf8.advance size t)
  end.

Fixpoint digits (acc : N) (s : string) : option N :=
  match s with
  | EmptyString => Some acc
  | String c t =>
    if isDigit (bv c) then digits (acc * 10 + (bv c - 48)) t else None
  end.

(** [strconv.ParseInt(s, 10, 64)]. *)
Definition ParseInt (s : string) : option Z :=
  let unsigned (t : string) :=
    match t with
    | EmptyString => None
    | _ => digits 0 t
    end in
  match s with
  | EmptyString => None
  | String c t =>
    if bv c =? 45 then
      match unsigned t with
      | Some n => if n <=? 0x8000000000000000 then Some (- Z.of_N n)%Z else None
      | None => None
      end
    else
      match unsigned (if bv c =? 43 then t else s) with
      | Some n => if n <? 0x8000000000000000 then Some (Z.of_N n) else None
      | None => None
      end
  end.

(** The description of a JSON value in an [UnmarshalTypeError]. *)
Definition describe (j : value) : string :=
  match j with
  | Null => "null"
  | Bool _ => "bool"
  | Number lit => "number " ++ lit
  | Str _ => "string"
  | Array _ => "array"
  | Object _ => "object"
  end.

Definition mismatch {A} (j : value) : result A :=
  Err (UnmarshalTypeError
         (match j with Number _ => "number" | _ => describe j end)).

(** The members of an object, one after the other: [field] decodes a value
    into the field a key names, and answers [None] when the test given to
    it holds of no field.  A key names the field of that very name or else
    the first field of the same folded name; the value of a key that names
    no field is skipped. *)
Fixpoint decodeMembers
    (field : (string -> bool) -> list rvalue -> value -> option (result (list rvalue)))
    (members : list (string * value)) (vs : list rvalue) : result (list rvalue) :=
  match members with
  | [] => Ok vs
  | (key, j) :: members' =>
    let r :=
      match field (String.eqb key) vs j with
      | Some r => r
      | None =>
        match field (fun name => String.eqb (foldName name) (foldName key)) vs j with
        | Some r => r
        | None => Ok vs
        end
      end in
    match r with
    | Ok vs' => decodeMembers field members' vs'
    | Err e => Err e
    end
  end.

(** [decode k j cur]: the value of kind [k] that decoding [j] into a
    destination holding [cur] leaves there.  The library records the first
    mismatch, goes on decoding and returns that mismatch at the end; the
    callers in this program drop the destination on an error, so the
    embedding stops at the first mismatch. *)
Fixpoint decode (k : kind) (j : value) (cur : rvalue) {struct k} : result rvalue :=
  match k with
  | KString =>
    match j with
    | Null => Ok cur
    | Str s => Ok (VString s)
    | _ => mismatch j
    end
  | KInt =>
    match j with
    | Null => Ok cur
    | Number lit =>
      match ParseInt lit with
      | Some n => Ok (VInt n)
      | None => Err (UnmarshalTypeError (describe j))
      end
    | _ => mismatch j
    end
  | KBool =>
    match j with
    | Null => Ok cur
    | Bool b => Ok (VBool b)
    | _ => mismatch j
    end
  | KSlice e =>
    match j with
    | Null => Ok (VSlice [])
    | Array elems =>
      let fix each (js : list value) (cs : list rvalue) : result (list rvalue) :=
        match js with
        | [] => Ok []
        | j' :: js' =>
          match decode e j' (match cs with c :: _ => c | [] => zero e end) with
          | Ok v =>
            match each js' (List.tl cs) with
            | Ok vs => Ok (v :: vs)
            | Err x => Err x
            end
          | Err x => Err x
          end
        end in
      match each elems (sliceOf cur) with
      | Ok vs => Ok (VSlice vs)
      | Err x => Err x
      end
    | _ => mismatch j
    end
  | KStruct fields =>
    match j with
    | Null => Ok cur
    | Object members =>
      let field (test : string -> bool) :=
        fix field (fs : list (string * kind)) (vs : list rvalue) (j' : value)
          : option (result (list rvalue)) :=
          match fs, vs with
          | (name, fk) :: fs', v :: vs' =>
            if test name then
              Some (match decode fk j' v with
                    | Ok v' => Ok (v' :: vs')
                    | Err x => Err x
                    end)
            else
              match field fs' vs' j' with
              | Some (Ok r) => Some (Ok (v :: r))
              | Some (Err x) => Some (Err x)
              | None => None
              end
          | _, _ => None
          end in
      match decodeMembers (fun test => field test fields) members (fieldsOf cur) with
      | Ok vs => Ok (VStruct vs)
      | Err x => Err x
      end
    | _ => mismatch j
    end
  end.

(** [Unmarshal data v], for a destination [v] of kind [k] holding [cur]. *)
Definition Unmarshal (data : string) (k : kind) (cur : rvalue) : result rvalue :=
  match parse data with
  | None => Err SyntaxError
  | Some j => decode k j cur
  end.

(** [Marshal] of a struct all of whose fields are strings, given as the
    JSON names with the values, in the order of the fields.  It cannot
    fail. *)
Fixpoint marshalMembers (fields : list (string * string)) : string :=
  match fields with
  | [] => EmptyString
  | [(name, s)] => appendString name ++ ":" ++ appendString s
  | (name, s) :: fields' =>
    appendString name ++ ":" ++ appendString s ++ "," ++ marshalMembers fields'
  end.

Definition marshalStrings (fields : list (string * string)) : string :=
  "{" ++ marshalMembers fields ++ "}".

Definition stringOf (v : rvalue) : string :=
  match v with VString s => s | _ => EmptyString end.

Definition intOf (v : rvalue) : Z :=
  match v with VInt n => n | _ => 0%Z end.

Definition boolOf (v : rvalue) : bool :=
  match v with VBool b => b | _ => false end.

(** The [i]-th field of a struct value. *)
Definition fieldOf (i : nat) (v : rvalue) : rvalue :=
  List.nth i (fieldsOf v) (VStruct []).

End json.

Import json.

(** ** credentials/manager.go *)

Module credentials.

Record Credentials := { Token : string; TokenId : string }.

Definition Credentials_kind : kind :=
  KStruct [("token", KString); ("token_id", KString)].

Definition Credentials_value (c : Credentials) : rvalue :=
  VStruct [VString (Token c); VString (TokenId c)].

Definition Credentials_of (v : rvalue) : Credentials :=
  {| Token := stringOf (fieldOf 0 v); TokenId := stringOf (fieldOf 1 v) |}.

Definition Marshal (c : Credentials) : result string :=
  Ok (marshalStrings [("token", Token c); ("token_id", TokenId c)]).

(** *** The file system and github.com/adrg/xdg

    The search path of configuration files is the configuration home of the
    user followed by the system-wide configuration directories.  The state
    of the file system is given, for each base directory of that path in
    order, by the state of its subdirectory [syojctl] and of the file
    [credentials.json] in it. *)

Record file := { data : string; readable : bool; writable : bool }.

Record dir := {
  present : bool;            (* the directory exists *)
  mkdirOk : bool;            (* [os.MkdirAll] on it would succeed *)
  createOk : bool;           (* a file can be created in it *)
  entry : option file        (* [credentials.json] *)
}.

Definition FS := list dir.

(** A file lies in a directory that exists. *)
Definition wf_dir (d : dir) : bool :=
  match entry d with
  | Some _ => present d
  | None => true
  end.

Definition wf (fs : FS) : bool := forallb wf_dir fs.

Definition relPath : string := "syojctl/credentials.json".

(** [xdg.ConfigFile]: the first base directory under which the parent of the
    file exists or can be created, which it then is.  The path is given by
    its index in the search path. *)
Fixpoint ConfigFile (fs : FS) : result nat * FS :=
  match fs with
  | [] => (Err (Errorf ("could not create any of the following paths: " ++ relPath)), [])
  | d :: fs' =>
    if present d then (Ok 0%nat, fs)
    else if mkdirOk d then
      (Ok 0%nat,
       {| present := true; mkdirOk := mkdirOk d; createOk := createOk d;
          entry := entry d |} :: fs')
    else
      let '(r, fs'') := ConfigFile fs' in
      (match r with Ok i => Ok (S i) | Err e => Err e end, d :: fs'')
  end.

(** [xdg.SearchConfigFile]: the first base directory under which the file
    exists. *)
Fixpoint SearchConfigFile (fs : FS) : result nat :=
  match fs with
  | [] => Err (ErrNotExist ("could not locate `credentials.json` in any of the following paths: " ++ relPath))
  | d :: fs' =>
    match entry d with
    | Some _ => Ok 0%nat
    | None =>
      match SearchConfigFile fs' with
      | Ok i => Ok (S i)
      | Err e => Err e
      end
    end
  end.

(** [os.WriteFile path data 0600]: the file is created readable and
    writable by its owner, or truncated and written with its mode kept. *)
Definition writeDir (d : dir) (bytes : string) : option dir :=
  match entry d with
  | Some f =>
    if writable f then
      Some {| present := present d; mkdirOk := mkdirOk d; createOk := createOk d;
              entry := Some {| data := bytes; readable := readable f;
                               writable := writable f |} |}
    else None
  | None =>
    if present d && createOk d then
      Some {| present := present d; mkdirOk := mkdirOk d; createOk := createOk d;
              entry := Some {| data := bytes; readable := true; writable := true |} |}
    else None
  end.

Fixpoint WriteFile (path : nat) (bytes : string) (fs : FS) : option error * FS :=
  match path, fs with
  | _, [] => (Some (ErrNotExist "open: no such file or directory"), [])
  | O, d :: fs' =>
    match writeDir d bytes with
    | Some d' => (None, d' :: fs')
    | None => (Some (ErrPermission "open: permission denied"), fs)
    end
  | S path', d :: fs' =>
    let '(e, fs'') := WriteFile path' bytes fs' in (e, d :: fs'')
  end.

Definition ReadFile (path : nat) (fs : FS) : result string :=
  match List.nth_error fs path with
  | Some d =>
    match entry d with
    | Some f =>
      if readable f then Ok (data f)
      else Err (ErrPermission "open: permission denied")
    | None => Err (ErrNotExist "open: no such file or directory")
    end
  | None => Err (ErrNotExist "open: no such file or directory")
  end.

(** [Save] saves credentials to the XDG config directory. *)
Definition Save (c : Credentials) (fs : FS) : option error * FS :=
  match ConfigFile fs with
  | (Err e, fs1) => (Some e, fs1)
  | (Ok configFilePath, fs1) =>
    match Marshal c with
    | Err e => (Some e, fs1)
    | Ok credsJSON => WriteFile configFilePath credsJSON fs1
    end
  end.

(** [Load] loads credentials from the XDG config directory. *)
Definition Load (fs : FS) : result Credentials :=
  match SearchConfigFile fs with
  | Err e => Err e
  | Ok configFilePath =>
    match ReadFile configFilePath fs with
    | Err e => Err e
    | Ok bytes =>
      match Unmarshal bytes Credentials_kind (zero Credentials_kind) with
      | Err e => Err e
      | Ok creds => Ok (Credentials_of creds)
      end
    end
  end.

(** [os.Remove path]: the file is taken out of its directory, which needs
    the permission on the directory that creating a file in it needs. *)
Fixpoint Remove (path : nat) (fs : FS) : option error * FS :=
  match path, fs with
  | _, [] => (Some (ErrNotExist "remove: no such file or directory"), [])
  | O, d :: fs' =>
    match entry d with
    | Some _ =>
      if createOk d then
        (None,
         {| present := present d; mkdirOk := mkdirOk d; createOk := createOk d;
            entry := None |} :: fs')
      else (Some (ErrPermission "remove: permission denied"), fs)
    | None => (Some (ErrNotExist "remove: no such file or directory"), fs)
    end
  | S path', d :: fs' =>
    let '(e, fs'') := Remove path' fs' in (e, d :: fs'')
  end.

(** [Delete] removes the credentials file. *)
Definition Delete (fs : FS) : option error * FS :=
  match SearchConfigFile fs with
  | Err e => (Some e, fs)
  | Ok configFilePath => Remove configFilePath fs
  end.

End credentials.

(** ** strconv and strings *)

(** [%d] of [fmt]: a number in decimal. *)
Definition itoa (n : Z) : string := NilZero.string_of_int (Z.to_int n).

Fixpoint HasPrefix (s prefix : string) : bool :=
  match prefix, s with
  | EmptyString, _ => true
  | String p prefix', String c s' => Ascii.eqb c p && HasPrefix s' prefix'
  | String _ _, EmptyString => false
  end.

Definition HasSuffix (s suffix : string) : bool :=
  let n := String.length s in
  let m := String.length suffix in
  Nat.leb m n && String.eqb (substring (n - m) m s) suffix.

(** [strings.Cut s sep] for a separator of one byte: what lies before the
    first [sep], what lies after it, and whether there is one. *)
Fixpoint Cut (s : string) (sep : byte) : string * string * bool :=
  match s with
  | EmptyString => (EmptyString, EmptyString, false)
  | String c t =>
    if Ascii.eqb c sep then (EmptyString, t, true)
    else let '(before, after, found) := Cut t sep in (String c before, after, found)
  end.

(** ** net/url *)

Module url.

Record URL := {
  Scheme : string;
  Host : string;
  Path : string;        (* unescaped *)
  RawQuery : string;
  Fragment : string     (* unescaped *)
}.

Fixpoint stringContainsCTLByte (s : string) : bool :=
  match s with
  | EmptyString => false
  | String c t => (bv c <? 32) || (bv c =? 127) || stringContainsCTLByte t
  end.

(** [unescape s mode] for the path and the fragment: every [%] is followed
    by two hexadecimal digits, which give the byte. *)
Fixpoint unescape (s : string) : result string :=
  match s with
  | EmptyString => Ok EmptyString
  | String c t =>
    if bv c =? 37 then
      match t with
      | String h1 (String h2 t') =>
        match unhex h1, unhex h2, unescape t' with
        | Some a, Some b, Ok r => Ok (String (mk (a * 16 + b)) r)
        | Some _, Some _, Err e => Err e
        | _, _, _ => Err (URLError "invalid URL escape")
        end
      | _ => Err (URLError "invalid URL escape")
      end
    else
      match unescape t with
      | Ok r => Ok (String c r)
      | Err e => Err e
      end
  end.

Definition isSchemeLetter (x : N) : bool :=
  ((97 <=? x) && (x <=? 122)) || ((65 <=? x) && (x <=? 90)).

Definition isSchemeOther (x : N) : bool :=
  isDigit x || (x =? 43) || (x =? 45) || (x =? 46).

(** [getScheme rawURL]: the scheme and what follows its colon; no scheme
    where the text does not start with one. *)
Fixpoint schemeEnd (first : bool) (s : string) : option (result (string * string)) :=
  match s with
  | EmptyString => None
  | String c t =>
    let x := bv c in
    if isSchemeLetter x then
      match schemeEnd false t with
      | Some (Ok (sch, rest)) => Some (Ok (String c sch, rest))
      | r => r
      end
    else if isSchemeOther x then
      if first then None
      else
        match schemeEnd false t with
        | Some (Ok (sch, rest)) => Some (Ok (String c sch, rest))
        | r => r
        end
    else if x =? 58 then
      if first then Some (Err (URLError "missing protocol scheme"))
      else Some (Ok (EmptyString, t))
    else None
  end.

Definition getScheme (rawURL : string) : result (string * string) :=
  match schemeEnd true rawURL with
  | Some r => r
  | None => Ok (EmptyString, rawURL)
  end.

(** [Parse rawURL], for the absolute URLs [scheme://host/path?query#fragment]
    that this program builds.  The fragment is cut off at the first [#] and
    the query at the first [?]; the authority runs up to the first [/] after
    the two slashes.  The host name is not examined: it is the host of the
    base address.  The scheme is kept as written, the program writing it in
    lower case. *)
Definition Parse (rawURL : string) : result URL :=
  let '(u, frag, _) := Cut rawURL "#"%char in
  if stringContainsCTLByte u then
    Err (URLError "net/url: invalid control character in URL")
  else
    match getScheme u with
    | Err e => Err e
    | Ok (scheme, rest) =>
      let '(rest, query, _) := Cut rest "?"%char in
      let '(host, rest) :=
        match rest with
        | String "/" (String "/" authority) =>
          let '(h, p, found) := Cut authority "/"%char in
          (h, if found then String "/"%char p else EmptyString)
        | _ => (EmptyString, rest)
        end in
      match unescape rest, unescape frag with
      | Ok path, Ok fragment =>
        Ok {| Scheme := scheme; Host := host; Path := path;
              RawQuery := query; Fragment := fragment |}
      | Err e, _ => Err e
      | _, Err e => Err e
      end
    end.

End url.

(** ** net/http: requests, responses and the cookie jar *)

Module http.

(** The fields of [http.Cookie] that this program and the jar use.  A cookie
    taken out of the jar has no path. *)
Record Cookie := { Name : string; Value : string; Path : string }.

Record Request := {
  Method : string;
  URL : url.URL;
  Header : list (string * string);
  Cookies : list Cookie;         (* the cookies handed to [AddCookie] *)
  Body : string
}.

(** A response; [RespBody] is what [io.ReadAll] on its body returns. *)
Record Response := {
  StatusCode : Z;
  SetCookie : list Cookie;
  RespBody : result string
}.

Definition StatusOK : Z := 200.

Definition NewRequest (method rawURL body : string) : result Request :=
  match url.Parse rawURL with
  | Err e => Err e
  | Ok u =>
    Ok {| Method := method; URL := u; Header := []; Cookies := []; Body := body |}
  end.

(** [req.Header.Set key value]. *)
Definition HeaderSet (key value : string) (req : Request) : Request :=
  {| Method := Method req; URL := URL req;
     Header := (filter (fun kv => negb (String.eqb (fst kv) key)) (Header req)
                ++ [(key, value)])%list;
     Cookies := Cookies req; Body := Body req |}.

(** *** net/http/cookiejar

    The jar of a client that talks to one host over https: its entries are
    the cookies of that host, in the order of their creation, each under a
    path.  Domains, expiry and the secure flag are not part of the model:
    every cookie is a session cookie of the host. *)
Definition Jar := list Cookie.

Definition lastSlash (s : string) : nat :=
  (fix go (i last : nat) (s : string) : nat :=
     match s with
     | EmptyString => last
     | String c t => go (S i) (if bv c =? 47 then i else last) t
     end) 0%nat 0%nat s.

(** [defaultPath]: the directory of the path of the request. *)
Definition defaultPath (path : string) : string :=
  if negb (HasPrefix path "/") then "/"
  else
    match lastSlash path with
    | O => "/"
    | i => substring 0 i path
    end.

Definition endsWithSlash (s : string) : bool := HasSuffix s "/".

(** [pathMatch requestPath cookiePath]. *)
Definition pathMatch (requestPath cookiePath : string) : bool :=
  if String.eqb requestPath cookiePath then true
  else if HasPrefix requestPath cookiePath then
    if endsWithSlash cookiePath then true
    else
      match String.get (String.length cookiePath) requestPath with
      | Some c => bv c =? 47
      | None => false
      end
  else false.

Definition sameId (a b : Cookie) : bool :=
  String.eqb (Path a) (Path b) && String.eqb (Name a) (Name b).

(** A cookie replaces the entry of the same path and name, where it stood,
    or becomes the newest entry. *)
Fixpoint store (c : Cookie) (jar : Jar) : Jar :=
  match jar with
  | [] => [c]
  | e :: jar' => if sameId e c then c :: jar' else e :: store c jar'
  end.

(** [jar.SetCookies u cookies]. *)
Definition SetCookies (u : url.URL) (cookies : list Cookie) (jar : Jar) : Jar :=
  let defPath := defaultPath (url.Path u) in
  fold_left
    (fun jar c =>
       let path := if HasPrefix (Path c) "/" then Path c else defPath in
       store {| Name := Name c; Value := Value c; Path := path |} jar)
    cookies jar.

(** Insertion into a list sorted by decreasing length of path, after the
    entries of the same length. *)
Fixpoint insertByPath (c : Cookie) (l : list Cookie) : list Cookie :=
  match l with
  | [] => [c]
  | e :: l' =>
    if Nat.ltb (String.length (Path e)) (String.length (Path c))
    then c :: l
    else e :: insertByPath c l'
  end.

(** [jar.Cookies u]: the entries whose path matches, the longer paths
    first, then the older entries first. *)
Definition JarCookies (u : url.URL) (jar : Jar) : list Cookie :=
  let path := match url.Path u with EmptyString => "/" | p => p end in
  map (fun e => {| Name := Name e; Value := Value e; Path := EmptyString |})
    (fold_left (fun l e => insertByPath e l)
       (filter (fun e => pathMatch path (Path e)) jar) []).

End http.

(** ** The network

    What the remote service does is not part of the program.  A run of the
    program meets a script: the outcomes of the round trips it will make, in
    order, each either a failure of the transport or the final response
    (redirects followed).  The trace records what the program does on the
    network: the requests it sends, with the cookies attached to them, and
    the bodies it reads. *)

Inductive RoundTrip :=
| RTError (msg : string)
| RTResponse (resp : http.Response).

Inductive Event :=
| EvRequest (req : http.Request)
| EvReadBody.

Record World := { script : list RoundTrip; trace : list Event }.

(** Computations on the network: a state monad over [World]. *)
Definition M (A : Type) : Type := World -> A * World.

Definition ret {A} (a : A) : M A := fun w => (a, w).

Definition bind {A B} (m : M A) (f : A -> M B) : M B :=
  fun w => let '(a, w') := m w in f a w'.

Notation "x <- m ;; k" := (bind m (fun x => k))
  (at level 61, m at next level, right associativity).
Notation "' pat <- m ;; k" := (bind m (fun x => let pat := x in k))
  (at level 61, pat pattern, m at next level, right associativity).

Definition emit (e : Event) : M unit :=
  fun w => (tt, {| script := script w; trace := (trace w ++ [e])%list |}).

(** The next outcome of the script; the transport fails once the script is
    exhausted. *)
Definition roundTrip : M RoundTrip :=
  fun w =>
    match script w with
    | [] => (RTError "no response", w)
    | r :: rest => (r, {| script := rest; trace := trace w |})
    end.

(** [io.ReadAll resp.Body]. *)
Definition ReadAll (resp : http.Response) : M (result string) :=
  _ <- emit EvReadBody ;; ret (http.RespBody resp).

(** ** api/client.go *)

Module api.

Import http.

(** [Client] represents the SYOJ API client.  The HTTP client it holds is
    given by its jar; its timeout of 30 seconds shows as a failure of the
    transport.  The logger writes to the standard error stream, which is
    not part of the model. *)
Record Client := {
  jar : Jar;
  baseURL : string;
  token : string;
  tokenId : string
}.

Definition withJar (c : Client) (j : Jar) : Client :=
  {| jar := j; baseURL := baseURL c; token := token c; tokenId := tokenId c |}.

(** [Credentials] represents the authentication credentials. *)
Record Credentials := { Token : string; TokenId : string }.

(** [LoginRequest] represents the login request payload. *)
Record LoginRequest := { Email : string; Password : string }.

Definition MarshalLoginRequest (r : LoginRequest) : result string :=
  Ok (marshalStrings [("email", Email r); ("password", Password r)]).

(** [LoginResponse] represents the login response. *)
Record LoginResponse := { Message : string }.

Definition LoginResponse_kind : kind := KStruct [("message", KString)].

Definition LoginResponse_of (v : rvalue) : LoginResponse :=
  {| Message := stringOf (fieldOf 0 v) |}.

Record Tag := { Tag_ID : Z; Tag_Name : string }.

Record Language := {
  Language_ID : Z; Language_Name : string;
  Language_Value : string; Language_Highlight : string
}.

Record Author := { DisplayName : string }.

Record TestCase := { Input : string; Output : string }.

Record TestCaseGroup := { Group_TestCases : list TestCase }.

Record Section := {
  Section_ID : Z; Section_Title : string;
  Section_Content : string; Section_Order : Z
}.

(** [Problem] represents a problem from SYOJ. *)
Record Problem := {
  ID : string;
  Title : string;
  Description : string;
  Difficulty : string;
  MemoryLimit : Z;
  TimeLimit : Z;
  Notes : string;
  Tags : list Tag;
  AllowedLanguages : list Language;
  ProblemAuthor : Author;
  TestCases : list TestCaseGroup;
  ProblemSection : list Section;
  AllowSubmit : bool
}.

Definition Tag_kind : kind := KStruct [("id", KInt); ("name", KString)].

Definition Language_kind : kind :=
  KStruct [("id", KInt); ("name", KString); ("value", KString);
           ("highlight", KString)].

Definition Author_kind : kind := KStruct [("displayName", KString)].

Definition TestCase_kind : kind :=
  KStruct [("input", KString); ("output", KString)].

Definition TestCaseGroup_kind : kind :=
  KStruct [("testCases", KSlice TestCase_kind)].

Definition Section_kind : kind :=
  KStruct [("id", KInt); ("title", KString); ("content", KString);
           ("order", KInt)].

Definition Problem_kind : kind :=
  KStruct [("id", KString); ("title", KString); ("description", KString);
           ("difficulty", KString); ("memoryLimit", KInt); ("timeLimit", KInt);
           ("notes", KString); ("tags", KSlice Tag_kind);
           ("allowedLanguages", KSlice Language_kind); ("author", Author_kind);
           ("testCases", KSlice TestCaseGroup_kind);
           ("ProblemSection", KSlice Section_kind); ("allowSubmit", KBool)].

Definition Tag_of (v : rvalue) : Tag :=
  {| Tag_ID := intOf (fieldOf 0 v); Tag_Name := stringOf (fieldOf 1 v) |}.

Definition Language_of (v : rvalue) : Language :=
  {| Language_ID := intOf (fieldOf 0 v); Language_Name := stringOf (fieldOf 1 v);
     Language_Value := stringOf (fieldOf 2 v);
     Language_Highlight := stringOf (fieldOf 3 v) |}.

Definition Author_of (v : rvalue) : Author :=
  {| DisplayName := stringOf (fieldOf 0 v) |}.

Definition TestCase_of (v : rvalue) : TestCase :=
  {| Input := stringOf (fieldOf 0 v); Output := stringOf (fieldOf 1 v) |}.

Definition TestCaseGroup_of (v : rvalue) : TestCaseGroup :=
  {| Group_TestCases := map TestCase_of (sliceOf (fieldOf 0 v)) |}.

Definition Section_of (v : rvalue) : Section :=
  {| Section_ID := intOf (fieldOf 0 v); Section_Title := stringOf (fieldOf 1 v);
     Section_Content := stringOf (fieldOf 2 v);
     Section_Order := intOf (fieldOf 3 v) |}.

Definition Problem_of (v : rvalue) : Problem :=
  {| ID := stringOf (fieldOf 0 v);
     Title := stringOf (fieldOf 1 v);
     Description := stringOf (fieldOf 2 v);
     Difficulty := stringOf (fieldOf 3 v);
     MemoryLimit := intOf (fieldOf 4 v);
     TimeLimit := intOf (fieldOf 5 v);
     Notes := stringOf (fieldOf 6 v);
     Tags := map Tag_of (sliceOf (fieldOf 7 v));
     AllowedLanguages := map Language_of (sliceOf (fieldOf 8 v));
     ProblemAuthor := Author_of (fieldOf 9 v);
     TestCases := map TestCaseGroup_of (sliceOf (fieldOf 10 v));
     ProblemSection := map Section_of (sliceOf (fieldOf 11 v));
     AllowSubmit := boolOf (fieldOf 12 v) |}.

(** [c.httpClient.Do req]: the cookies of the jar that match the address
    are attached to the request, the request is sent, and the cookies that
    the response sets are stored in the jar. *)
Definition Do (c : Client) (req : Request) : M (result Response * Client) :=
  let sent :=
    {| Method := Method req; URL := URL req; Header := Header req;
       Cookies := (Cookies req ++ JarCookies (URL req) (jar c))%list;
       Body := Body req |} in
  _ <- emit (EvRequest sent) ;;
  r <- roundTrip ;;
  match r with
  | RTError msg => ret (Err (TransportError msg), c)
  | RTResponse resp =>
    ret (Ok resp, withJar c (SetCookies (URL req) (SetCookie resp) (jar c)))
  end.

(** [NewClient] creates a new SYOJ API client. *)
Definition NewClient : result Client :=
  Ok {| jar := []; baseURL := "https://syoj.org";
        token := EmptyString; tokenId := EmptyString |}.

(** The address [u] of [u, _ := url.Parse(c.baseURL)].  The error is
    dropped; there is none, the base address being the constant that
    [NewClient] sets, so that the branches for [None] below are never
    taken. *)
Definition parsedBase (c : Client) : option url.URL :=
  match url.Parse (baseURL c) with
  | Ok u => Some u
  | Err _ => None
  end.

(** [NewClientWithCredentials] creates a new SYOJ API client with
    authentication credentials. *)
Definition NewClientWithCredentials (token tokenId : string) : result Client :=
  match NewClient with
  | Err e => Err e
  | Ok client =>
    let client :=
      {| jar := jar client; baseURL := baseURL client;
         token := token; tokenId := tokenId |} in
    let cookies :=
      [ {| Name := "Token"; Value := token; Path := EmptyString |};
        {| Name := "TokenId"; Value := tokenId; Path := EmptyString |} ] in
    match parsedBase client with
    | Some u => Ok (withJar client (SetCookies u cookies (jar client)))
    | None => Ok client
    end
  end.

(** The loop of [Login] over the cookies of the jar. *)
Definition extractCookies (cookies : list Cookie) : Credentials :=
  fold_left
    (fun creds cookie =>
       if String.eqb (Name cookie) "Token"
       then {| Token := Value cookie; TokenId := TokenId creds |}
       else if String.eqb (Name cookie) "TokenId"
       then {| Token := Token creds; TokenId := Value cookie |}
       else creds)
    cookies {| Token := EmptyString; TokenId := EmptyString |}.

(** [Login] performs login to SYOJ and returns credentials. *)
Definition Login (c : Client) (email password : string)
  : M (result Credentials * Client) :=
  let loginData := {| Email := email; Password := password |} in
  match MarshalLoginRequest loginData with
  | Err err => ret (Err err, c)
  | Ok jsonData =>
    match NewRequest "POST" (baseURL c ++ "/api/login") jsonData with
    | Err err => ret (Err err, c)
    | Ok req =>
      let req := HeaderSet "Content-Type" "application/json" req in
      let req := HeaderSet "User-Agent" "syojctl/1.0" req in
      '(r, c) <- Do c req ;;
      match r with
      | Err err => ret (Err err, c)
      | Ok resp =>
        body <- ReadAll resp ;;
        match body with
        | Err err => ret (Err err, c)
        | Ok body =>
          match Unmarshal body LoginResponse_kind (zero LoginResponse_kind) with
          | Err err => ret (Err err, c)
          | Ok v =>
            let loginResp := LoginResponse_of v in
            if Z.eqb (StatusCode resp) StatusOK
               && String.eqb (Message loginResp) "Successfully logged in"
            then
              let cookies :=
                match parsedBase c with
                | Some u => JarCookies u (jar c)
                | None => []
                end in
              ret (Ok (extractCookies cookies), c)
            else
              ret (Err (Errorf ("login failed with status "
                                ++ itoa (StatusCode resp) ++ ": "
                                ++ Message loginResp)), c)
          end
        end
      end
    end
  end.

(** [GetProblem] fetches a problem by its ID. *)
Definition GetProblem (c : Client) (problemID : string)
  : M (result Problem * Client) :=
  match NewRequest "GET" (baseURL c ++ "/api/problems/" ++ problemID) EmptyString with
  | Err err => ret (Err err, c)
  | Ok req =>
    let req := HeaderSet "User-Agent" "syojctl/1.0" req in
    '(r, c) <- Do c req ;;
    match r with
    | Err err => ret (Err err, c)
    | Ok resp =>
      if negb (Z.eqb (StatusCode resp) StatusOK) then
        ret (Err (Errorf ("failed to fetch problem with status "
                          ++ itoa (StatusCode resp))), c)
      else
        body <- ReadAll resp ;;
        match body with
        | Err err => ret (Err err, c)
        | Ok body =>
          match Unmarshal body Problem_kind (zero Problem_kind) with
          | Err err => ret (Err err, c)
          | Ok problem => ret (Ok (Problem_of problem), c)
          end
        end
    end
  end.

(** [SubmitResponse]: the message of the remote service. *)
Record SubmitResponse := { SubmitMessage : string }.

Definition SubmitResponse_kind : kind := KStruct [("message", KString)].

Definition SubmitResponse_of (v : rvalue) : SubmitResponse :=
  {| SubmitMessage := stringOf (fieldOf 0 v) |}.

(** Modelled from the spec: [SubmitCode], which cmd/submit.go calls and
    which is not among the sources.  The spec: it "sends an authenticated
    POST carrying code, language, and problem identifier" to [/api/submit]
    with the request body [{code, language, problemId}]; the success
    condition is status 200; "non-200/parse-failure handling mirrors
    FetchProblem"; the response is "a human-readable message returned by the
    remote service". *)
Definition SubmitCode (c : Client) (code language problemID : string)
  : M (result SubmitResponse * Client) :=
  let jsonData :=
    marshalStrings [("code", code); ("language", language);
                    ("problemId", problemID)] in
  match NewRequest "POST" (baseURL c ++ "/api/submit") jsonData with
  | Err err => ret (Err err, c)
  | Ok req =>
    let req := HeaderSet "Content-Type" "application/json" req in
    let req := HeaderSet "User-Agent" "syojctl/1.0" req in
    '(r, c) <- Do c req ;;
    match r with
    | Err err => ret (Err err, c)
    | Ok resp =>
      if negb (Z.eqb (StatusCode resp) StatusOK) then
        ret (Err (Errorf ("failed to submit code with status "
                          ++ itoa (StatusCode resp))), c)
      else
        body <- ReadAll resp ;;
        match body with
        | Err err => ret (Err err, c)
        | Ok body =>
          match Unmarshal body SubmitResponse_kind (zero SubmitResponse_kind) with
          | Err err => ret (Err err, c)
          | Ok v => ret (Ok (SubmitResponse_of v), c)
          end
        end
    end
  end.

End api.

(** ** bufio *)

Module bufio.

Definition newline : byte := "010"%char.

(** [reader.ReadString delim] on a reader that has [input] left before the
    end of the stream: the bytes up to and including the first [delim] and
    no error, or, when there is no [delim], all the bytes left and the error
    [io.EOF].  The third component is what the reader has left. *)
Fixpoint ReadString (input : string) (delim : byte) : string * bool * string :=
  match input with
  | EmptyString => (EmptyString, true, EmptyString)
  | String c t =>
    if Ascii.eqb c delim then (String c EmptyString, false, t)
    else
      let '(line, err, rest) := ReadString t delim in
      (String c line, err, rest)
  end.

End bufio.

(** ** cmd *)

Module cmd.

(** What a command finds when it runs: the credential files, the other
    files by their path, and the standard input up to its end. *)
Record Env := {
  store : credentials.FS;
  osReadFile : string -> result string;
  stdin : string
}.

(** How a run ends: with [logger.Error msg "error" err] and a return, or
    with its result.  The rendering of a problem on the terminal by the
    glamour library is not part of the model. *)
Inductive Outcome :=
| Failed (msg : string) (err : option error)
| Shown (problem : api.Problem)
| Submitted (message : string)
| Saved.

(** [showProblemCmd.Run], on the one argument that [cobra.ExactArgs(1)]
    lets through. *)
Definition showProblemRun (problemID : string) (env : Env) : M Outcome :=
  match credentials.Load (store env) with
  | Err err => ret (Failed "Failed to load credentials. Please login first." (Some err))
  | Ok creds =>
    match api.NewClientWithCredentials (credentials.Token creds)
                                       (credentials.TokenId creds) with
    | Err err => ret (Failed "Failed to create API client" (Some err))
    | Ok client =>
      '(r, _) <- api.GetProblem client problemID ;;
      match r with
      | Err err => ret (Failed "Failed to fetch problem" (Some err))
      | Ok problem => ret (Shown problem)
      end
    end
  end.

(** [markdown.WriteString s] on the builder of [problemToMarkdown]. *)
Definition WriteString (markdown s : string) : string := markdown ++ s.

(** The line feed. *)
Definition LF : string := String bufio.newline EmptyString.

(** The loop over the sections of a problem. *)
Fixpoint writeSections (sections : list api.Section) (markdown : string) : string :=
  match sections with
  | [] => markdown
  | section :: rest =>
    let markdown := WriteString markdown "## " in
    let markdown := WriteString markdown (api.Section_Title section) in
    let markdown := WriteString markdown (LF ++ LF) in
    let markdown := WriteString markdown (api.Section_Content section) in
    let markdown := WriteString markdown (LF ++ LF) in
    writeSections rest markdown
  end.

(** The loop over the test cases of the group of index [i], from the test
    case of index [j] on. *)
Fixpoint writeTestCases (i j : nat) (testCases : list api.TestCase) (markdown : string)
  : string :=
  match testCases with
  | [] => markdown
  | testCase :: rest =>
    let markdown :=
      WriteString markdown
        ("### Testcase " ++ itoa (Z.of_nat i) ++ "." ++ itoa (Z.of_nat j) ++ LF ++ LF) in
    let markdown :=
      if negb (String.eqb (api.Input testCase) EmptyString) then
        let markdown := WriteString markdown ("#### Input" ++ LF ++ LF ++ "```" ++ LF) in
        let markdown := WriteString markdown (api.Input testCase) in
        WriteString markdown (LF ++ "```" ++ LF ++ LF)
      else markdown in
    let markdown :=
      if negb (String.eqb (api.Output testCase) EmptyString) then
        let markdown := WriteString markdown ("#### Output" ++ LF ++ LF ++ "```" ++ LF) in
        let markdown := WriteString markdown (api.Output testCase) in
        WriteString markdown (LF ++ "```" ++ LF ++ LF)
      else markdown in
    writeTestCases i (S j) rest markdown
  end.

(** The loop over the groups of test cases, from the group of index [i] on;
    [testCaseGroupIndex] counts the groups that are not empty.  The result is
    the builder and the counter. *)
Fixpoint writeGroups (i : nat) (groups : list api.TestCaseGroup)
    (testCaseGroupIndex : nat) (markdown : string) : string * nat :=
  match groups with
  | [] => (markdown, testCaseGroupIndex)
  | group :: rest =>
    if Nat.ltb 0 (List.length (api.Group_TestCases group)) then
      let markdown :=
        WriteString markdown
          ("## Sample Testcase Group " ++ itoa (Z.of_nat i) ++ LF ++ LF) in
      let markdown := writeTestCases i 0 (api.Group_TestCases group) markdown in
      writeGroups (S i) rest (S testCaseGroupIndex) markdown
    else writeGroups (S i) rest testCaseGroupIndex markdown
  end.

(** [problemToMarkdown] converts a problem to markdown format. *)
Definition problemToMarkdown (problem : api.Problem) : string :=
  let markdown := EmptyString in
  let markdown := WriteString markdown "# " in
  let markdown := WriteString markdown (api.Title problem) in
  let markdown := WriteString markdown (LF ++ LF) in
  let markdown := WriteString markdown "- **Problem ID:** " in
  let markdown := WriteString markdown (api.ID problem) in
  let markdown := WriteString markdown ("  " ++ LF) in
  let markdown := WriteString markdown "- **Time limit:** " in
  let markdown := WriteString markdown (itoa (api.TimeLimit problem) ++ " ms") in
  let markdown := WriteString markdown ("  " ++ LF) in
  let markdown := WriteString markdown "- **Memory limit:** " in
  let markdown := WriteString markdown (itoa (api.MemoryLimit problem) ++ " MB") in
  let markdown := WriteString markdown ("  " ++ LF) in
  let markdown := WriteString markdown "- **Difficulty:** " in
  let markdown := WriteString markdown (api.Difficulty problem) in
  let markdown := WriteString markdown (LF ++ LF) in
  let markdown :=
    if negb (String.eqb (api.Description problem) EmptyString) then
      let markdown := WriteString markdown ("## Description" ++ LF ++ LF) in
      let markdown := WriteString markdown (api.Description problem) in
      WriteString markdown (LF ++ LF)
    else markdown in
  let markdown := writeSections (api.ProblemSection problem) markdown in
  let '(markdown, _) := writeGroups 0 (api.TestCases problem) 0 markdown in
  let markdown :=
    if negb (String.eqb (api.Notes problem) EmptyString) then
      let markdown := WriteString markdown ("## Notes" ++ LF ++ LF) in
      let markdown := WriteString markdown (api.Notes problem) in
      WriteString markdown (LF ++ LF)
    else markdown in
  markdown.

(** The language of a file, from its extension. *)
Definition inferLanguage (inputFile : string) : string :=
  if HasSuffix inputFile ".cpp" || HasSuffix inputFile ".cc"
     || HasSuffix inputFile ".cxx" then "cpp20"
  else if HasSuffix inputFile ".c" then "c"
  else if HasSuffix inputFile ".py" then "python"
  else if HasSuffix inputFile ".js" then "javascript"
  else if HasSuffix inputFile ".go" then "go"
  else if HasSuffix inputFile ".java" then "java"
  else if HasSuffix inputFile ".rs" then "rust"
  else if HasSuffix inputFile ".cs" then "csharp"
  else "cpp20".

(** The loop that reads the standard input: a line goes into the builder
    when [ReadString] returns it without an error, and the loop ends at the
    first error.  Every turn but the last consumes a byte at least, so that
    the loop makes at most one turn more than the input has bytes; [fuel]
    bounds the turns.  The result is the builder and what the reader has
    left. *)
Fixpoint readLoop (fuel : nat) (input builder : string) : string * string :=
  match fuel with
  | O => (builder, input)
  | S fuel' =>
    let '(line, err, rest) := bufio.ReadString input bufio.newline in
    if err then (builder, rest)
    else readLoop fuel' rest (builder ++ line)
  end.

Definition readStdin (input : string) : string * string :=
  readLoop (S (String.length input)) input EmptyString.

(** [submitCmd.Run], on its argument and the values of its flags
    [--language] and [--input]. *)
Definition submitRun (problemID language inputFile : string) (env : Env)
  : M Outcome :=
  let source :=
    if negb (String.eqb inputFile EmptyString) then
      match osReadFile env inputFile with
      | Err err => Err err
      | Ok codeBytes =>
        Ok (codeBytes,
            if String.eqb language EmptyString then inferLanguage inputFile
            else language)
      end
    else
      Ok (fst (readStdin (stdin env)),
          if String.eqb language EmptyString then "cpp20" else language) in
  match source with
  | Err err => ret (Failed "Failed to read input file" (Some err))
  | Ok (code, language) =>
    if String.eqb code EmptyString then
      ret (Failed "No code provided for submission" None)
    else
      match credentials.Load (store env) with
      | Err err =>
        ret (Failed "Failed to load credentials. Please login first." (Some err))
      | Ok creds =>
        match api.NewClientWithCredentials (credentials.Token creds)
                                           (credentials.TokenId creds) with
        | Err err => ret (Failed "Failed to create API client" (Some err))
        | Ok client =>
          '(r, _) <- api.SubmitCode client code language problemID ;;
          match r with
          | Err err => ret (Failed "Failed to submit code" (Some err))
          | Ok response => ret (Submitted (api.SubmitMessage response))
          end
        end
      end
  end.

(** [loginCmd.Run], on the values of its flags and of the environment
    variables [SYOJ_USERNAME] and [SYOJ_PASSWORD]. *)
Definition loginRun (username password envUsername envPassword : string)
    (env : Env) : M (Outcome * credentials.FS) :=
  let username := if String.eqb username EmptyString then envUsername else username in
  let password := if String.eqb password EmptyString then envPassword else password in
  if String.eqb username EmptyString || String.eqb password EmptyString then
    ret (Failed "Username and password are required. Please provide them via flags or environment variables." None,
         store env)
  else
    match api.NewClient with
    | Err err => ret (Failed "Failed to create API client" (Some err), store env)
    | Ok client =>
      '(r, _) <- api.Login client username password ;;
      match r with
      | Err err => ret (Failed "Failed during login" (Some err), store env)
      | Ok apiCreds =>
        let creds :=
          {| credentials.Token := api.Token apiCreds;
             credentials.TokenId := api.TokenId apiCreds |} in
        match credentials.Save creds (store env) with
        | (Some err, fs) => ret (Failed "Failed to save credentials to file" (Some err), fs)
        | (None, fs) => ret (Saved, fs)
        end
      end
    end.

End cmd.

(** * Properties

    The definitions that the statements and their proofs use. *)

(** ** UTF-8 *)

(** Strings made of valid UTF-8 encoded runes, one constructor per width. *)
Inductive wf8 : string -> Prop :=
| wf8_nil : wf8 EmptyString
| wf8_1 b t : bv b < 0x80 -> wf8 t -> wf8 (String b t)
| wf8_2 b b1 t :
    0xC2 <= bv b < 0xE0 -> 0x80 <= bv b1 <= 0xBF ->
    wf8 t -> wf8 (String b (String b1 t))
| wf8_3 b b1 b2 t :
    0xE0 <= bv b < 0xF0 -> 0x80 <= bv b1 <= 0xBF -> 0x80 <= bv b2 <= 0xBF ->
    (bv b = 0xE0 -> 0xA0 <= bv b1) -> (bv b = 0xED -> bv b1 <= 0x9F) ->
    wf8 t -> wf8 (String b (String b1 (String b2 t)))
| wf8_4 b b1 b2 b3 t :
    0xF0 <= bv b <= 0xF4 -> 0x80 <= bv b1 <= 0xBF -> 0x80 <= bv b2 <= 0xBF ->
    0x80 <= bv b3 <= 0xBF ->
    (bv b = 0xF0 -> 0x90 <= bv b1) -> (bv b = 0xF4 -> bv b1 <= 0x8F) ->
    wf8 t -> wf8 (String b (String b1 (String b2 (String b3 t)))).

(** The runes that sequences of two, three and four bytes encode. *)
Definition rune_2 (b b1 : byte) : N := (bv b mod 32) * 64 + bv b1 mod 64.
Definition rune_3 (b b1 b2 : byte) : N :=
  (bv b mod 16) * 4096 + (bv b1 mod 64) * 64 + bv b2 mod 64.
Definition rune_4 (b b1 b2 b3 : byte) : N :=
  (bv b mod 8) * 262144 + (bv b1 mod 64) * 4096 + (bv b2 mod 64) * 64 + bv b3 mod 64.

(** [sanitize s]: [s] with every byte that is not part of a valid UTF-8
    encoded rune replaced by the three bytes that encode U+FFFD. *)
Fixpoint sanitize (s : string) : string :=
  match s with
  | EmptyString => EmptyString
  | String b t =>
    let '(c, size) := utf8.DecodeRune s in
    if (c =? utf8.RuneError) && Nat.eqb size 1
    then utf8.EncodeRune utf8.RuneError ++ sanitize t
    else take size s ++ sanitize (utf8.advance size t)
  end.

(** Strings, cut into valid UTF-8 encoded runes and the bytes in between,
    one constructor per width and one for a byte that starts no rune. *)
Inductive scanned : string -> Prop :=
| scanned_nil : scanned EmptyString
| scanned_1 b t : bv b < 0x80 -> scanned t -> scanned (String b t)
| scanned_2 b b1 t :
    0xC2 <= bv b < 0xE0 -> 0x80 <= bv b1 <= 0xBF ->
    scanned t -> scanned (String b (String b1 t))
| scanned_3 b b1 b2 t :
    0xE0 <= bv b < 0xF0 -> 0x80 <= bv b1 <= 0xBF -> 0x80 <= bv b2 <= 0xBF ->
    (bv b = 0xE0 -> 0xA0 <= bv b1) -> (bv b = 0xED -> bv b1 <= 0x9F) ->
    scanned t -> scanned (String b (String b1 (String b2 t)))
| scanned_4 b b1 b2 b3 t :
    0xF0 <= bv b <= 0xF4 -> 0x80 <= bv b1 <= 0xBF -> 0x80 <= bv b2 <= 0xBF ->
    0x80 <= bv b3 <= 0xBF ->
    (bv b = 0xF0 -> 0x90 <= bv b1) -> (bv b = 0xF4 -> bv b1 <= 0x8F) ->
    scanned t -> scanned (String b (String b1 (String b2 (String b3 t))))
| scanned_bad b t :
    0x80 <= bv b -> utf8.DecodeRune (String b t) = (utf8.RuneError, 1%nat) ->
    scanned t -> scanned (String b t).

(** ** JSON values and kinds *)

(** The kind of the first field whose name passes a test. *)
Fixpoint findKind (test : string -> bool) (fields : list (string * kind)) : option kind :=
  match fields with
  | [] => None
  | (name, fk) :: fields' => if test name then Some fk else findKind test fields'
  end.

(** The kind of the field that a key names: the field of that very name,
    or else the first field of the same folded name. *)
Definition fieldKind (fields : list (string * kind)) (key : string) : option kind :=
  match findKind (String.eqb key) fields with
  | Some fk => Some fk
  | None => findKind (fun name => String.eqb (foldName name) (foldName key)) fields
  end.

(** [conforms k j]: the JSON value [j] has the structure of the kind [k].
    [null] conforms to every kind.  A string, a boolean, an array conform to
    the kind of strings, of booleans, to a slice whose elements they conform
    to; a number conforms to [int] when it is the literal of a 64-bit
    integer; an object conforms to a struct when the value of every key that
    names a field conforms to the kind of that field, whatever the values of
    the other keys. *)
Fixpoint conforms (k : kind) (j : value) {struct j} : bool :=
  match j with
  | Null => true
  | Bool _ => match k with KBool => true | _ => false end
  | Number lit =>
    match k with
    | KInt => match ParseInt lit with Some _ => true | None => false end
    | _ => false
    end
  | Str _ => match k with KString => true | _ => false end
  | Array elems =>
    match k with
    | KSlice e => forallb (conforms e) elems
    | _ => false
    end
  | Object members =>
    match k with
    | KStruct fields =>
      forallb (fun m : string * value =>
                 let '(key, j') := m in
                 match fieldKind fields key with
                 | Some fk => conforms fk j'
                 | None => true
                 end) members
    | _ => false
    end
  end.

(** A member of an object conforms to the struct with the given fields. *)
Definition conformsMember (fields : list (string * kind)) (m : string * value) : bool :=
  let '(key, j') := m in
  match fieldKind fields key with
  | Some fk => conforms fk j'
  | None => true
  end.

(** [shaped k v]: [v] is a value of the kind [k]. *)
Fixpoint shaped (k : kind) (v : rvalue) {struct k} : bool :=
  match k, v with
  | KString, VString _ => true
  | KInt, VInt _ => true
  | KBool, VBool _ => true
  | KSlice e, VSlice elems => forallb (shaped e) elems
  | KStruct fields, VStruct vs =>
    (fix all (fs : list (string * kind)) (vs : list rvalue) : bool :=
       match fs, vs with
       | [], [] => true
       | (_, fk) :: fs', v :: vs' => shaped fk v && all fs' vs'
       | _, _ => false
       end) fields vs
  | _, _ => false
  end.

Section Combinators.
Variable dec : kind -> value -> rvalue -> result rvalue.

(** The two loops inside [decode], over the fields of a struct and over
    the elements of an array. *)
Definition decodeField (test : string -> bool) :=
  fix field (fs : list (string * kind)) (vs : list rvalue) (j' : value)
    : option (result (list rvalue)) :=
    match fs, vs with
    | (name, fk) :: fs', v :: vs' =>
      if test name then
        Some (match dec fk j' v with
              | Ok v' => Ok (v' :: vs')
              | Err x => Err x
              end)
      else
        match field fs' vs' j' with
        | Some (Ok r) => Some (Ok (v :: r))
        | Some (Err x) => Some (Err x)
        | None => None
        end
    | _, _ => None
    end.

Definition decodeElems (e : kind) :=
  fix each (js : list value) (cs : list rvalue) : result (list rvalue) :=
    match js with
    | [] => Ok []
    | j' :: js' =>
      match dec e j' (match cs with c :: _ => c | [] => zero e end) with
      | Ok v =>
        match each js' (List.tl cs) with
        | Ok vs => Ok (v :: vs)
        | Err x => Err x
        end
      | Err x => Err x
      end
    end.
End Combinators.

(** The loops inside [shaped] and [zero], over the fields of a struct. *)
Definition allShaped (sh : kind -> rvalue -> bool) :=
  fix all (fs : list (string * kind)) (vs : list rvalue) : bool :=
    match fs, vs with
    | [], [] => true
    | (_, fk) :: fs', v :: vs' => sh fk v && all fs' vs'
    | _, _ => false
    end.

(** The zero values of the fields of a struct. *)
Definition zeros :=
  fix zeros (fs : list (string * kind)) : list rvalue :=
    match fs with
    | [] => []
    | (_, fk) :: fs' => zero fk :: zeros fs'
    end.

(** The fields of a struct kind. *)
Definition fieldsOfKind (k : kind) : list (string * kind) :=
  match k with KStruct fields => fields | _ => [] end.

(** Induction on kinds, with the hypothesis for every field of a struct. *)
Definition kind_ind' (P : kind -> Prop)
    (HS : P KString) (HI : P KInt) (HB : P KBool)
    (HL : forall e, P e -> P (KSlice e))
    (HT : forall fields, Forall (fun f => P (snd f)) fields -> P (KStruct fields))
  : forall k, P k :=
  fix IH (k : kind) : P k :=
    match k with
    | KString => HS
    | KInt => HI
    | KBool => HB
    | KSlice e => HL e (IH e)
    | KStruct fields =>
      HT fields
         ((fix all (fs : list (string * kind)) : Forall (fun f => P (snd f)) fs :=
             match fs with
             | [] => Forall_nil _
             | f :: fs' => Forall_cons f (IH (snd f)) (all fs')
             end) fields)
    end.

(** Decoding into a value of the kind succeeds exactly on the JSON values
    that conform to the kind, and leaves a value of the kind. *)
Definition exact (k : kind) : Prop :=
  forall (j : value) (cur : rvalue),
    shaped k cur = true ->
    isOk (decode k j cur) = conforms k j
    /\ (forall v, decode k j cur = Ok v -> shaped k v = true).

(** The JSON value is a string. *)
Definition isString (j : value) : bool :=
  match j with Str _ => true | _ => false end.

(** The object has a member of the given name whose value is a string. *)
Definition hasStringField (name : string) (members : list (string * value)) : bool :=
  existsb (fun m => String.eqb (fst m) name && isString (snd m)) members.

(** The expected structured format of the configuration file, in the words
    of the specification: a JSON object with the two string fields. *)
Definition matchesFormat (content : string) : bool :=
  match parse content with
  | Some (Object members) =>
    hasStringField "token" members && hasStringField "token_id" members
  | _ => false
  end.

(** The text does not parse as JSON, or parses to a value that does not
    conform to the kind. *)
Definition malformed (k : kind) (body : string) : bool :=
  match parse body with
  | None => true
  | Some j => negb (conforms k j)
  end.

(** No two fields of the struct have the same folded name. *)
Fixpoint distinctFolds (fields : list (string * kind)) : bool :=
  match fields with
  | [] => true
  | (name, _) :: fields' =>
    negb (existsb (fun f => String.eqb (foldName (fst f)) (foldName name)) fields')
    && distinctFolds fields'
  end.

(** The member of key [key], which stands between the members [pre] and
    [post] of an object, is the only one that names the field [name]. *)
Definition namesOnce (name key : string) (pre post : list (string * value)) : Prop :=
  foldName key = foldName name
  /\ forall key' j', In (key', j') (pre ++ post)%list -> foldName key' <> foldName name.

(** ** Errors and files *)

(** The classes of errors of the specification. *)
Definition isParseError (e : error) : bool :=
  match e with
  | SyntaxError | UnmarshalTypeError _ => true
  | _ => false
  end.

(** The error of a file that does not exist. *)
Definition isNotExist (e : error) : bool :=
  match e with ErrNotExist _ => true | _ => false end.

(** The result is an error of the given class. *)
Definition failsWith (P : error -> bool) {A} (r : result A) : bool :=
  match r with
  | Ok _ => false
  | Err e => P e
  end.

(** Every credentials file can be read by its owner. *)
Definition readable_files (fs : credentials.FS) : bool :=
  forallb (fun d => match credentials.entry d with
                    | Some f => credentials.readable f
                    | None => true
                    end) fs.

(** The directory holds no credentials file. *)
Definition noFile (d : credentials.dir) : bool :=
  match credentials.entry d with
  | Some _ => false
  | None => true
  end.

(** The directory without its credentials file. *)
Definition emptied (d : credentials.dir) : credentials.dir :=
  {| credentials.present := credentials.present d;
     credentials.mkdirOk := credentials.mkdirOk d;
     credentials.createOk := credentials.createOk d;
     credentials.entry := None |}.

(** The store lets [Save] write: the first directory of the search path
    that exists or can be created holds a credentials file that can be
    written, or holds none and lets one be created. *)
Fixpoint savable (fs : credentials.FS) : bool :=
  match fs with
  | [] => false
  | d :: fs' =>
    if credentials.present d || credentials.mkdirOk d then
      match credentials.entry d with
      | Some f => credentials.writable f
      | None => credentials.createOk d
      end
    else savable fs'
  end.

(** The operation has returned no error. *)
Definition succeeded (e : option error) : bool :=
  match e with None => true | Some _ => false end.

(** ** Requests and responses *)

(** The base address that [NewClient] sets. *)
Definition base : string := "https://syoj.org".

(** The parsed addresses of the base and of the login endpoint. *)
Definition loginURL : url.URL :=
  {| url.Scheme := "https"; url.Host := "syoj.org"; url.Path := "/api/login";
     url.RawQuery := EmptyString; url.Fragment := EmptyString |}.

Definition baseAddress : url.URL :=
  {| url.Scheme := "https"; url.Host := "syoj.org"; url.Path := EmptyString;
     url.RawQuery := EmptyString; url.Fragment := EmptyString |}.

(** The message of a successful login. *)
Definition successMessage : string := "Successfully logged in".

(** The request of [Login], before the cookies are attached. *)
Definition loginRequest (email password : string) : http.Request :=
  {| http.Method := "POST"; http.URL := loginURL;
     http.Header := [("Content-Type", "application/json"); ("User-Agent", "syojctl/1.0")];
     http.Cookies := [];
     http.Body := marshalStrings [("email", email); ("password", password)] |}.

(** What [Login] returns once the response has come, from the status, the
    decoded body and the jar. *)
Definition loginVerdict (status : Z) (body : result string) (jar : http.Jar)
  : result api.Credentials :=
  match body with
  | Err e => Err e
  | Ok body =>
    match Unmarshal body api.LoginResponse_kind (zero api.LoginResponse_kind) with
    | Err e => Err e
    | Ok v =>
      if Z.eqb status 200 && String.eqb (api.Message (api.LoginResponse_of v)) successMessage
      then Ok (api.extractCookies (http.JarCookies baseAddress jar))
      else Err (Errorf ("login failed with status " ++ itoa status ++ ": "
                        ++ api.Message (api.LoginResponse_of v)))
    end
  end.

(** The address that [GetProblem] asks for, from the identifier as it is
    written: what follows the first [#] is the fragment, what lies between
    the first [?] and it is the query, and what comes before both is the
    end of the path. *)
Definition problemURL (problemID : string) : result url.URL :=
  let '(u, frag, _) := Cut problemID "#"%char in
  if url.stringContainsCTLByte u then
    Err (URLError "net/url: invalid control character in URL")
  else
    let '(p, query, _) := Cut u "?"%char in
    match url.unescape p, url.unescape frag with
    | Ok path, Ok fragment =>
      Ok {| url.Scheme := "https"; url.Host := "syoj.org";
            url.Path := "/api/problems/" ++ path;
            url.RawQuery := query; url.Fragment := fragment |}
    | Err e, _ => Err e
    | _, Err e => Err e
    end.

(** The request of [GetProblem] for a parsed address, before the cookies
    are attached. *)
Definition problemRequest (u : url.URL) : http.Request :=
  {| http.Method := "GET"; http.URL := u;
     http.Header := [("User-Agent", "syojctl/1.0")];
     http.Cookies := []; http.Body := EmptyString |}.

(** What [GetProblem] makes of a response. *)
Definition fetchVerdict (resp : http.Response) : result api.Problem :=
  if negb (Z.eqb (http.StatusCode resp) 200) then
    Err (Errorf ("failed to fetch problem with status " ++ itoa (http.StatusCode resp)))
  else
    match http.RespBody resp with
    | Err e => Err e
    | Ok body =>
      match Unmarshal body api.Problem_kind (zero api.Problem_kind) with
      | Err e => Err e
      | Ok v => Ok (api.Problem_of v)
      end
    end.

(** The request that [Do] sends: [req] with the cookies of the jar. *)
Definition attach (req : http.Request) (jar : http.Jar) : http.Request :=
  {| http.Method := http.Method req; http.URL := http.URL req;
     http.Header := http.Header req;
     http.Cookies := (http.Cookies req ++ http.JarCookies (http.URL req) jar)%list;
     http.Body := http.Body req |}.

(** The trace of [w] with one more event. *)
Definition logged (w : World) (e : Event) : list Event := (trace w ++ [e])%list.

(** The response reports a successful login: the status 200 and a body
    that decodes to the message of success. *)
Definition loginSucceeded (resp : http.Response) : bool :=
  Z.eqb (http.StatusCode resp) 200
  && match http.RespBody resp with
     | Ok body =>
       match Unmarshal body api.LoginResponse_kind (zero api.LoginResponse_kind) with
       | Ok v => String.eqb (api.Message (api.LoginResponse_of v)) successMessage
       | Err _ => false
       end
     | Err _ => false
     end.

(** The cookie comes without a path of its own. *)
Definition pathless (ck : http.Cookie) : bool := negb (HasPrefix (http.Path ck) "/").

(** ** Cookies and calls *)

(** The value of the cookie of a given name among the cookies of an
    address, the last one should there be several; empty when there is
    none. *)
Definition cookieValue (name : string) (cookies : list http.Cookie) : string :=
  match find (fun ck => String.eqb (http.Name ck) name) (rev cookies) with
  | Some ck => http.Value ck
  | None => EmptyString
  end.

(** The jar that [NewClientWithCredentials] seeds. *)
Definition seeded (token tokenId : string) : http.Jar :=
  [ {| http.Name := "Token"; http.Value := token; http.Path := "/" |};
    {| http.Name := "TokenId"; http.Value := tokenId; http.Path := "/" |} ].


(** The client that [NewClientWithCredentials] returns. *)
Definition clientOf (token tokenId : string) : api.Client :=
  {| api.jar := seeded token tokenId; api.baseURL := base;
     api.token := token; api.tokenId := tokenId |}.





(** The requests of a trace, in order. *)
Fixpoint requestsOf (tr : list Event) : list http.Request :=
  match tr with
  | [] => []
  | EvRequest req :: tr' => req :: requestsOf tr'
  | EvReadBody :: tr' => requestsOf tr'
  end.



(** ** The standard input *)

(** The lines of a text that end with a newline: the text up to its last
    newline, that newline included. *)
Fixpoint completeLines (s : string) : string :=
  match s with
  | EmptyString => EmptyString
  | String c t =>
    match completeLines t with
    | EmptyString =>
      if Ascii.eqb c bufio.newline then String c EmptyString else EmptyString
    | r => String c r
    end
  end.

(** The text holds no newline. *)
Fixpoint noNewline (s : string) : bool :=
  match s with
  | EmptyString => true
  | String c t => negb (Ascii.eqb c bufio.newline) && noNewline t
  end.

(** The last byte of a text. *)
Fixpoint lastByte (s : string) : option byte :=
  match s with
  | EmptyString => None
  | String c EmptyString => Some c
  | String _ t => lastByte t
  end.

(** ** The commands *)

(** The message of [login] when a name or a password is missing. *)
Definition loginUsage : string :=
  "Username and password are required. Please provide them via flags or environment variables.".


(** The value of a flag, or of the environment variable when the flag is
    empty. *)
Definition orEnv (flag env : string) : string :=
  if String.eqb flag EmptyString then env else flag.


(** The response carries a problem: the status 200 and a body that can be
    read and decodes into a [Problem]. *)
Definition carriesProblem (resp : http.Response) : bool :=
  Z.eqb (http.StatusCode resp) 200
  && match http.RespBody resp with
     | Ok body => negb (malformed api.Problem_kind body)
     | Err _ => false
     end.

(** The run of a command ends with a problem to show. *)
Definition isShown (o : cmd.Outcome) : bool :=
  match o with cmd.Shown _ => true | _ => false end.

(** The run of a command ends with the given message and some error. *)
Definition failedWith (msg : string) (o : cmd.Outcome) : bool :=
  match o with
  | cmd.Failed m (Some _) => String.eqb m msg
  | _ => false
  end.

(** ** The markdown of a problem *)

(** A part under a heading of the second level, left out when its text is
    empty. *)
Definition titled (heading text : string) : string :=
  if String.eqb text EmptyString then EmptyString
  else "## " ++ heading ++ cmd.LF ++ cmd.LF ++ text ++ cmd.LF ++ cmd.LF.

(** A fenced block under a heading of the fourth level, left out when its
    text is empty. *)
Definition fenced (heading text : string) : string :=
  if String.eqb text EmptyString then EmptyString
  else "#### " ++ heading ++ cmd.LF ++ cmd.LF ++ "```" ++ cmd.LF
       ++ text ++ cmd.LF ++ "```" ++ cmd.LF ++ cmd.LF.

(** The title and the four lines of the identifier, the limits and the
    difficulty. *)
Definition headerText (p : api.Problem) : string :=
  "# " ++ api.Title p ++ cmd.LF ++ cmd.LF
  ++ "- **Problem ID:** " ++ api.ID p ++ "  " ++ cmd.LF
  ++ "- **Time limit:** " ++ itoa (api.TimeLimit p) ++ " ms" ++ "  " ++ cmd.LF
  ++ "- **Memory limit:** " ++ itoa (api.MemoryLimit p) ++ " MB" ++ "  " ++ cmd.LF
  ++ "- **Difficulty:** " ++ api.Difficulty p ++ cmd.LF ++ cmd.LF.

(** A section under its title. *)
Definition sectionText (s : api.Section) : string :=
  "## " ++ api.Section_Title s ++ cmd.LF ++ cmd.LF
  ++ api.Section_Content s ++ cmd.LF ++ cmd.LF.

(** The test case of index [j] in the group of index [i]. *)
Definition testCaseText (i j : nat) (t : api.TestCase) : string :=
  "### Testcase " ++ itoa (Z.of_nat i) ++ "." ++ itoa (Z.of_nat j) ++ cmd.LF ++ cmd.LF
  ++ fenced "Input" (api.Input t) ++ fenced "Output" (api.Output t).

(** The texts of the elements of a list, numbered from [i] on, one after
    the other. *)
Fixpoint numbered {A} (text : nat -> A -> string) (i : nat) (l : list A) : string :=
  match l with
  | [] => EmptyString
  | x :: l' => text i x ++ numbered text (S i) l'
  end.

(** A group of test cases at the position [i] of the list of groups;
    nothing when the group is empty. *)
Definition groupText (i : nat) (g : api.TestCaseGroup) : string :=
  match api.Group_TestCases g with
  | [] => EmptyString
  | ts => "## Sample Testcase Group " ++ itoa (Z.of_nat i) ++ cmd.LF ++ cmd.LF
          ++ numbered (testCaseText i) 0 ts
  end.

(** ** Inputs of the examples *)

(** The double quote, as a string. *)
Definition q : string := String dquote EmptyString.

(** The newline, as a string. *)
Definition nl : string := String bufio.newline EmptyString.

(** A configuration directory that does not exist yet and can be created. *)
Definition freshDir : credentials.dir :=
  {| credentials.present := false; credentials.mkdirOk := true;
     credentials.createOk := true; credentials.entry := None |}.

(** A directory that holds a credentials file of the given content. *)
Definition storedFile (content : string) : credentials.dir :=
  {| credentials.present := true; credentials.mkdirOk := true;
     credentials.createOk := true;
     credentials.entry := Some {| credentials.data := content;
                                  credentials.readable := true;
                                  credentials.writable := true |} |}.

(** The store after a login: the record with the fields "abc" and "def". *)
Definition savedStore : credentials.FS :=
  [storedFile ("{" ++ q ++ "token" ++ q ++ ":" ++ q ++ "abc" ++ q ++ ","
                   ++ q ++ "token_id" ++ q ++ ":" ++ q ++ "def" ++ q ++ "}")].

(** A stored record whose token is empty. *)
Definition emptyTokenStore : credentials.FS :=
  [storedFile ("{" ++ q ++ "token" ++ q ++ ":" ++ q ++ q ++ ","
                   ++ q ++ "token_id" ++ q ++ ":" ++ q ++ "def" ++ q ++ "}")].

(** No file can be opened. *)
Definition noFiles (path : string) : result string :=
  Err (ErrNotExist "open: no such file or directory").

(** What a command finds when the stored token is empty. *)
Definition emptyTokenEnv : cmd.Env :=
  {| cmd.store := emptyTokenStore; cmd.osReadFile := noFiles;
     cmd.stdin := "int main(){}" ++ nl |}.

(** The client that [NewClient] returns. *)
Definition freshClient : api.Client :=
  {| api.jar := []; api.baseURL := "https://syoj.org";
     api.token := EmptyString; api.tokenId := EmptyString |}.

(** A client as [NewClientWithCredentials "abc" "def"] returns it. *)
Definition seededClient : api.Client :=
  {| api.jar := [ {| http.Name := "Token"; http.Value := "abc"; http.Path := "/" |};
                  {| http.Name := "TokenId"; http.Value := "def"; http.Path := "/" |} ];
     api.baseURL := "https://syoj.org"; api.token := "abc"; api.tokenId := "def" |}.

(** Responses used as examples. *)
Definition notFound : http.Response :=
  {| http.StatusCode := 404; http.SetCookie := [];
     http.RespBody := Ok "not found" |}.

(** Status 200 with a message other than that of success. *)
Definition wrongPassword : http.Response :=
  {| http.StatusCode := 200; http.SetCookie := [];
     http.RespBody := Ok ("{" ++ q ++ "message" ++ q ++ ":" ++ q
                          ++ "Invalid credentials" ++ q ++ "}") |}.

(** A successful response to a login that sets the given cookies. *)
Definition loggedIn (cookies : list http.Cookie) : http.Response :=
  {| http.StatusCode := 200; http.SetCookie := cookies;
     http.RespBody := Ok ("{" ++ q ++ "message" ++ q ++ ":" ++ q
                          ++ "Successfully logged in" ++ q ++ "}") |}.

(** Status 200, an empty object, no cookie. *)
Definition quietOK : http.Response :=
  {| http.StatusCode := 200; http.SetCookie := []; http.RespBody := Ok "{}" |}.


(** A body for [GetProblem]: an identifier, a time limit, a key that names
    no field and a tag; no title. *)
Definition sampleBody : string :=
  "{" ++ q ++ "id" ++ q ++ ":" ++ q ++ "I001" ++ q ++ ","
      ++ q ++ "timeLimit" ++ q ++ ":1000,"
      ++ q ++ "extra" ++ q ++ ":[1,{" ++ q ++ "a" ++ q ++ ":null}],"
      ++ q ++ "tags" ++ q ++ ":[{" ++ q ++ "id" ++ q ++ ":1," ++ q ++ "name" ++ q ++ ":"
      ++ q ++ "dp" ++ q ++ "}]}".

(** The members of [sampleBody] and the response that carries it. *)
Definition sampleMembers : list (string * value) :=
  Eval vm_compute in
    match parse sampleBody with
    | Some (Object members) => members
    | _ => []
    end.

Definition sampleResponse : http.Response :=
  {| http.StatusCode := 200; http.SetCookie := []; http.RespBody := Ok sampleBody |}.


(** A response whose body cannot be read. *)
Definition brokenBody (status : Z) : http.Response :=
  {| http.StatusCode := status; http.SetCookie := [];
     http.RespBody := Err (ReadError "unexpected EOF") |}.

(** A page that is not JSON, as a gateway sends it. *)
Definition gatewayError : http.Response :=
  {| http.StatusCode := 502; http.SetCookie := [];
     http.RespBody := Ok "<html>Bad Gateway</html>" |}.

(** Status 200 with a time limit that is not an integer. *)
Definition fractionalLimit : http.Response :=
  {| http.StatusCode := 200; http.SetCookie := [];
     http.RespBody := Ok ("{" ++ q ++ "timeLimit" ++ q ++ ":1.5}") |}.

(** A credentials file written by hand: the keys in capitals, a comment
    among them. *)
Definition handWritten : string :=
  "{" ++ q ++ "comment" ++ q ++ ":[1,2], "
      ++ q ++ "TOKEN" ++ q ++ ":" ++ q ++ "abc" ++ q ++ ", "
      ++ q ++ "Token_ID" ++ q ++ ":" ++ q ++ "def" ++ q ++ "}".

(** A body for [GetProblem] with a title, a time limit and the flag. *)
Definition titledBody : string :=
  "{" ++ q ++ "title" ++ q ++ ":" ++ q ++ "A+B" ++ q ++ ","
      ++ q ++ "timeLimit" ++ q ++ ":1000,"
      ++ q ++ "allowSubmit" ++ q ++ ":true}".

(** The response that carries [titledBody]. *)
Definition titledResponse : http.Response :=
  {| http.StatusCode := 200; http.SetCookie := []; http.RespBody := Ok titledBody |}.

(** A credentials file that its owner cannot read. *)
Definition unreadableFile : credentials.dir :=
  {| credentials.present := true; credentials.mkdirOk := true;
     credentials.createOk := true;
     credentials.entry := Some {| credentials.data := "{}";
                                  credentials.readable := false;
                                  credentials.writable := true |} |}.

(** A body with two groups of test cases, the first of them empty. *)
Definition groupsBody : string :=
  "{" ++ q ++ "testCases" ++ q ++ ":[{" ++ q ++ "testCases" ++ q ++ ":[]},{"
      ++ q ++ "testCases" ++ q ++ ":[{" ++ q ++ "input" ++ q ++ ":" ++ q ++ "1 2" ++ q
      ++ "," ++ q ++ "output" ++ q ++ ":" ++ q ++ "3" ++ q ++ "}]}]}".

(** The response that carries [groupsBody]. *)
Definition groupsResponse : http.Response :=
  {| http.StatusCode := 200; http.SetCookie := []; http.RespBody := Ok groupsBody |}.

(** * Proofs

    ** Bytes and UTF-8 *)

Lemma mk_bv (b : byte) : mk (bv b) = b.
Proof.
  unfold mk, bv. rewrite N.mod_small by apply N_ascii_bounded.
  apply ascii_N_embedding.
Qed.

Lemma div_eq (a k q r : N) : r < k -> a = q * k + r -> a / k = q.
Proof.
  intros Hr ->. symmetry. apply (N.div_unique _ k q r); lia.
Qed.

Lemma mod_eq (a k q r : N) : r < k -> a = q * k + r -> a mod k = r.
Proof.
  intros Hr ->. symmetry. apply (N.mod_unique _ k q r); lia.
Qed.

(** The bytes of a rune of two, three or four bytes, from its value. *)
Lemma rune2 (x y : N) :
  0xC2 <= x < 0xE0 -> 0x80 <= y <= 0xBF ->
  let c := (x mod 32) * 64 + y mod 64 in
  0x80 <= c <= 0x7FF /\ 0xC0 + c / 64 = x /\ 0x80 + c mod 64 = y.
Proof.
  intros Hx Hy c; subst c.
  rewrite (mod_eq x 32 6 (x - 192)) by lia.
  rewrite (mod_eq y 64 2 (y - 128)) by lia.
  rewrite (div_eq _ 64 (x - 192) (y - 128)) by lia.
  rewrite (mod_eq _ 64 (x - 192) (y - 128)) by lia.
  lia.
Qed.

Lemma rune3 (x y z : N) :
  0xE0 <= x < 0xF0 -> 0x80 <= y <= 0xBF -> 0x80 <= z <= 0xBF ->
  (x = 0xE0 -> 0xA0 <= y) -> (x = 0xED -> y <= 0x9F) ->
  let c := (x mod 16) * 4096 + (y mod 64) * 64 + z mod 64 in
  0x800 <= c <= 0xFFFF /\ ~ (0xD800 <= c <= 0xDFFF) /\
  0xE0 + c / 4096 = x /\ 0x80 + (c / 64) mod 64 = y /\ 0x80 + c mod 64 = z.
Proof.
  intros Hx Hy Hz H0 HD c; subst c.
  rewrite (mod_eq x 16 14 (x - 224)) by lia.
  rewrite (mod_eq y 64 2 (y - 128)) by lia.
  rewrite (mod_eq z 64 2 (z - 128)) by lia.
  rewrite (div_eq _ 4096 (x - 224) ((y - 128) * 64 + (z - 128))) by lia.
  rewrite (div_eq _ 64 ((x - 224) * 64 + (y - 128)) (z - 128)) by lia.
  rewrite (mod_eq ((x - 224) * 64 + (y - 128)) 64 (x - 224) (y - 128)) by lia.
  rewrite (mod_eq _ 64 ((x - 224) * 64 + (y - 128)) (z - 128)) by lia.
  lia.
Qed.

Lemma rune4 (x y z w : N) :
  0xF0 <= x <= 0xF4 -> 0x80 <= y <= 0xBF -> 0x80 <= z <= 0xBF -> 0x80 <= w <= 0xBF ->
  (x = 0xF0 -> 0x90 <= y) -> (x = 0xF4 -> y <= 0x8F) ->
  let c := (x mod 8) * 262144 + (y mod 64) * 4096 + (z mod 64) * 64 + w mod 64 in
  0x10000 <= c <= 0x10FFFF /\
  0xF0 + c / 262144 = x /\ 0x80 + (c / 4096) mod 64 = y /\
  0x80 + (c / 64) mod 64 = z /\ 0x80 + c mod 64 = w.
Proof.
  intros Hx Hy Hz Hw H0 H4 c; subst c.
  rewrite (mod_eq x 8 30 (x - 240)) by lia.
  rewrite (mod_eq y 64 2 (y - 128)) by lia.
  rewrite (mod_eq z 64 2 (z - 128)) by lia.
  rewrite (mod_eq w 64 2 (w - 128)) by lia.
  rewrite (div_eq _ 262144 (x - 240)
             ((y - 128) * 4096 + (z - 128) * 64 + (w - 128))) by lia.
  rewrite (div_eq _ 4096 ((x - 240) * 64 + (y - 128))
             ((z - 128) * 64 + (w - 128))) by lia.
  rewrite (div_eq _ 64 (((x - 240) * 64 + (y - 128)) * 64 + (z - 128))
             (w - 128)) by lia.
  rewrite (mod_eq ((x - 240) * 64 + (y - 128)) 64 (x - 240) (y - 128)) by lia.
  rewrite (mod_eq (((x - 240) * 64 + (y - 128)) * 64 + (z - 128)) 64
             ((x - 240) * 64 + (y - 128)) (z - 128)) by lia.
  rewrite (mod_eq _ 64 (((x - 240) * 64 + (y - 128)) * 64 + (z - 128))
             (w - 128)) by lia.
  lia.
Qed.

Ltac btest :=
  repeat match goal with
  | |- context [N.ltb ?a ?b] =>
      first [rewrite (proj2 (N.ltb_lt a b)) by lia
            | rewrite (proj2 (N.ltb_ge a b)) by lia]
  | |- context [N.leb ?a ?b] =>
      first [rewrite (proj2 (N.leb_le a b)) by lia
            | rewrite (proj2 (N.leb_gt a b)) by lia]
  | |- context [N.eqb ?a ?b] =>
      first [rewrite (proj2 (N.eqb_eq a b)) by lia
            | rewrite (proj2 (N.eqb_neq a b)) by lia]
  end.

Lemma DecodeRune_2 b b1 t :
  0xC2 <= bv b < 0xE0 -> 0x80 <= bv b1 <= 0xBF ->
  utf8.DecodeRune (String b (String b1 t)) = (rune_2 b b1, 2%nat).
Proof.
  intros Hb H1. unfold utf8.DecodeRune, utf8.cont, utf8.within, utf8.RuneSelf.
  cbv zeta. btest. reflexivity.
Qed.

Lemma DecodeRune_3 b b1 b2 t :
  0xE0 <= bv b < 0xF0 -> 0x80 <= bv b1 <= 0xBF -> 0x80 <= bv b2 <= 0xBF ->
  (bv b = 0xE0 -> 0xA0 <= bv b1) -> (bv b = 0xED -> bv b1 <= 0x9F) ->
  utf8.DecodeRune (String b (String b1 (String b2 t))) = (rune_3 b b1 b2, 3%nat).
Proof.
  intros Hb H1 H2 HE0 HED.
  unfold utf8.DecodeRune, utf8.cont, utf8.within, utf8.RuneSelf. cbv zeta.
  destruct (N.eqb_spec (bv b) 0xE0) as [E|E];
    destruct (N.eqb_spec (bv b) 0xED) as [D|D];
    try specialize (HE0 E); try specialize (HED D);
    try (exfalso; lia); btest; reflexivity.
Qed.

Lemma DecodeRune_4 b b1 b2 b3 t :
  0xF0 <= bv b <= 0xF4 -> 0x80 <= bv b1 <= 0xBF -> 0x80 <= bv b2 <= 0xBF ->
  0x80 <= bv b3 <= 0xBF ->
  (bv b = 0xF0 -> 0x90 <= bv b1) -> (bv b = 0xF4 -> bv b1 <= 0x8F) ->
  utf8.DecodeRune (String b (String b1 (String b2 (String b3 t))))
  = (rune_4 b b1 b2 b3, 4%nat).
Proof.
  intros Hb H1 H2 H3 HF0 HF4.
  unfold utf8.DecodeRune, utf8.cont, utf8.within, utf8.RuneSelf. cbv zeta.
  destruct (N.eqb_spec (bv b) 0xF0) as [E|E];
    destruct (N.eqb_spec (bv b) 0xF4) as [D|D];
    try specialize (HF0 E); try specialize (HF4 D);
    try (exfalso; lia); btest; reflexivity.
Qed.

Lemma EncodeRune_2 b b1 :
  0xC2 <= bv b < 0xE0 -> 0x80 <= bv b1 <= 0xBF ->
  utf8.EncodeRune (rune_2 b b1) = String b (String b1 EmptyString).
Proof.
  intros Hb H1. destruct (rune2 (bv b) (bv b1) Hb H1) as (Hc & E0 & E1).
  fold (rune_2 b b1) in *. unfold utf8.EncodeRune. btest.
  rewrite E0, E1, !mk_bv. reflexivity.
Qed.

Lemma EncodeRune_3 b b1 b2 :
  0xE0 <= bv b < 0xF0 -> 0x80 <= bv b1 <= 0xBF -> 0x80 <= bv b2 <= 0xBF ->
  (bv b = 0xE0 -> 0xA0 <= bv b1) -> (bv b = 0xED -> bv b1 <= 0x9F) ->
  utf8.EncodeRune (rune_3 b b1 b2) = String b (String b1 (String b2 EmptyString)).
Proof.
  intros Hb H1 H2 HE0 HED.
  destruct (rune3 (bv b) (bv b1) (bv b2) Hb H1 H2 HE0 HED) as (Hc & Hs & E0 & E1 & E2).
  fold (rune_3 b b1 b2) in *. unfold utf8.EncodeRune, utf8.MaxRune. btest.
  replace ((0xD800 <=? rune_3 b b1 b2) && (rune_3 b b1 b2 <=? 0xDFFF)) with false.
  2:{ symmetry. apply andb_false_iff.
      rewrite N.leb_gt, N.leb_gt. lia. }
  cbn [orb]. cbv zeta. btest.
  rewrite E0, E1, E2, !mk_bv. reflexivity.
Qed.

Lemma EncodeRune_4 b b1 b2 b3 :
  0xF0 <= bv b <= 0xF4 -> 0x80 <= bv b1 <= 0xBF -> 0x80 <= bv b2 <= 0xBF ->
  0x80 <= bv b3 <= 0xBF ->
  (bv b = 0xF0 -> 0x90 <= bv b1) -> (bv b = 0xF4 -> bv b1 <= 0x8F) ->
  utf8.EncodeRune (rune_4 b b1 b2 b3)
  = String b (String b1 (String b2 (String b3 EmptyString))).
Proof.
  intros Hb H1 H2 H3 HF0 HF4.
  destruct (rune4 (bv b) (bv b1) (bv b2) (bv b3) Hb H1 H2 H3 HF0 HF4)
    as (Hc & E0 & E1 & E2 & E3).
  fold (rune_4 b b1 b2 b3) in *. unfold utf8.EncodeRune, utf8.MaxRune. btest.
  cbn [orb andb]. cbv zeta. btest.
  rewrite E0, E1, E2, E3, !mk_bv. reflexivity.
Qed.


Lemma append_assoc_s (a b c : string) : ((a ++ b) ++ c = a ++ (b ++ c))%string.
Proof. induction a; simpl; congruence. Qed.

Lemma append_nil_r_s (a : string) : (a ++ EmptyString)%string = a.
Proof. induction a; simpl; congruence. Qed.

Lemma bv_ge_128 (a0 a1 a2 a3 a4 a5 a6 : bool) :
  ~ bv (Ascii a0 a1 a2 a3 a4 a5 a6 true) < 0x80.
Proof. destruct a0, a1, a2, a3, a4, a5, a6; vm_compute; discriminate. Qed.

(** The scanner steps over what [escapeByte] writes. *)
Lemma lex_escapeByte (b : byte) (raw : string) (acc : list token) (r : string) :
  bv b < 0x80 ->
  lexFrom (MStr raw) acc (escapeByte b ++ r) = lexFrom (MStr (raw ++ escapeByte b)) acc r.
Proof.
  destruct b as [a0 a1 a2 a3 a4 a5 a6 [|]]; intros H.
  - exfalso. exact (bv_ge_128 _ _ _ _ _ _ _ H).
  - clear H. destruct a0, a1, a2, a3, a4, a5, a6; cbn;
      unfold snoc; rewrite ?app_nil_r, ?append_assoc_s; reflexivity.
Qed.

Lemma unquote_escapeByte (b : byte) (r : string) :
  bv b < 0x80 ->
  unquoteBody (escapeByte b ++ r) = cons_opt (String b EmptyString) (unquoteBody r).
Proof.
  destruct b as [a0 a1 a2 a3 a4 a5 a6 [|]]; intros H.
  - exfalso. exact (bv_ge_128 _ _ _ _ _ _ _ H).
  - clear H. destruct a0, a1, a2, a3, a4, a5, a6; reflexivity.
Qed.

Lemma lex_high (c : byte) (raw : string) (acc : list token) (r : string) :
  0x80 <= bv c ->
  lexFrom (MStr raw) acc (String c r)
  = lexFrom (MStr (raw ++ String c EmptyString)) acc r.
Proof.
  intros H. cbn [lexFrom step]. cbv zeta. btest. rewrite app_nil_r. reflexivity.
Qed.

Lemma lex_u202 (h : byte) (raw : string) (acc : list token) (r : string) :
  unhex h <> None ->
  lexFrom (MStr raw) acc
    (String backslash (String "u" (String "2" (String "0" (String "2" (String h r))))))
  = lexFrom (MStr (raw ++ String backslash ("u202" ++ String h EmptyString))) acc r.
Proof.
  intros H. cbn. destruct (unhex h); [|congruence].
  unfold snoc. rewrite ?app_nil_r, ?append_assoc_s. reflexivity.
Qed.

Lemma appendStringBody_1 b t :
  bv b < 0x80 -> appendStringBody (String b t) = (escapeByte b ++ appendStringBody t)%string.
Proof. intros H. cbn [appendStringBody]. unfold utf8.RuneSelf. btest. reflexivity. Qed.

Lemma appendStringBody_2 b b1 t :
  0xC2 <= bv b < 0xE0 -> 0x80 <= bv b1 <= 0xBF ->
  appendStringBody (String b (String b1 t)) = String b (String b1 (appendStringBody t)).
Proof.
  intros Hb H1. cbn [appendStringBody]. rewrite DecodeRune_2 by assumption.
  destruct (rune2 _ _ Hb H1) as (Hc & _). fold (rune_2 b b1) in Hc.
  unfold utf8.RuneSelf, utf8.RuneError. btest. reflexivity.
Qed.

Lemma appendStringBody_4 b b1 b2 b3 t :
  0xF0 <= bv b <= 0xF4 -> 0x80 <= bv b1 <= 0xBF -> 0x80 <= bv b2 <= 0xBF ->
  0x80 <= bv b3 <= 0xBF ->
  (bv b = 0xF0 -> 0x90 <= bv b1) -> (bv b = 0xF4 -> bv b1 <= 0x8F) ->
  appendStringBody (String b (String b1 (String b2 (String b3 t))))
  = String b (String b1 (String b2 (String b3 (appendStringBody t)))).
Proof.
  intros Hb H1 H2 H3 HF0 HF4. cbn [appendStringBody].
  rewrite DecodeRune_4 by assumption.
  destruct (rune4 _ _ _ _ Hb H1 H2 H3 HF0 HF4) as (Hc & _).
  fold (rune_4 b b1 b2 b3) in Hc.
  unfold utf8.RuneSelf, utf8.RuneError. btest. reflexivity.
Qed.

Lemma appendStringBody_3 b b1 b2 t :
  0xE0 <= bv b < 0xF0 -> 0x80 <= bv b1 <= 0xBF -> 0x80 <= bv b2 <= 0xBF ->
  (bv b = 0xE0 -> 0xA0 <= bv b1) -> (bv b = 0xED -> bv b1 <= 0x9F) ->
  appendStringBody (String b (String b1 (String b2 t)))
  = if (rune_3 b b1 b2 =? 0x2028) || (rune_3 b b1 b2 =? 0x2029)
    then (String backslash ("u202" ++ String (hexdigit (rune_3 b b1 b2 mod 16))
                                    (appendStringBody t)))%string
    else String b (String b1 (String b2 (appendStringBody t))).
Proof.
  intros Hb H1 H2 HE0 HED. cbn [appendStringBody].
  rewrite DecodeRune_3 by assumption.
  unfold utf8.RuneSelf. btest. cbn [Nat.eqb andb].
  rewrite andb_false_r. reflexivity.
Qed.

Lemma unquoteBody_high c t :
  0x80 <= bv c ->
  unquoteBody (String c t)
  = let '(rr, size) := utf8.DecodeRune (String c t) in
    cons_opt (utf8.EncodeRune rr) (unquoteBody (utf8.advance size t)).
Proof.
  intros H. cbn [unquoteBody]. unfold utf8.RuneSelf. cbv zeta.
  rewrite (proj2 (N.eqb_neq (bv c) 92)) by lia.
  rewrite (proj2 (N.eqb_neq (bv c) 34)) by lia.
  rewrite (proj2 (N.ltb_ge (bv c) 32)) by lia.
  rewrite (proj2 (N.ltb_ge (bv c) 128)) by lia.
  reflexivity.
Qed.

Lemma unquoteBody_u202 (d : N) (r : string) :
  d < 16 ->
  unquoteBody (String backslash ("u202" ++ String (hexdigit d) r))
  = cons_opt (utf8.EncodeRune (0x2020 + d)) (unquoteBody r).
Proof.
  intros H.
  assert (C : d = 0 \/ d = 1 \/ d = 2 \/ d = 3 \/ d = 4 \/ d = 5 \/ d = 6 \/ d = 7
              \/ d = 8 \/ d = 9 \/ d = 10 \/ d = 11 \/ d = 12 \/ d = 13 \/ d = 14
              \/ d = 15) by lia.
  repeat (destruct C as [-> | C]; [reflexivity|]). subst d. reflexivity.
Qed.

Theorem unquote_appendStringBody (s : string) :
  wf8 s -> unquoteBody (appendStringBody s) = Some s.
Proof.
  induction 1 as [|b t Hb _ IH|b b1 t Hb H1 _ IH|b b1 b2 t Hb H1 H2 HE0 HED _ IH
                 |b b1 b2 b3 t Hb H1 H2 H3 HF0 HF4 _ IH].
  - reflexivity.
  - rewrite appendStringBody_1, unquote_escapeByte, IH by assumption. reflexivity.
  - rewrite appendStringBody_2 by assumption.
    rewrite unquoteBody_high, DecodeRune_2, EncodeRune_2 by (assumption || lia).
    cbn [utf8.advance]. rewrite IH. reflexivity.
  - rewrite appendStringBody_3 by assumption.
    destruct (rune3 _ _ _ Hb H1 H2 HE0 HED) as (Hc & _). fold (rune_3 b b1 b2) in Hc.
    pose proof (EncodeRune_3 b b1 b2 Hb H1 H2 HE0 HED) as HE.
    destruct ((rune_3 b b1 b2 =? 0x2028) || (rune_3 b b1 b2 =? 0x2029)) eqn:E.
    + assert (Hr : rune_3 b b1 b2 = 0x2020 + rune_3 b b1 b2 mod 16
                   /\ rune_3 b b1 b2 mod 16 < 16).
      { apply orb_true_iff in E. destruct E as [E|E]; apply N.eqb_eq in E;
          rewrite E; split; reflexivity. }
      destruct Hr as [Hr Hlt].
      rewrite unquoteBody_u202, <- Hr, HE, IH by assumption. reflexivity.
    + rewrite unquoteBody_high, DecodeRune_3, HE by (assumption || lia).
      cbn [utf8.advance]. rewrite IH. reflexivity.
  - rewrite appendStringBody_4 by assumption.
    rewrite unquoteBody_high, DecodeRune_4, EncodeRune_4 by (assumption || lia).
    cbn [utf8.advance]. rewrite IH. reflexivity.
Qed.

Lemma unhex_hexdigit (d : N) : d < 16 -> unhex (hexdigit d) <> None.
Proof.
  intros H.
  assert (C : d = 0 \/ d = 1 \/ d = 2 \/ d = 3 \/ d = 4 \/ d = 5 \/ d = 6 \/ d = 7
              \/ d = 8 \/ d = 9 \/ d = 10 \/ d = 11 \/ d = 12 \/ d = 13 \/ d = 14
              \/ d = 15) by lia.
  repeat (destruct C as [-> | C]; [discriminate|]). subst d. discriminate.
Qed.

Theorem lex_appendStringBody (s : string) :
  wf8 s ->
  forall raw acc r,
    lexFrom (MStr raw) acc (appendStringBody s ++ r)
    = lexFrom (MStr (raw ++ appendStringBody s)) acc r.
Proof.
  induction 1 as [|b t Hb _ IH|b b1 t Hb H1 _ IH|b b1 b2 t Hb H1 H2 HE0 HED _ IH
                 |b b1 b2 b3 t Hb H1 H2 H3 HF0 HF4 _ IH]; intros raw acc r.
  - cbn. rewrite append_nil_r_s. reflexivity.
  - rewrite appendStringBody_1 by assumption.
    rewrite append_assoc_s, lex_escapeByte, IH, append_assoc_s by assumption.
    reflexivity.
  - rewrite appendStringBody_2 by assumption. cbn [append].
    rewrite !lex_high, IH by lia. rewrite !append_assoc_s. reflexivity.
  - rewrite appendStringBody_3 by assumption.
    destruct ((rune_3 b b1 b2 =? 0x2028) || (rune_3 b b1 b2 =? 0x2029)) eqn:E.
    + cbn [append]. rewrite lex_u202, IH.
      * rewrite !append_assoc_s. reflexivity.
      * apply unhex_hexdigit. apply N.mod_lt. discriminate.
    + cbn [append]. rewrite !lex_high, IH by lia. rewrite !append_assoc_s. reflexivity.
  - rewrite appendStringBody_4 by assumption. cbn [append].
    rewrite !lex_high, IH by lia. rewrite !append_assoc_s. reflexivity.
Qed.

Ltac bprop :=
  repeat match goal with
  | H : andb _ _ = true |- _ => apply andb_true_iff in H; destruct H
  | H : andb _ _ = false |- _ => apply andb_false_iff in H
  | H : orb _ _ = true |- _ => apply orb_true_iff in H
  | H : orb _ _ = false |- _ => apply orb_false_iff in H; destruct H
  | H : negb _ = true |- _ => apply negb_true_iff in H
  | H : negb _ = false |- _ => apply negb_false_iff in H
  | H : N.ltb _ _ = true |- _ => apply N.ltb_lt in H
  | H : N.ltb _ _ = false |- _ => apply N.ltb_ge in H
  | H : N.leb _ _ = true |- _ => apply N.leb_le in H
  | H : N.leb _ _ = false |- _ => apply N.leb_gt in H
  | H : N.eqb _ _ = true |- _ => apply N.eqb_eq in H
  | H : N.eqb _ _ = false |- _ => apply N.eqb_neq in H
  end.

Lemma ValidString_wf8_aux (n : nat) :
  forall s, (String.length s <= n)%nat -> utf8.ValidString s = true -> wf8 s.
Proof.
  induction n as [|n IH]; intros s Hlen Hv.
  - destruct s; [constructor | simpl in Hlen; lia].
  - destruct s as [|b t]; [constructor|].
    cbn [utf8.ValidString] in Hv.
    unfold utf8.DecodeRune, utf8.cont, utf8.within, utf8.RuneSelf, utf8.RuneError in Hv.
    cbv zeta in Hv. cbn [String.length] in Hlen.
    destruct (bv b <? 128) eqn:E1.
    { bprop. rewrite (proj2 (N.eqb_neq (bv b) 65533)) in Hv by lia.
      cbn in Hv. apply wf8_1; [assumption | apply IH; [lia | assumption]]. }
    destruct ((bv b <? 194) || (244 <? bv b)) eqn:E2.
    { rewrite N.eqb_refl in Hv. discriminate. }
    destruct (bv b <? 224) eqn:E3.
    { destruct t as [|b1 t]; [rewrite N.eqb_refl in Hv; discriminate|].
      destruct (negb _) eqn:E4 in Hv; [rewrite N.eqb_refl in Hv; discriminate|].
      rewrite andb_false_r in Hv. cbn [utf8.advance] in Hv.
      bprop. apply wf8_2; [lia | lia | apply IH; [cbn [String.length] in Hlen; lia | assumption]]. }
    destruct (bv b <? 240) eqn:E4.
    { destruct t as [|b1 [|b2 t]]; try (rewrite N.eqb_refl in Hv; discriminate).
      destruct (negb _) eqn:E5 in Hv; [rewrite N.eqb_refl in Hv; discriminate|].
      destruct (negb _) eqn:E6 in Hv; [rewrite N.eqb_refl in Hv; discriminate|].
      rewrite andb_false_r in Hv. cbn [utf8.advance] in Hv.
      bprop.
      destruct (N.eqb_spec (bv b) 224), (N.eqb_spec (bv b) 237); apply wf8_3;
        first [ lia
              | apply IH; [cbn [String.length] in Hlen; lia | assumption] ]. }
    destruct t as [|b1 [|b2 [|b3 t]]]; try (rewrite N.eqb_refl in Hv; discriminate).
    destruct (negb _) eqn:E5 in Hv; [rewrite N.eqb_refl in Hv; discriminate|].
    destruct (negb _) eqn:E6 in Hv; [rewrite N.eqb_refl in Hv; discriminate|].
    destruct (negb _) eqn:E7 in Hv; [rewrite N.eqb_refl in Hv; discriminate|].
    rewrite andb_false_r in Hv. cbn [utf8.advance] in Hv.
    bprop.
    destruct (N.eqb_spec (bv b) 240), (N.eqb_spec (bv b) 244); apply wf8_4;
      first [ lia
            | apply IH; [cbn [String.length] in Hlen; lia | assumption] ].
Qed.

Lemma ValidString_wf8 (s : string) : utf8.ValidString s = true -> wf8 s.
Proof. apply (ValidString_wf8_aux (String.length s)). lia. Qed.

(** ** Marshal and Unmarshal *)

Lemma lex_string_literal (s : string) (acc : list token) (r : string) :
  wf8 s ->
  lexFrom MIdle acc (appendString s ++ r) = lexFrom MIdle (acc ++ [TString s]) r.
Proof.
  intros H. unfold appendString. cbn [append lexFrom step].
  change (stepIdle dquote) with (Some (MStr EmptyString, @nil token)).
  cbv beta iota. rewrite append_assoc_s, lex_appendStringBody by assumption.
  cbn [append lexFrom step]. cbv zeta.
  change (bv dquote =? 34) with true. cbv beta iota.
  rewrite unquote_appendStringBody by assumption.
  rewrite app_nil_r. reflexivity.
Qed.

Lemma marshalStrings_2 (n1 s1 n2 s2 : string) :
  marshalStrings [(n1, s1); (n2, s2)]
  = "{" ++ (appendString n1 ++ ":" ++ (appendString s1 ++ "," ++ (appendString n2 ++ ":" ++ (appendString s2 ++ "}")))).
Proof.
  unfold marshalStrings. cbn [marshalMembers].
  rewrite !append_assoc_s. reflexivity.
Qed.

Lemma parse_marshalStrings_2 (n1 s1 n2 s2 : string) :
  wf8 n1 -> wf8 s1 -> wf8 n2 -> wf8 s2 ->
  parse (marshalStrings [(n1, s1); (n2, s2)])
  = Some (Object [(n1, Str s1); (n2, Str s2)]).
Proof.
  intros. rewrite marshalStrings_2. unfold parse, lex.
  cbn [append lexFrom step].
  change (stepIdle "{"%char) with (Some (MIdle, [TLBrace])). cbv beta iota.
  rewrite lex_string_literal by assumption.
  cbn [append lexFrom step].
  change (stepIdle ":"%char) with (Some (MIdle, [TColon])). cbv beta iota.
  rewrite lex_string_literal by assumption.
  cbn [append lexFrom step].
  change (stepIdle ","%char) with (Some (MIdle, [TComma])). cbv beta iota.
  rewrite lex_string_literal by assumption.
  cbn [append lexFrom step].
  change (stepIdle ":"%char) with (Some (MIdle, [TColon])). cbv beta iota.
  rewrite lex_string_literal by assumption.
  cbn [append lexFrom step].
  change (stepIdle "}"%char) with (Some (MIdle, [TRBrace])). cbv beta iota.
  reflexivity.
Qed.


Lemma Credentials_of_value (c : credentials.Credentials) :
  credentials.Credentials_of (credentials.Credentials_value c) = c.
Proof. destruct c; reflexivity. Qed.

Lemma Unmarshal_Marshal (c : credentials.Credentials) :
  wf8 (credentials.Token c) -> wf8 (credentials.TokenId c) ->
  exists bytes, credentials.Marshal c = Ok bytes /\
    Unmarshal bytes credentials.Credentials_kind (zero credentials.Credentials_kind)
    = Ok (credentials.Credentials_value c).
Proof.
  intros Ht Hi. eexists; split; [reflexivity|].
  unfold Unmarshal. rewrite parse_marshalStrings_2; try assumption.
  - reflexivity.
  - apply ValidString_wf8. reflexivity.
  - apply ValidString_wf8. reflexivity.
Qed.

(** ** The credential store *)

Lemma save_load_bytes (bytes : string) (fs : credentials.FS) :
  forall p fs1 fs2,
    credentials.wf fs = true -> readable_files fs = true ->
    credentials.ConfigFile fs = (Ok p, fs1) ->
    credentials.WriteFile p bytes fs1 = (None, fs2) ->
    credentials.SearchConfigFile fs2 = Ok p /\ credentials.ReadFile p fs2 = Ok bytes.
Proof.
  induction fs as [|d fs IH]; intros p fs1 fs2 Hwf Hrd Hc Hw.
  - discriminate.
  - cbn [credentials.wf forallb] in Hwf. apply andb_true_iff in Hwf.
    destruct Hwf as [Hd Hwf]. cbn [readable_files forallb] in Hrd.
    apply andb_true_iff in Hrd. destruct Hrd as [Hr Hrd].
    unfold credentials.wf_dir in Hd. cbn [credentials.ConfigFile] in Hc.
    destruct (credentials.present d) eqn:Hp.
    + injection Hc as <- <-. cbn [credentials.WriteFile] in Hw.
      unfold credentials.writeDir in Hw. rewrite Hp in Hw.
      destruct (credentials.entry d) as [f|] eqn:He.
      * destruct (credentials.writable f); [|discriminate].
        injection Hw as <-. cbn. rewrite Hr. split; reflexivity.
      * cbn [andb] in Hw. destruct (credentials.createOk d); [|discriminate].
        injection Hw as <-. cbn. split; reflexivity.
    + destruct (credentials.entry d) as [f|] eqn:He; [discriminate|].
      destruct (credentials.mkdirOk d) eqn:Hm.
      * injection Hc as <- <-. cbn [credentials.WriteFile] in Hw.
        unfold credentials.writeDir in Hw. cbn in Hw. try rewrite He in Hw.
        destruct (credentials.createOk d); [|discriminate].
        injection Hw as <-. cbn. split; reflexivity.
      * destruct (credentials.ConfigFile fs) as [r fs''] eqn:Hcf.
        destruct r as [i|e]; [|discriminate].
        injection Hc as <- <-. cbn [credentials.WriteFile] in Hw.
        destruct (credentials.WriteFile i bytes fs'') as [e fs3] eqn:Hwf3.
        injection Hw as -> <-.
        destruct (IH i fs'' fs3 Hwf Hrd eq_refl Hwf3) as [Hs Hrf].
        cbn [credentials.SearchConfigFile]. rewrite He, Hs.
        split; [reflexivity|]. exact Hrf.
Qed.

(** Claim C1, as amended.  For every credential record whose two fields
    are valid UTF-8 strings, on a file system where every credentials file
    lies in a directory that exists and can be read: when [Save] of the
    record succeeds, [Load] returns the record, equal in both fields. *)
Theorem Save_Load_roundtrip (c : credentials.Credentials) (fs fs' : credentials.FS) :
  utf8.ValidString (credentials.Token c) = true ->
  utf8.ValidString (credentials.TokenId c) = true ->
  credentials.wf fs = true -> readable_files fs = true ->
  credentials.Save c fs = (None, fs') ->
  credentials.Load fs' = Ok c.
Proof.
  intros Ht Hi Hwf Hrd Hs.
  destruct (Unmarshal_Marshal c (ValidString_wf8 _ Ht) (ValidString_wf8 _ Hi))
    as (bytes & Hm & Hu).
  unfold credentials.Save in Hs. rewrite Hm in Hs.
  destruct (credentials.ConfigFile fs) as [[p|e] fs1] eqn:Hc; [|discriminate].
  destruct (save_load_bytes bytes fs p fs1 fs' Hwf Hrd Hc Hs) as [Hsearch Hread].
  unfold credentials.Load. rewrite Hsearch, Hread, Hu, Credentials_of_value.
  reflexivity.
Qed.

(** Claim C1, a witness: a record saved under a configuration directory
    that does not exist yet, and loaded again. *)
Lemma Save_Load_roundtrip_witness :
  credentials.Load
    (snd (credentials.Save {| credentials.Token := "abc<>"; credentials.TokenId := "def" |}
            [freshDir]))
  = Ok {| credentials.Token := "abc<>"; credentials.TokenId := "def" |}.
Proof.
  apply (Save_Load_roundtrip _ [freshDir]); reflexivity.
Defined.

(** Claim C1 as stated, for all pairs of strings that are not empty, fails
    on the record whose token is the single byte 0xFF, which is not valid
    UTF-8: [Marshal] writes the escape of U+FFFD for it, and [Load] returns
    the three bytes that encode U+FFFD. *)
Lemma Save_Load_invalid_utf8 :
  ~ (forall (c : credentials.Credentials) (fs fs' : credentials.FS),
        credentials.Token c <> EmptyString ->
        credentials.TokenId c <> EmptyString ->
        credentials.wf fs = true -> readable_files fs = true ->
        credentials.Save c fs = (None, fs') ->
        credentials.Load fs' = Ok c).
Proof.
  intros H.
  pose (c := {| credentials.Token := String (mk 255) EmptyString;
                credentials.TokenId := "def" |}).
  specialize (H c [freshDir] (snd (credentials.Save c [freshDir]))).
  assert (E : credentials.Load (snd (credentials.Save c [freshDir]))
              = Ok {| credentials.Token :=
                        String (mk 0xEF) (String (mk 0xBF) (String (mk 0xBD) EmptyString));
                      credentials.TokenId := "def" |}) by (vm_compute; reflexivity).
  rewrite H in E; try discriminate; reflexivity.
Qed.

(** ** Addresses and requests *)

Lemma Cut_prefix (c : byte) (t : string) (sep : byte) :
  Ascii.eqb c sep = false ->
  Cut (String c t) sep = let '(b, a, f) := Cut t sep in (String c b, a, f).
Proof. intros H. cbn [Cut]. rewrite H. reflexivity. Qed.

Lemma Cut_hit (c : byte) (t : string) (sep : byte) :
  Ascii.eqb c sep = true -> Cut (String c t) sep = (EmptyString, t, true).
Proof. intros H. cbn [Cut]. rewrite H. reflexivity. Qed.

Lemma CTL_prefix (c : byte) (t : string) :
  ((bv c <? 32) || (bv c =? 127)) = false ->
  url.stringContainsCTLByte (String c t) = url.stringContainsCTLByte t.
Proof. intros H. cbn [url.stringContainsCTLByte]. rewrite H. reflexivity. Qed.

Lemma unescape_prefix (c : byte) (t : string) :
  (bv c =? 37) = false ->
  url.unescape (String c t)
  = match url.unescape t with Ok r => Ok (String c r) | Err e => Err e end.
Proof. intros H. cbn [url.unescape]. rewrite H. reflexivity. Qed.

Lemma getScheme_https (t : string) :
  url.getScheme (String "h" (String "t" (String "t" (String "p" (String "s" (String ":" t))))))
  = Ok ("https", t).
Proof. reflexivity. Qed.

Lemma Parse_problem_url (problemID : string) :
  url.Parse (base ++ "/api/problems/" ++ problemID) = problemURL problemID.
Proof.
  unfold url.Parse, problemURL, base. cbn [append].
  rewrite !Cut_prefix by reflexivity.
  destruct (Cut problemID "#"%char) as [[u frag] f]. cbv beta iota zeta.
  rewrite !CTL_prefix by reflexivity.
  destruct (url.stringContainsCTLByte u); [reflexivity|].
  rewrite getScheme_https. cbv beta iota.
  rewrite !Cut_prefix by reflexivity.
  destruct (Cut u "?"%char) as [[p query] f']. cbv beta iota zeta.
  rewrite !Cut_prefix by reflexivity. rewrite Cut_hit by reflexivity.
  cbv beta iota zeta.
  rewrite !unescape_prefix by reflexivity.
  destruct (url.unescape p); reflexivity.
Qed.

Lemma Do_run (c : api.Client) (req : http.Request) (w : World) :
  api.Do c req w =
  let tr1 := logged w (EvRequest (attach req (api.jar c))) in
  match script w with
  | [] => ((Err (TransportError "no response"), c), {| script := []; trace := tr1 |})
  | RTError msg :: rest =>
    ((Err (TransportError msg), c), {| script := rest; trace := tr1 |})
  | RTResponse resp :: rest =>
    ((Ok resp,
      api.withJar c (http.SetCookies (http.URL req) (http.SetCookie resp) (api.jar c))),
     {| script := rest; trace := tr1 |})
  end.
Proof.
  unfold api.Do, bind, emit, roundTrip, ret, logged, attach. cbn [script trace].
  destruct (script w) as [|[msg|resp] rest]; reflexivity.
Qed.

Lemma GetProblem_invalid (c : api.Client) (problemID : string) (w : World) (e : error) :
  api.baseURL c = base -> problemURL problemID = Err e ->
  api.GetProblem c problemID w = ((Err e, c), w).
Proof.
  intros Hb Hu. unfold api.GetProblem, http.NewRequest.
  rewrite Hb, Parse_problem_url, Hu. reflexivity.
Qed.

Lemma GetProblem_run (c : api.Client) (problemID : string) (u : url.URL) (w : World) :
  api.baseURL c = base -> problemURL problemID = Ok u ->
  api.GetProblem c problemID w =
  let tr1 := logged w (EvRequest (attach (problemRequest u) (api.jar c))) in
  match script w with
  | [] => ((Err (TransportError "no response"), c), {| script := []; trace := tr1 |})
  | RTError msg :: rest =>
    ((Err (TransportError msg), c), {| script := rest; trace := tr1 |})
  | RTResponse resp :: rest =>
    ((fetchVerdict resp,
      api.withJar c (http.SetCookies u (http.SetCookie resp) (api.jar c))),
     {| script := rest;
        trace := if Z.eqb (http.StatusCode resp) 200
                 then (tr1 ++ [EvReadBody])%list else tr1 |})
  end.
Proof.
  intros Hb Hu. unfold api.GetProblem, http.NewRequest.
  rewrite Hb, Parse_problem_url, Hu. cbv beta iota.
  unfold bind. rewrite Do_run. cbv zeta.
  change (http.HeaderSet "User-Agent" "syojctl/1.0" ?r) with (problemRequest u).
  destruct (script w) as [|[msg|resp] rest]; try reflexivity.
  cbn [http.URL problemRequest]. unfold fetchVerdict, http.StatusOK.
  destruct (Z.eqb (http.StatusCode resp) 200); cbn [negb]; [|reflexivity].
  unfold ReadAll, bind, emit, ret, logged. cbn [script trace].
  destruct (http.RespBody resp) as [body|e]; [|reflexivity].
  destruct (Unmarshal body api.Problem_kind (zero api.Problem_kind)); reflexivity.
Qed.

Lemma Login_run (c : api.Client) (email password : string) (w : World) :
  api.baseURL c = base ->
  api.Login c email password w =
  let tr1 := logged w (EvRequest (attach (loginRequest email password) (api.jar c))) in
  match script w with
  | [] => ((Err (TransportError "no response"), c), {| script := []; trace := tr1 |})
  | RTError msg :: rest =>
    ((Err (TransportError msg), c), {| script := rest; trace := tr1 |})
  | RTResponse resp :: rest =>
    let jar' := http.SetCookies loginURL (http.SetCookie resp) (api.jar c) in
    ((loginVerdict (http.StatusCode resp) (http.RespBody resp) jar', api.withJar c jar'),
     {| script := rest; trace := (tr1 ++ [EvReadBody])%list |})
  end.
Proof.
  intros Hb. unfold api.Login. rewrite Hb. cbn [api.MarshalLoginRequest].
  change (http.NewRequest "POST" (base ++ "/api/login") ?b)
    with (Ok {| http.Method := "POST"; http.URL := loginURL; http.Header := [];
                http.Cookies := []; http.Body := b |}).
  cbv beta iota zeta. unfold bind. rewrite Do_run. cbv zeta.
  change (http.HeaderSet "User-Agent" "syojctl/1.0" ?r) with (loginRequest email password).
  destruct (script w) as [|[msg|resp] rest]; try reflexivity.
  cbn [http.URL loginRequest].
  unfold ReadAll, bind, emit, ret, logged, loginVerdict. cbn [script trace].
  destruct (http.RespBody resp) as [body|e]; [|reflexivity].
  destruct (Unmarshal body api.LoginResponse_kind (zero api.LoginResponse_kind)) as [v|e];
    [|reflexivity].
  unfold api.parsedBase. cbn [api.withJar api.baseURL api.jar]. rewrite Hb.
  change (url.Parse base) with (Ok baseAddress). cbv beta iota.
  unfold http.StatusOK, successMessage.
  destruct (_ && _); reflexivity.
Qed.

Lemma Login_response (c : api.Client) (email password : string)
    (resp : http.Response) (rest : list RoundTrip) (tr : list Event) :
  api.baseURL c = base ->
  let jar' := http.SetCookies loginURL (http.SetCookie resp) (api.jar c) in
  fst (api.Login c email password {| script := RTResponse resp :: rest; trace := tr |})
  = (loginVerdict (http.StatusCode resp) (http.RespBody resp) jar', api.withJar c jar').
Proof. intros Hb. rewrite (Login_run c email password _ Hb). reflexivity. Qed.

(** ** GetProblem: the status and the address *)

(** Claim C6.  For every response to [GetProblem] whose status is not 200,
    the call returns the error "failed to fetch problem with status
    <status>", and the request is the only event it adds to the trace: the
    body is not read.  For the status 404 the error is "failed to fetch
    problem with status 404". *)
Theorem GetProblem_non200 (c : api.Client) (problemID : string) (u : url.URL)
    (resp : http.Response) (rest : list RoundTrip) (tr : list Event) :
  api.baseURL c = "https://syoj.org" ->
  url.Parse ("https://syoj.org" ++ "/api/problems/" ++ problemID) = Ok u ->
  http.StatusCode resp <> 200%Z ->
  (exists c' sent,
      api.GetProblem c problemID {| script := RTResponse resp :: rest; trace := tr |}
      = ((Err (Errorf ("failed to fetch problem with status "
                       ++ itoa (http.StatusCode resp))), c'),
         {| script := rest; trace := (tr ++ [EvRequest sent])%list |}))
  /\ (http.StatusCode resp = 404%Z ->
      fst (fst (api.GetProblem c problemID
                  {| script := RTResponse resp :: rest; trace := tr |}))
      = Err (Errorf "failed to fetch problem with status 404")).
Proof.
  intros Hb Hu Hs. fold base in Hb, Hu. rewrite Parse_problem_url in Hu.
  rewrite (GetProblem_run c problemID u _ Hb Hu). cbn [script trace].
  unfold fetchVerdict, logged. cbn [trace].
  rewrite (proj2 (Z.eqb_neq _ _) Hs). cbn [negb]. split.
  - eexists. eexists. reflexivity.
  - intros ->. reflexivity.
Qed.

(** Claim C6, a witness: a response of status 404. *)
Lemma GetProblem_non200_witness :
  fst (fst (api.GetProblem seededClient "I001"
              {| script := [RTResponse notFound]; trace := [] |}))
  = Err (Errorf "failed to fetch problem with status 404").
Proof.
  refine (proj2 (GetProblem_non200 seededClient "I001" _ notFound [] []
                   eq_refl eq_refl _) eq_refl).
  discriminate.
Defined.

(** Claim C10.  For every problem identifier, the address of the request
    of [GetProblem] is the parse of the base address followed by
    [/api/problems/] and the identifier as it is written: what follows the
    first [#] of the identifier is the fragment, what lies between its first
    [?] and that is the query, and what comes before ends the path.  When
    that text does not parse, the call returns the error of
    [http.NewRequest] and sends nothing. *)
Theorem GetProblem_url_verbatim (c : api.Client) (problemID : string) (w : World) :
  api.baseURL c = "https://syoj.org" ->
  let beforeFragment := fst (fst (Cut problemID "#"%char)) in
  let fragment := snd (fst (Cut problemID "#"%char)) in
  let pathEnd := fst (fst (Cut beforeFragment "?"%char)) in
  let query := snd (fst (Cut beforeFragment "?"%char)) in
  match url.Parse ("https://syoj.org" ++ "/api/problems/" ++ problemID) with
  | Err e => api.GetProblem c problemID w = ((Err e, c), w)
  | Ok u =>
    (exists sent more,
        trace (snd (api.GetProblem c problemID w))
        = (trace w ++ EvRequest sent :: more)%list
        /\ http.URL sent = u)
    /\ url.RawQuery u = query
    /\ (exists path, url.unescape pathEnd = Ok path
                     /\ url.Path u = "/api/problems/" ++ path)
    /\ url.unescape fragment = Ok (url.Fragment u)
  end.
Proof.
  intros Hb. fold base in Hb |- *. cbv zeta. rewrite Parse_problem_url.
  destruct (problemURL problemID) as [u|e] eqn:Hu.
  - split.
    + rewrite (GetProblem_run c problemID u w Hb Hu). cbv zeta. unfold logged.
      destruct (script w) as [|[msg|resp] rest]; cbn [snd trace].
      * exists (attach (problemRequest u) (api.jar c)), []. split; reflexivity.
      * exists (attach (problemRequest u) (api.jar c)), []. split; reflexivity.
      * destruct (Z.eqb (http.StatusCode resp) 200).
        -- exists (attach (problemRequest u) (api.jar c)), [EvReadBody].
           rewrite <- app_assoc. split; reflexivity.
        -- exists (attach (problemRequest u) (api.jar c)), []. split; reflexivity.
    + unfold problemURL in Hu.
      destruct (Cut problemID "#"%char) as [[a frag] f]. cbn [fst snd].
      destruct (url.stringContainsCTLByte a); [discriminate|].
      destruct (Cut a "?"%char) as [[p q] f']. cbn [fst snd].
      destruct (url.unescape p) as [path|]; [|discriminate].
      destruct (url.unescape frag) as [fragment|]; [|discriminate].
      injection Hu as <-. cbn. repeat split. exists path. split; reflexivity.
  - apply GetProblem_invalid; assumption.
Qed.

(** Claim C10, a witness: an identifier with two slashes, a question mark
    and a hash. *)
Lemma GetProblem_url_verbatim_witness :
  exists u, url.Parse ("https://syoj.org" ++ "/api/problems/" ++ "I001/../x?lang=en#top") = Ok u
       /\ url.Path u = "/api/problems/I001/../x"
       /\ url.RawQuery u = "lang=en"
       /\ url.Fragment u = "top".
Proof.
  pose proof (GetProblem_url_verbatim seededClient "I001/../x?lang=en#top"
                {| script := []; trace := [] |} eq_refl) as H.
  cbv zeta in H.
  destruct (url.Parse ("https://syoj.org" ++ "/api/problems/" ++ "I001/../x?lang=en#top"))
    as [u|e] eqn:E; [|discriminate E].
  exists u. destruct H as (_ & Hq & (path & Hp & Hpath) & Hf).
  injection Hp as <-. injection Hf as Hf.
  repeat split; [exact Hpath | exact Hq | symmetry; exact Hf].
Defined.

(** ** Login *)



Lemma find_app_s {A} (f : A -> bool) (l1 l2 : list A) :
  find f (l1 ++ l2) = match find f l1 with Some x => Some x | None => find f l2 end.
Proof. induction l1 as [|a l1 IH]; cbn; [reflexivity|]. destruct (f a); auto. Qed.

Lemma extractCookies_fold (cookies : list http.Cookie) (acc : api.Credentials) :
  fold_left
    (fun creds cookie =>
       if String.eqb (http.Name cookie) "Token"
       then {| api.Token := http.Value cookie; api.TokenId := api.TokenId creds |}
       else if String.eqb (http.Name cookie) "TokenId"
       then {| api.Token := api.Token creds; api.TokenId := http.Value cookie |}
       else creds)
    cookies acc
  = {| api.Token :=
         match find (fun ck => String.eqb (http.Name ck) "Token") (rev cookies) with
         | Some ck => http.Value ck
         | None => api.Token acc
         end;
       api.TokenId :=
         match find (fun ck => String.eqb (http.Name ck) "TokenId") (rev cookies) with
         | Some ck => http.Value ck
         | None => api.TokenId acc
         end |}.
Proof.
  revert acc. induction cookies as [|ck cookies IH]; intros acc.
  - destruct acc; reflexivity.
  - cbn [fold_left rev]. rewrite IH, !find_app_s. cbn [find].
    destruct (String.eqb_spec (http.Name ck) "Token") as [E|E].
    + rewrite E. cbn.
      destruct (find _ (rev cookies)); destruct (find _ (rev cookies)); reflexivity.
    + destruct (String.eqb_spec (http.Name ck) "TokenId") as [E'|E'].
      * cbn. destruct (find _ (rev cookies)); destruct (find _ (rev cookies)); reflexivity.
      * destruct (find _ (rev cookies)); destruct (find _ (rev cookies)); reflexivity.
Qed.

Lemma extractCookies_spec (cookies : list http.Cookie) :
  api.extractCookies cookies
  = {| api.Token := cookieValue "Token" cookies;
       api.TokenId := cookieValue "TokenId" cookies |}.
Proof. unfold api.extractCookies. rewrite extractCookies_fold. reflexivity. Qed.

Lemma cookieValue_absent (name : string) (cookies : list http.Cookie) :
  (forall ck, In ck cookies -> http.Name ck <> name) ->
  cookieValue name cookies = EmptyString.
Proof.
  intros H. unfold cookieValue.
  destruct (find _ (rev cookies)) as [ck|] eqn:E; [|reflexivity].
  apply find_some in E. destruct E as [Hin Hn].
  apply in_rev in Hin. apply String.eqb_eq in Hn. destruct (H ck Hin Hn).
Qed.

Lemma In_store (e c : http.Cookie) (jar : http.Jar) :
  In e (http.store c jar) -> e = c \/ In e jar.
Proof.
  induction jar as [|x jar IH]; cbn [http.store].
  - intros [<-|[]]. left; reflexivity.
  - destruct (http.sameId x c).
    + intros [<-|H]; [left; reflexivity | right; right; exact H].
    + intros [<-|H]; [right; left; reflexivity|].
      destruct (IH H) as [->|H']; [left; reflexivity | right; right; exact H'].
Qed.

Lemma In_SetCookies (u : url.URL) (cookies : list http.Cookie) :
  forall (jar : http.Jar) (e : http.Cookie),
    In e (http.SetCookies u cookies jar) ->
    In e jar \/ exists ck, In ck cookies /\ http.Name e = http.Name ck
                           /\ http.Value e = http.Value ck.
Proof.
  unfold http.SetCookies. induction cookies as [|ck cookies IH]; intros jar e H.
  - left. exact H.
  - cbn [fold_left] in H. destruct (IH _ _ H) as [H'|(ck' & Hin & Hn & Hv)].
    + apply In_store in H'. destruct H' as [->|H'].
      * right. exists ck. cbn. repeat split. left; reflexivity.
      * left. exact H'.
    + right. exists ck'. repeat split; try assumption. right; exact Hin.
Qed.

Lemma In_insertByPath (e c : http.Cookie) (l : list http.Cookie) :
  In e (http.insertByPath c l) -> e = c \/ In e l.
Proof.
  induction l as [|x l IH]; cbn [http.insertByPath].
  - intros [<-|[]]. left; reflexivity.
  - destruct (Nat.ltb _ _).
    + intros [<-|H]; [left; reflexivity | right; exact H].
    + intros [<-|H]; [right; left; reflexivity|].
      destruct (IH H) as [->|H']; [left; reflexivity | right; right; exact H'].
Qed.

Lemma In_sorted (l : list http.Cookie) :
  forall acc e, In e (fold_left (fun l e => http.insertByPath e l) l acc) ->
                In e l \/ In e acc.
Proof.
  induction l as [|x l IH]; intros acc e H; cbn [fold_left] in H.
  - right. exact H.
  - destruct (IH _ _ H) as [H'|H'].
    + left. right. exact H'.
    + apply In_insertByPath in H'. destruct H' as [->|H'].
      * left. left. reflexivity.
      * right. exact H'.
Qed.

Lemma In_JarCookies (u : url.URL) (jar : http.Jar) (ck : http.Cookie) :
  In ck (http.JarCookies u jar) ->
  exists e, In e jar /\ http.Name e = http.Name ck /\ http.Value e = http.Value ck.
Proof.
  unfold http.JarCookies. intros H. apply in_map_iff in H.
  destruct H as (e & <- & Hin). apply In_sorted in Hin.
  destruct Hin as [Hin|[]]. apply filter_In in Hin. destruct Hin as [Hin _].
  exists e. repeat split. exact Hin.
Qed.

(** Claim C5.  For every successful response to [Login], the fields of the
    returned record are the values of the cookies Token and TokenId that the
    jar of the client holds for the base address.  On a client whose jar was
    empty, a field is the empty string when the response set no cookie of
    that name; the call succeeds all the same. *)
Theorem Login_credentials_from_jar (c : api.Client) (email password : string)
    (resp : http.Response) (rest : list RoundTrip) (tr : list Event)
    (body : string) (v : rvalue) :
  api.baseURL c = "https://syoj.org" ->
  http.StatusCode resp = 200%Z ->
  http.RespBody resp = Ok body ->
  Unmarshal body api.LoginResponse_kind (zero api.LoginResponse_kind) = Ok v ->
  api.Message (api.LoginResponse_of v) = "Successfully logged in" ->
  exists creds c' u,
    fst (api.Login c email password {| script := RTResponse resp :: rest; trace := tr |})
    = (Ok creds, c')
    /\ url.Parse (api.baseURL c') = Ok u
    /\ api.Token creds = cookieValue "Token" (http.JarCookies u (api.jar c'))
    /\ api.TokenId creds = cookieValue "TokenId" (http.JarCookies u (api.jar c'))
    /\ (api.jar c = [] ->
        (forall ck, In ck (http.SetCookie resp) -> http.Name ck <> "Token") ->
        api.Token creds = EmptyString)
    /\ (api.jar c = [] ->
        (forall ck, In ck (http.SetCookie resp) -> http.Name ck <> "TokenId") ->
        api.TokenId creds = EmptyString).
Proof.
  intros Hb Hs Hbody Hu Hm.
  rewrite (Login_response c email password resp rest tr Hb). cbv zeta.
  unfold loginVerdict, successMessage. rewrite Hbody, Hu, Hs, Hm. cbn [Z.eqb].
  change (Pos.eqb 200 200 && ("Successfully logged in" =? "Successfully logged in")%string)
    with true. cbv iota.
  set (jar' := http.SetCookies loginURL (http.SetCookie resp) (api.jar c)).
  exists (api.extractCookies (http.JarCookies baseAddress jar')),
         (api.withJar c jar'), baseAddress.
  rewrite extractCookies_spec. cbn [api.Token api.TokenId api.withJar api.baseURL api.jar].
  rewrite Hb. repeat split.
  - intros Hj Hn. apply cookieValue_absent. intros ck Hin Hname.
    apply In_JarCookies in Hin. destruct Hin as (e & Hin & Hne & _).
    subst jar'. rewrite Hj in Hin. apply In_SetCookies in Hin.
    destruct Hin as [[]|(ck' & Hin' & Hn' & _)].
    apply (Hn ck' Hin'). congruence.
  - intros Hj Hn. apply cookieValue_absent. intros ck Hin Hname.
    apply In_JarCookies in Hin. destruct Hin as (e & Hin & Hne & _).
    subst jar'. rewrite Hj in Hin. apply In_SetCookies in Hin.
    destruct Hin as [[]|(ck' & Hin' & Hn' & _)].
    apply (Hn ck' Hin'). congruence.
Qed.

(** Claim C5, a witness: a successful response that sets the cookie Token
    and no cookie TokenId. *)
Lemma Login_credentials_from_jar_witness :
  exists creds c',
    fst (api.Login freshClient "user@example.com" "secret"
           {| script := [RTResponse (loggedIn [ {| http.Name := "Token"; http.Value := "abc";
                                                  http.Path := "/" |} ])];
              trace := [] |})
    = (Ok creds, c')
    /\ api.Token creds = "abc" /\ api.TokenId creds = EmptyString.
Proof.
  destruct (Login_credentials_from_jar freshClient "user@example.com" "secret"
              (loggedIn [ {| http.Name := "Token"; http.Value := "abc"; http.Path := "/" |} ])
              [] [] _ _ eq_refl eq_refl eq_refl eq_refl eq_refl)
    as (creds & c' & u & H & Hu & Ht & _ & _ & Hi).
  exists creds, c'. split; [exact H|]. split.
  - rewrite Ht. injection H as _ <-. injection Hu as <-. reflexivity.
  - apply Hi; [reflexivity|]. intros ck [<-|[]]. discriminate.
Defined.

(** ** The decoder *)

Lemma decode_struct (fields : list (string * kind)) (members : list (string * value))
    (cur : rvalue) :
  decode (KStruct fields) (Object members) cur
  = match decodeMembers (fun test => decodeField decode test fields) members (fieldsOf cur) with
    | Ok vs => Ok (VStruct vs)
    | Err x => Err x
    end.
Proof. reflexivity. Qed.

Lemma decode_slice (e : kind) (elems : list value) (cur : rvalue) :
  decode (KSlice e) (Array elems) cur
  = match decodeElems decode e elems (sliceOf cur) with
    | Ok vs => Ok (VSlice vs)
    | Err x => Err x
    end.
Proof. reflexivity. Qed.

Lemma shaped_struct (fields : list (string * kind)) (vs : list rvalue) :
  shaped (KStruct fields) (VStruct vs) = allShaped shaped fields vs.
Proof. reflexivity. Qed.

Lemma zero_struct (fields : list (string * kind)) :
  zero (KStruct fields) = VStruct (zeros fields).
Proof. reflexivity. Qed.

Lemma shaped_zero (k : kind) : shaped k (zero k) = true.
Proof.
  induction k as [| | |e IH|fields IH] using kind_ind'; try reflexivity.
  rewrite zero_struct, shaped_struct.
  induction IH as [|[name fk] fs Hf _ IHfs]; [reflexivity|].
  cbn [allShaped zeros]. cbn [snd] in Hf. rewrite Hf, IHfs. reflexivity.
Qed.

Lemma decodeElems_exact (e : kind) (He : exact e) (elems : list value) :
  forall cs, forallb (shaped e) cs = true ->
    isOk (decodeElems decode e elems cs) = forallb (conforms e) elems
    /\ (forall vs, decodeElems decode e elems cs = Ok vs -> forallb (shaped e) vs = true).
Proof.
  induction elems as [|j elems IH]; intros cs Hcs.
  - split; [reflexivity|]. intros vs H. injection H as <-. reflexivity.
  - cbn [decodeElems forallb].
    assert (Hc : shaped e (match cs with c :: _ => c | [] => zero e end) = true).
    { destruct cs as [|c cs]; [apply shaped_zero|].
      cbn [forallb] in Hcs. apply andb_true_iff in Hcs. apply Hcs. }
    assert (Ht : forallb (shaped e) (List.tl cs) = true).
    { destruct cs as [|c cs]; [reflexivity|].
      cbn [forallb] in Hcs. apply andb_true_iff in Hcs. apply Hcs. }
    destruct (He j _ Hc) as [Hok Hsh]. destruct (IH _ Ht) as [Hok' Hsh'].
    fold (decodeElems decode e).
    destruct (decode e j _) as [v|x]; cbn [isOk] in Hok; rewrite <- Hok.
    + destruct (decodeElems decode e elems (List.tl cs)) as [vs|x];
        cbn [isOk] in Hok'; rewrite <- Hok'; cbn [andb isOk].
      * split; [reflexivity|]. intros vs' H. injection H as <-.
        cbn [forallb]. rewrite (Hsh v eq_refl), (Hsh' vs eq_refl). reflexivity.
      * split; [reflexivity|]. discriminate.
    + cbn [andb isOk]. split; [reflexivity|]. discriminate.
Qed.

Lemma decodeField_exact (fields : list (string * kind))
    (Hf : Forall (fun f => exact (snd f)) fields) (test : string -> bool) (j : value) :
  forall vs, allShaped shaped fields vs = true ->
    match findKind test fields with
    | None => decodeField decode test fields vs j = None
    | Some fk =>
      exists r, decodeField decode test fields vs j = Some r
                /\ isOk r = conforms fk j
                /\ (forall vs', r = Ok vs' -> allShaped shaped fields vs' = true)
    end.
Proof.
  induction Hf as [|[name fk] fs Hfk _ IH]; intros vs Hvs.
  - reflexivity.
  - destruct vs as [|v vs]; [discriminate|].
    cbn [allShaped] in Hvs. apply andb_true_iff in Hvs. destruct Hvs as [Hv Hvs].
    cbn [findKind decodeField]. fold (decodeField decode test).
    destruct (test name).
    + cbn [snd] in Hfk. destruct (Hfk j v Hv) as [Hok Hsh].
      eexists. split; [reflexivity|].
      destruct (decode fk j v) as [v'|x]; cbn [isOk] in *; split; try assumption.
      * intros vs' H. injection H as <-. cbn [allShaped].
        rewrite (Hsh v' eq_refl), Hvs. reflexivity.
      * discriminate.
    + specialize (IH vs Hvs). destruct (findKind test fs) as [fk'|].
      * destruct IH as (r & -> & Hok & Hsh). destruct r as [vs'|x].
        -- eexists. split; [reflexivity|]. split; [assumption|].
           intros vs'' H. injection H as <-. cbn [allShaped].
           rewrite Hv, (Hsh vs' eq_refl). reflexivity.
        -- eexists. split; [reflexivity|]. split; [assumption|]. discriminate.
      * rewrite IH. reflexivity.
Qed.

Lemma decodeMembers_exact (fields : list (string * kind))
    (Hf : Forall (fun f => exact (snd f)) fields) (members : list (string * value)) :
  forall vs, allShaped shaped fields vs = true ->
    isOk (decodeMembers (fun test => decodeField decode test fields) members vs)
    = forallb (conformsMember fields) members
    /\ (forall vs', decodeMembers (fun test => decodeField decode test fields) members vs
                    = Ok vs' -> allShaped shaped fields vs' = true).
Proof.
  induction members as [|[key j] members IH]; intros vs Hvs.
  - split; [reflexivity|]. intros vs' H. injection H as <-. exact Hvs.
  - cbn [decodeMembers forallb conformsMember]. unfold fieldKind.
    pose proof (decodeField_exact fields Hf (String.eqb key) j vs Hvs) as H1.
    pose proof (decodeField_exact fields Hf
                  (fun name => String.eqb (foldName name) (foldName key)) j vs Hvs) as H2.
    destruct (findKind (String.eqb key) fields) as [fk|].
    + destruct H1 as (r & -> & Hok & Hsh). destruct r as [vs1|x]; cbn [isOk] in Hok.
      * rewrite <- Hok. cbn [andb]. apply IH. apply Hsh. reflexivity.
      * rewrite <- Hok. cbn [andb isOk]. split; [reflexivity|]. discriminate.
    + rewrite H1. destruct (findKind _ fields) as [fk|].
      * destruct H2 as (r & -> & Hok & Hsh). destruct r as [vs1|x]; cbn [isOk] in Hok.
        -- rewrite <- Hok. cbn [andb]. apply IH. apply Hsh. reflexivity.
        -- rewrite <- Hok. cbn [andb isOk]. split; [reflexivity|]. discriminate.
      * rewrite H2. cbn [andb]. apply IH. exact Hvs.
Qed.

Theorem decode_exact (k : kind) : exact k.
Proof.
  induction k as [| | |e IH|fields IH] using kind_ind'; intros j cur Hcur.
  - destruct cur; try discriminate. destruct j; cbn; split; try reflexivity;
      try discriminate; intros v H; injection H as <-; reflexivity.
  - destruct cur; try discriminate. destruct j; cbn; try destruct (ParseInt lit);
      split; try reflexivity; try discriminate; intros v H; injection H as <-; reflexivity.
  - destruct cur; try discriminate. destruct j; cbn; split; try reflexivity;
      try discriminate; intros v H; injection H as <-; reflexivity.
  - destruct cur as [| | |cs|]; try discriminate. cbn [shaped] in Hcur.
    destruct j; try (cbn; split; [reflexivity | discriminate]).
    + cbn. split; [reflexivity|]. intros v H. injection H as <-. reflexivity.
    + rewrite decode_slice. cbn [conforms sliceOf].
      destruct (decodeElems_exact e IH elems cs Hcur) as [Hok Hsh].
      destruct (decodeElems decode e elems cs) as [vs|x]; cbn [isOk] in *.
      * split; [assumption|]. intros v H. injection H as <-. cbn [shaped].
        apply Hsh. reflexivity.
      * split; [assumption|]. discriminate.
  - destruct cur as [| | | |vs]; try discriminate. rewrite shaped_struct in Hcur.
    destruct j; try (cbn; split; [reflexivity | discriminate]).
    + cbn [decode conforms isOk]. split; [reflexivity|]. intros v H. injection H as <-.
      rewrite shaped_struct. exact Hcur.
    + rewrite decode_struct. cbn [conforms fieldsOf].
      destruct (decodeMembers_exact fields IH members vs Hcur) as [Hok Hsh].
      destruct (decodeMembers _ members vs) as [vs'|x]; cbn [isOk] in *.
      * split; [exact Hok|]. intros v H. injection H as <-. rewrite shaped_struct.
        apply Hsh. reflexivity.
      * split; [exact Hok|]. discriminate.
Qed.

Lemma decodeField_frame (test : string -> bool) (j : value) (fields : list (string * kind)) :
  forall vs vs' i,
    decodeField decode test fields vs j = Some (Ok vs') ->
    (forall name fk, nth_error fields i = Some (name, fk) -> test name = false) ->
    nth_error vs' i = nth_error vs i.
Proof.
  induction fields as [|[name fk] fs IH]; intros vs vs' i H Hi.
  - discriminate.
  - destruct vs as [|v vs]; [discriminate|].
    cbn [decodeField] in H. fold (decodeField decode test) in H.
    destruct (test name) eqn:Ht.
    + destruct i as [|i]; [rewrite (Hi name fk eq_refl) in Ht; discriminate|].
      destruct (decode fk j v); [|discriminate]. injection H as <-. reflexivity.
    + destruct (decodeField decode test fs vs j) as [[r|x]|] eqn:E; try discriminate.
      injection H as <-. destruct i as [|i]; [reflexivity|].
      cbn [nth_error]. apply (IH vs r i E). intros n k Hn. apply (Hi n k). exact Hn.
Qed.

Lemma foldName_neq_false (key name : string) :
  foldName key <> foldName name ->
  String.eqb key name = false
  /\ String.eqb (foldName name) (foldName key) = false.
Proof.
  intros H. split; apply String.eqb_neq; congruence.
Qed.

Lemma decodeMembers_frame (fields : list (string * kind)) (i : nat) (name : string)
    (fk : kind) (members : list (string * value)) :
  nth_error fields i = Some (name, fk) ->
  (forall key j, In (key, j) members -> foldName key <> foldName name) ->
  forall vs vs',
    decodeMembers (fun test => decodeField decode test fields) members vs = Ok vs' ->
    nth_error vs' i = nth_error vs i.
Proof.
  intros Hi. induction members as [|[key j] members IH]; intros Habs vs vs' H.
  - injection H as <-. reflexivity.
  - cbn [decodeMembers] in H.
    destruct (foldName_neq_false key name (Habs key j (or_introl eq_refl))) as [E1 E2].
    assert (Habs' : forall key j, In (key, j) members -> foldName key <> foldName name).
    { intros k' j' Hin. apply (Habs k' j'). right. exact Hin. }
    destruct (decodeField decode (String.eqb key) fields vs j) as [[r|x]|] eqn:F1.
    + rewrite (IH Habs' r vs' H).
      apply (decodeField_frame _ _ _ _ _ _ F1). intros n k Hn.
      rewrite Hi in Hn. injection Hn as <- <-. exact E1.
    + discriminate.
    + destruct (decodeField decode
                  (fun name0 => String.eqb (foldName name0) (foldName key)) fields vs j)
        as [[r|x]|] eqn:F2.
      * rewrite (IH Habs' r vs' H).
        apply (decodeField_frame _ _ _ _ _ _ F2). intros n k Hn.
        rewrite Hi in Hn. injection Hn as <- <-. exact E2.
      * discriminate.
      * apply (IH Habs' vs vs' H).
Qed.

Lemma nth_error_zeros (fields : list (string * kind)) :
  forall i name fk, nth_error fields i = Some (name, fk) ->
                    nth_error (zeros fields) i = Some (zero fk).
Proof.
  induction fields as [|[n k] fs IH]; intros i name fk H.
  - destruct i; discriminate.
  - destruct i as [|i]; cbn in *.
    + injection H as _ <-. reflexivity.
    + apply (IH i name fk H).
Qed.

(** An object decoded into the zero value of a struct leaves the zero value
    in every field that no key of the object names. *)
Lemma decode_absent_field (fields : list (string * kind)) (members : list (string * value))
    (v : rvalue) (i : nat) (name : string) (fk : kind) :
  decode (KStruct fields) (Object members) (zero (KStruct fields)) = Ok v ->
  nth_error fields i = Some (name, fk) ->
  (forall key j, In (key, j) members -> foldName key <> foldName name) ->
  fieldOf i v = zero fk.
Proof.
  intros H Hi Habs. rewrite decode_struct, zero_struct in H. cbn [fieldsOf] in H.
  destruct (decodeMembers _ members (zeros fields)) as [vs|x] eqn:E; [|discriminate].
  injection H as <-. unfold fieldOf. cbn [fieldsOf].
  pose proof (decodeMembers_frame fields i name fk members Hi Habs _ _ E) as Hn.
  rewrite (nth_error_zeros fields i name fk Hi) in Hn.
  apply nth_error_nth. exact Hn.
Qed.

(** Claim C7.  For every response of status 200 to [GetProblem] whose body
    is a JSON object that conforms to the structure of [Problem], decoding
    succeeds; every field that no key of the object names holds its zero
    value, whatever the keys that name no field and whatever their values;
    an object without a key for the title gives a problem whose title is
    empty. *)
Theorem GetProblem_conforming_object (c : api.Client) (problemID : string) (u : url.URL)
    (resp : http.Response) (rest : list RoundTrip) (tr : list Event)
    (body : string) (members : list (string * value)) :
  api.baseURL c = "https://syoj.org" ->
  url.Parse ("https://syoj.org" ++ "/api/problems/" ++ problemID) = Ok u ->
  http.StatusCode resp = 200%Z ->
  http.RespBody resp = Ok body ->
  parse body = Some (Object members) ->
  conforms api.Problem_kind (Object members) = true ->
  exists v,
    Unmarshal body api.Problem_kind (zero api.Problem_kind) = Ok v
    /\ shaped api.Problem_kind v = true
    /\ fst (fst (api.GetProblem c problemID
                   {| script := RTResponse resp :: rest; trace := tr |}))
       = Ok (api.Problem_of v)
    /\ (forall i name fk,
           nth_error (fieldsOfKind api.Problem_kind) i = Some (name, fk) ->
           (forall key j, In (key, j) members -> foldName key <> foldName name) ->
           fieldOf i v = zero fk)
    /\ ((forall key j, In (key, j) members -> foldName key <> "TITLE") ->
        api.Title (api.Problem_of v) = EmptyString).
Proof.
  intros Hb Hu Hs Hbody Hp Hc. fold base in Hb, Hu. rewrite Parse_problem_url in Hu.
  destruct (decode_exact api.Problem_kind (Object members) (zero api.Problem_kind)
              (shaped_zero _)) as [Hok Hsh].
  rewrite Hc in Hok.
  destruct (decode api.Problem_kind (Object members) (zero api.Problem_kind))
    as [v|x] eqn:Hd; [|discriminate].
  assert (HU : Unmarshal body api.Problem_kind (zero api.Problem_kind) = Ok v).
  { unfold Unmarshal. rewrite Hp. exact Hd. }
  assert (Habs : forall i name fk,
             nth_error (fieldsOfKind api.Problem_kind) i = Some (name, fk) ->
             (forall key j, In (key, j) members -> foldName key <> foldName name) ->
             fieldOf i v = zero fk).
  { intros i name fk Hi Hn. exact (decode_absent_field _ _ _ _ _ _ Hd Hi Hn). }
  exists v. split; [exact HU|]. split; [apply Hsh; reflexivity|]. split; [|split].
  - rewrite (GetProblem_run c problemID u _ Hb Hu). cbn [script fst].
    unfold fetchVerdict. rewrite Hs, Hbody, HU. reflexivity.
  - exact Habs.
  - intros Hn. cbn [api.Problem_of api.Title].
    rewrite (Habs 1%nat "title" KString eq_refl Hn). reflexivity.
Qed.

(** Claim C7, a witness: an object with an identifier, a time limit, a
    tag and a key that names no field, and without a title. *)
Lemma GetProblem_conforming_object_witness :
  exists problem,
    fst (fst (api.GetProblem seededClient "I001"
                {| script := [RTResponse sampleResponse]; trace := [] |}))
    = Ok problem
    /\ api.Title problem = EmptyString.
Proof.
  destruct (GetProblem_conforming_object seededClient "I001" _ sampleResponse [] []
              sampleBody sampleMembers eq_refl eq_refl eq_refl eq_refl eq_refl eq_refl)
    as (v & _ & _ & Hr & _ & Ht).
  exists (api.Problem_of v). split; [exact Hr|]. apply Ht.
  intros key j Hin.
  repeat (destruct Hin as [Hin|Hin]; [injection Hin as <- <-; discriminate|]).
  destruct Hin.
Defined.

(** Claim C8 as stated fails: the content [{}] is not an object with the
    two string fields, and [Load] returns the record with two empty
    fields. *)
Lemma Load_empty_object_succeeds :
  ~ (forall (fs : credentials.FS) (p : nat) (content : string),
        credentials.SearchConfigFile fs = Ok p ->
        credentials.ReadFile p fs = Ok content ->
        matchesFormat content = false ->
        exists e, credentials.Load fs = Err e /\ isParseError e = true).
Proof.
  intros H.
  destruct (H [storedFile "{}"] 0%nat "{}" eq_refl eq_refl eq_refl) as (e & He & _).
  discriminate He.
Qed.

Lemma decodeElems_error (e : kind)
    (He : forall j cur x, decode e j cur = Err x -> isParseError x = true)
    (elems : list value) :
  forall cs x, decodeElems decode e elems cs = Err x -> isParseError x = true.
Proof.
  induction elems as [|j elems IH]; intros cs x H; [discriminate|].
  cbn [decodeElems] in H. fold (decodeElems decode e) in H.
  destruct (decode e j _) as [v|y] eqn:E.
  - destruct (decodeElems decode e elems (List.tl cs)) as [vs|y] eqn:E'; [discriminate|].
    injection H as <-. exact (IH _ _ E').
  - injection H as <-. exact (He _ _ _ E).
Qed.

Lemma decodeField_error (fields : list (string * kind))
    (Hf : Forall (fun f => forall j cur x, decode (snd f) j cur = Err x
                                           -> isParseError x = true) fields)
    (test : string -> bool) (j : value) :
  forall vs x, decodeField decode test fields vs j = Some (Err x) -> isParseError x = true.
Proof.
  induction Hf as [|[name fk] fs Hfk _ IH]; intros vs x H; [discriminate|].
  destruct vs as [|v vs]; [discriminate|].
  cbn [decodeField] in H. fold (decodeField decode test) in H.
  destruct (test name).
  - destruct (decode fk j v) as [v'|y] eqn:E; [discriminate|].
    injection H as <-. exact (Hfk _ _ _ E).
  - destruct (decodeField decode test fs vs j) as [[r|y]|] eqn:E; try discriminate.
    injection H as <-. exact (IH _ _ E).
Qed.

Lemma decodeMembers_error (fields : list (string * kind))
    (Hf : Forall (fun f => forall j cur x, decode (snd f) j cur = Err x
                                           -> isParseError x = true) fields)
    (members : list (string * value)) :
  forall vs x,
    decodeMembers (fun test => decodeField decode test fields) members vs = Err x ->
    isParseError x = true.
Proof.
  induction members as [|[key j] members IH]; intros vs x H; [discriminate|].
  cbn [decodeMembers] in H.
  destruct (decodeField decode (String.eqb key) fields vs j) as [[r|y]|] eqn:F1.
  - exact (IH _ _ H).
  - injection H as <-. exact (decodeField_error fields Hf _ _ _ _ F1).
  - destruct (decodeField decode
                (fun name0 => String.eqb (foldName name0) (foldName key)) fields vs j)
      as [[r|y]|] eqn:F2.
    + exact (IH _ _ H).
    + injection H as <-. exact (decodeField_error fields Hf _ _ _ _ F2).
    + exact (IH _ _ H).
Qed.

(** Every error of [decode] is a mismatch of types. *)
Lemma decode_error (k : kind) :
  forall j cur x, decode k j cur = Err x -> isParseError x = true.
Proof.
  induction k as [| | |e IH|fields IH] using kind_ind'; intros j cur x H.
  - destruct j; cbn in H; try discriminate; injection H as <-; reflexivity.
  - destruct j; cbn in H; try discriminate; try (injection H as <-; reflexivity).
    destruct (ParseInt lit); [discriminate|]. injection H as <-. reflexivity.
  - destruct j; cbn in H; try discriminate; injection H as <-; reflexivity.
  - destruct j; try (cbn in H; try discriminate; injection H as <-; reflexivity).
    rewrite decode_slice in H.
    destruct (decodeElems decode e elems (sliceOf cur)) as [vs|y] eqn:E; [discriminate|].
    injection H as <-. exact (decodeElems_error e IH _ _ _ E).
  - destruct j; try (cbn in H; try discriminate; injection H as <-; reflexivity).
    rewrite decode_struct in H.
    destruct (decodeMembers _ members (fieldsOf cur)) as [vs|y] eqn:E; [discriminate|].
    injection H as <-. exact (decodeMembers_error fields IH _ _ _ E).
Qed.

Lemma Search_noFile (fs : credentials.FS) :
  forallb noFile fs = true ->
  failsWith isNotExist (credentials.SearchConfigFile fs) = true.
Proof.
  induction fs as [|d fs IH]; intros H; [reflexivity|].
  cbn [forallb] in H. apply andb_true_iff in H. destruct H as [Hd H].
  cbn [credentials.SearchConfigFile]. unfold noFile in Hd.
  destruct (credentials.entry d); [discriminate|].
  specialize (IH H). destruct (credentials.SearchConfigFile fs); [discriminate|exact IH].
Qed.

(** Claim C8, as amended.  [Load] fails with the error of a missing file
    when no file exists anywhere in the search path.  On the content of the
    file it finds and reads, it fails with a parse error exactly when the
    content is not well-formed JSON, or is a JSON value that does not conform
    to the record: a value that is neither an object nor [null], or an object
    in which the value of [token] or of [token_id] is neither a string nor
    [null].  A conforming object loads, and a field that none of its keys
    names is the empty string. *)
Theorem Load_errors (fs : credentials.FS) :
  (forallb noFile fs = true -> failsWith isNotExist (credentials.Load fs) = true)
  /\ (forall p content,
         credentials.SearchConfigFile fs = Ok p ->
         credentials.ReadFile p fs = Ok content ->
         failsWith isParseError (credentials.Load fs)
         = match parse content with
           | None => true
           | Some j => negb (conforms credentials.Credentials_kind j)
           end)
  /\ (forall p content members,
         credentials.SearchConfigFile fs = Ok p ->
         credentials.ReadFile p fs = Ok content ->
         parse content = Some (Object members) ->
         conforms credentials.Credentials_kind (Object members) = true ->
         exists c,
           credentials.Load fs = Ok c
           /\ ((forall key j, In (key, j) members -> foldName key <> "TOKEN") ->
               credentials.Token c = EmptyString)
           /\ ((forall key j, In (key, j) members -> foldName key <> "TOKEN_ID") ->
               credentials.TokenId c = EmptyString)).
Proof.
  split; [|split].
  - intros H. apply Search_noFile in H. unfold credentials.Load.
    destruct (credentials.SearchConfigFile fs); [discriminate|exact H].
  - intros p content Hs Hr. unfold credentials.Load, Unmarshal. rewrite Hs, Hr.
    destruct (parse content) as [j|]; [|reflexivity].
    destruct (decode_exact credentials.Credentials_kind j
                (zero credentials.Credentials_kind) (shaped_zero _)) as [Hok _].
    rewrite <- Hok.
    destruct (decode credentials.Credentials_kind j _) as [v|x] eqn:E; [reflexivity|].
    cbn [failsWith isOk negb]. exact (decode_error _ _ _ _ E).
  - intros p content members Hs Hr Hp Hc.
    unfold credentials.Load, Unmarshal. rewrite Hs, Hr, Hp.
    destruct (decode_exact credentials.Credentials_kind (Object members)
                (zero credentials.Credentials_kind) (shaped_zero _)) as [Hok _].
    rewrite Hc in Hok.
    destruct (decode credentials.Credentials_kind (Object members) _) as [v|x] eqn:E;
      [|discriminate].
    exists (credentials.Credentials_of v). split; [reflexivity|]. split; intros Hn.
    + cbn [credentials.Credentials_of credentials.Token].
      rewrite (decode_absent_field _ _ _ 0%nat "token" KString E eq_refl Hn). reflexivity.
    + cbn [credentials.Credentials_of credentials.TokenId].
      rewrite (decode_absent_field _ _ _ 1%nat "token_id" KString E eq_refl Hn).
      reflexivity.
Qed.

(** Claim C8, a witness: no file; a text that is not JSON; an array; the
    empty object. *)
Lemma Load_errors_witness :
  failsWith isNotExist (credentials.Load [freshDir]) = true
  /\ failsWith isParseError (credentials.Load [storedFile "not json"]) = true
  /\ failsWith isParseError (credentials.Load [storedFile "[1,2]"]) = true
  /\ credentials.Load [storedFile "{}"]
     = Ok {| credentials.Token := EmptyString; credentials.TokenId := EmptyString |}.
Proof.
  split; [|split; [|split]].
  - exact (proj1 (Load_errors [freshDir]) eq_refl).
  - exact (proj1 (proj2 (Load_errors [storedFile "not json"]))
             0%nat "not json" eq_refl eq_refl).
  - exact (proj1 (proj2 (Load_errors [storedFile "[1,2]"]))
             0%nat "[1,2]" eq_refl eq_refl).
  - destruct (proj2 (proj2 (Load_errors [storedFile "{}"]))
                0%nat "{}" [] eq_refl eq_refl eq_refl eq_refl) as (c & Hc & Ht & Hi).
    rewrite Hc. destruct c as [t i]. cbn in Ht, Hi.
    rewrite Ht, Hi; [reflexivity | intros ? ? [] | intros ? ? []].
Defined.

(** ** The standard input *)

Lemma ReadString_lines (input : string) :
  match bufio.ReadString input bufio.newline with
  | (line, true, rest) => rest = EmptyString /\ completeLines input = EmptyString
  | (line, false, rest) =>
    (String.length rest < String.length input)%nat
    /\ line <> EmptyString
    /\ completeLines input = (line ++ completeLines rest)%string
  end.
Proof.
  induction input as [|c t IH]; [split; reflexivity|].
  cbn [bufio.ReadString completeLines].
  destruct (Ascii.eqb c bufio.newline) eqn:E.
  - cbn [String.length]. split; [lia|]. split; [discriminate|].
    cbn [append]. destruct (completeLines t); reflexivity.
  - destruct (bufio.ReadString t bufio.newline) as [[line err] rest].
    destruct err.
    + destruct IH as [-> ->]. split; reflexivity.
    + destruct IH as (Hlen & Hne & ->). cbn [String.length]. split; [lia|].
      split; [discriminate|]. destruct line as [|l0 line]; [congruence|]. reflexivity.
Qed.

Lemma readLoop_lines (fuel : nat) :
  forall input builder,
    (String.length input < fuel)%nat ->
    cmd.readLoop fuel input builder
    = ((builder ++ completeLines input)%string, EmptyString).
Proof.
  induction fuel as [|fuel IH]; intros input builder Hlen; [lia|].
  cbn [cmd.readLoop]. pose proof (ReadString_lines input) as H.
  destruct (bufio.ReadString input bufio.newline) as [[line err] rest].
  destruct err.
  - destruct H as [-> ->]. rewrite append_nil_r_s. reflexivity.
  - destruct H as (Hl & _ & ->). rewrite IH by lia.
    rewrite append_assoc_s. reflexivity.
Qed.

(** The loop reads the standard input to its end, and keeps the lines that
    end with a newline. *)
Theorem readStdin_complete_lines (input : string) :
  cmd.readStdin input = (completeLines input, EmptyString).
Proof. unfold cmd.readStdin. rewrite readLoop_lines by lia. reflexivity. Qed.

(** Claim C9, on inputs that do not end with a newline.  From a standard
    input of two lines of which the second has no newline, the code read is
    the first line.  From the one line [int main(){}] without a newline the
    code read is empty, and [submit] stops with "No code provided for
    submission", where it goes on with the same text read from a file. *)
Theorem submit_stdin_drops_unterminated_line :
  fst (cmd.readStdin ("print(1)" ++ nl ++ "print(2)")) = "print(1)" ++ nl
  /\ fst (cmd.readStdin "int main(){}") = EmptyString
  /\ cmd.submitRun "I001" "cpp20" EmptyString
       {| cmd.store := savedStore; cmd.osReadFile := noFiles;
          cmd.stdin := "int main(){}" |}
       {| script := []; trace := [] |}
     = (cmd.Failed "No code provided for submission" None,
        {| script := []; trace := [] |}).
Proof.
  repeat split; vm_compute; reflexivity.
Qed.

(** ** The commands and the cookies *)

Lemma NewClientWithCredentials_seeded (token tokenId : string) :
  api.NewClientWithCredentials token tokenId
  = Ok (clientOf token tokenId).
Proof. reflexivity. Qed.






Lemma requestsOf_app (a b : list Event) :
  requestsOf (a ++ b) = (requestsOf a ++ requestsOf b)%list.
Proof.
  induction a as [|[req|] a IH]; cbn [requestsOf app]; [reflexivity| |exact IH].
  rewrite IH. reflexivity.
Qed.







(** ** Marshal and Unmarshal, for all strings *)

Lemma scanned_aux (n : nat) : forall s, (String.length s <= n)%nat -> scanned s.
Proof.
  induction n as [|n IH]; intros s Hlen.
  - destruct s; [constructor | simpl in Hlen; lia].
  - destruct s as [|b t]; [constructor|]. cbn [String.length] in Hlen.
    assert (Ht : scanned t) by (apply IH; lia).
    remember (utf8.DecodeRune (String b t)) as d eqn:Hd0.
    pose proof Hd0 as Hd.
    unfold utf8.DecodeRune, utf8.cont, utf8.within, utf8.RuneSelf in Hd.
    cbv zeta in Hd.
    destruct (bv b <? 128) eqn:E1.
    { bprop. apply scanned_1; assumption. }
    assert (Hbad : d = (utf8.RuneError, 1%nat) -> scanned (String b t)).
    { intros E. apply scanned_bad; [bprop; lia | congruence | exact Ht]. }
    destruct ((bv b <? 194) || (244 <? bv b)) eqn:E2; [exact (Hbad Hd)|].
    destruct (bv b <? 224) eqn:E3.
    { destruct t as [|b1 t]; [exact (Hbad Hd)|].
      destruct (negb _) eqn:E4 in Hd; [exact (Hbad Hd)|].
      bprop. apply scanned_2; [lia | lia |].
      apply IH. cbn [String.length] in Hlen. lia. }
    destruct (bv b <? 240) eqn:E4.
    { destruct t as [|b1 [|b2 t]]; try exact (Hbad Hd).
      destruct (negb _) eqn:E5 in Hd; [exact (Hbad Hd)|].
      destruct (negb _) eqn:E6 in Hd; [exact (Hbad Hd)|].
      bprop.
      destruct (N.eqb_spec (bv b) 224), (N.eqb_spec (bv b) 237); apply scanned_3;
        first [ lia | apply IH; cbn [String.length] in Hlen; lia ]. }
    destruct t as [|b1 [|b2 [|b3 t]]]; try exact (Hbad Hd).
    destruct (negb _) eqn:E5 in Hd; [exact (Hbad Hd)|].
    destruct (negb _) eqn:E6 in Hd; [exact (Hbad Hd)|].
    destruct (negb _) eqn:E7 in Hd; [exact (Hbad Hd)|].
    bprop.
    destruct (N.eqb_spec (bv b) 240), (N.eqb_spec (bv b) 244); apply scanned_4;
      first [ lia | apply IH; cbn [String.length] in Hlen; lia ].
Qed.

Lemma scanned_all (s : string) : scanned s.
Proof. apply (scanned_aux (String.length s)). lia. Qed.

Lemma sanitize_1 b t : bv b < 0x80 -> sanitize (String b t) = String b (sanitize t).
Proof.
  intros H. cbn [sanitize]. unfold utf8.DecodeRune, utf8.RuneSelf, utf8.RuneError.
  cbv zeta. btest. reflexivity.
Qed.

Lemma sanitize_2 b b1 t :
  0xC2 <= bv b < 0xE0 -> 0x80 <= bv b1 <= 0xBF ->
  sanitize (String b (String b1 t)) = String b (String b1 (sanitize t)).
Proof.
  intros Hb H1. cbn [sanitize]. rewrite DecodeRune_2 by assumption.
  cbn [Nat.eqb andb]. rewrite andb_false_r. reflexivity.
Qed.

Lemma sanitize_3 b b1 b2 t :
  0xE0 <= bv b < 0xF0 -> 0x80 <= bv b1 <= 0xBF -> 0x80 <= bv b2 <= 0xBF ->
  (bv b = 0xE0 -> 0xA0 <= bv b1) -> (bv b = 0xED -> bv b1 <= 0x9F) ->
  sanitize (String b (String b1 (String b2 t)))
  = String b (String b1 (String b2 (sanitize t))).
Proof.
  intros Hb H1 H2 HE0 HED. cbn [sanitize]. rewrite DecodeRune_3 by assumption.
  cbn [Nat.eqb andb]. rewrite andb_false_r. reflexivity.
Qed.

Lemma sanitize_4 b b1 b2 b3 t :
  0xF0 <= bv b <= 0xF4 -> 0x80 <= bv b1 <= 0xBF -> 0x80 <= bv b2 <= 0xBF ->
  0x80 <= bv b3 <= 0xBF ->
  (bv b = 0xF0 -> 0x90 <= bv b1) -> (bv b = 0xF4 -> bv b1 <= 0x8F) ->
  sanitize (String b (String b1 (String b2 (String b3 t))))
  = String b (String b1 (String b2 (String b3 (sanitize t)))).
Proof.
  intros Hb H1 H2 H3 HF0 HF4. cbn [sanitize]. rewrite DecodeRune_4 by assumption.
  cbn [Nat.eqb andb]. rewrite andb_false_r. reflexivity.
Qed.

Lemma sanitize_bad b t :
  utf8.DecodeRune (String b t) = (utf8.RuneError, 1%nat) ->
  sanitize (String b t) = utf8.EncodeRune utf8.RuneError ++ sanitize t.
Proof. intros H. cbn [sanitize]. rewrite H. reflexivity. Qed.

Lemma appendStringBody_bad b t :
  0x80 <= bv b -> utf8.DecodeRune (String b t) = (utf8.RuneError, 1%nat) ->
  appendStringBody (String b t) = String backslash "ufffd" ++ appendStringBody t.
Proof.
  intros Hb H. cbn [appendStringBody]. rewrite H. unfold utf8.RuneSelf. btest.
  reflexivity.
Qed.

Lemma lex_ufffd (raw : string) (acc : list token) (r : string) :
  lexFrom (MStr raw) acc (String backslash "ufffd" ++ r)
  = lexFrom (MStr (raw ++ String backslash "ufffd")) acc r.
Proof.
  cbn. unfold snoc. rewrite ?app_nil_r, ?append_assoc_s. reflexivity.
Qed.

Lemma unquoteBody_ufffd (r : string) :
  unquoteBody (String backslash "ufffd" ++ r)
  = cons_opt (utf8.EncodeRune utf8.RuneError) (unquoteBody r).
Proof. reflexivity. Qed.

(** What [Unmarshal] reads back from a string that [Marshal] has written,
    whatever the bytes of the string. *)
Lemma unquote_appendStringBody_any (s : string) :
  unquoteBody (appendStringBody s) = Some (sanitize s).
Proof.
  induction (scanned_all s)
    as [|b t Hb _ IH|b b1 t Hb H1 _ IH|b b1 b2 t Hb H1 H2 HE0 HED _ IH
       |b b1 b2 b3 t Hb H1 H2 H3 HF0 HF4 _ IH|b t Hb Hd _ IH].
  - reflexivity.
  - rewrite appendStringBody_1, unquote_escapeByte, IH, sanitize_1 by assumption.
    reflexivity.
  - rewrite appendStringBody_2, sanitize_2 by assumption.
    rewrite unquoteBody_high, DecodeRune_2, EncodeRune_2 by (assumption || lia).
    cbn [utf8.advance]. rewrite IH. reflexivity.
  - rewrite appendStringBody_3, sanitize_3 by assumption.
    destruct (rune3 _ _ _ Hb H1 H2 HE0 HED) as (Hc & _). fold (rune_3 b b1 b2) in Hc.
    pose proof (EncodeRune_3 b b1 b2 Hb H1 H2 HE0 HED) as HE.
    destruct ((rune_3 b b1 b2 =? 0x2028) || (rune_3 b b1 b2 =? 0x2029)) eqn:E.
    + assert (Hr : rune_3 b b1 b2 = 0x2020 + rune_3 b b1 b2 mod 16
                   /\ rune_3 b b1 b2 mod 16 < 16).
      { apply orb_true_iff in E. destruct E as [E|E]; apply N.eqb_eq in E;
          rewrite E; split; reflexivity. }
      destruct Hr as [Hr Hlt].
      rewrite unquoteBody_u202, <- Hr, HE, IH by assumption. reflexivity.
    + rewrite unquoteBody_high, DecodeRune_3, HE by (assumption || lia).
      cbn [utf8.advance]. rewrite IH. reflexivity.
  - rewrite appendStringBody_4, sanitize_4 by assumption.
    rewrite unquoteBody_high, DecodeRune_4, EncodeRune_4 by (assumption || lia).
    cbn [utf8.advance]. rewrite IH. reflexivity.
  - rewrite appendStringBody_bad, sanitize_bad, unquoteBody_ufffd, IH by assumption.
    reflexivity.
Qed.

Lemma lex_appendStringBody_any (s : string) :
  forall raw acc r,
    lexFrom (MStr raw) acc (appendStringBody s ++ r)
    = lexFrom (MStr (raw ++ appendStringBody s)) acc r.
Proof.
  induction (scanned_all s)
    as [|b t Hb _ IH|b b1 t Hb H1 _ IH|b b1 b2 t Hb H1 H2 HE0 HED _ IH
       |b b1 b2 b3 t Hb H1 H2 H3 HF0 HF4 _ IH|b t Hb Hd _ IH]; intros raw acc r.
  - cbn. rewrite append_nil_r_s. reflexivity.
  - rewrite appendStringBody_1 by assumption.
    rewrite append_assoc_s, lex_escapeByte, IH, append_assoc_s by assumption.
    reflexivity.
  - rewrite appendStringBody_2 by assumption. cbn [append].
    rewrite !lex_high, IH by lia. rewrite !append_assoc_s. reflexivity.
  - rewrite appendStringBody_3 by assumption.
    destruct ((rune_3 b b1 b2 =? 0x2028) || (rune_3 b b1 b2 =? 0x2029)) eqn:E.
    + cbn [append]. rewrite lex_u202, IH.
      * rewrite !append_assoc_s. reflexivity.
      * apply unhex_hexdigit. apply N.mod_lt. discriminate.
    + cbn [append]. rewrite !lex_high, IH by lia. rewrite !append_assoc_s. reflexivity.
  - rewrite appendStringBody_4 by assumption. cbn [append].
    rewrite !lex_high, IH by lia. rewrite !append_assoc_s. reflexivity.
  - rewrite appendStringBody_bad by assumption.
    rewrite append_assoc_s, lex_ufffd, IH, append_assoc_s. reflexivity.
Qed.

Lemma sanitize_valid (s : string) : wf8 s -> sanitize s = s.
Proof.
  induction 1 as [|b t Hb _ IH|b b1 t Hb H1 _ IH|b b1 b2 t Hb H1 H2 HE0 HED _ IH
                 |b b1 b2 b3 t Hb H1 H2 H3 HF0 HF4 _ IH].
  - reflexivity.
  - rewrite sanitize_1, IH by assumption. reflexivity.
  - rewrite sanitize_2, IH by assumption. reflexivity.
  - rewrite sanitize_3, IH by assumption. reflexivity.
  - rewrite sanitize_4, IH by assumption. reflexivity.
Qed.

Lemma lex_string_literal_any (s : string) (acc : list token) (r : string) :
  lexFrom MIdle acc (appendString s ++ r)
  = lexFrom MIdle (acc ++ [TString (sanitize s)]) r.
Proof.
  unfold appendString. cbn [append lexFrom step].
  change (stepIdle dquote) with (Some (MStr EmptyString, @nil token)).
  cbv beta iota. rewrite append_assoc_s, lex_appendStringBody_any.
  cbn [append lexFrom step]. cbv zeta.
  change (bv dquote =? 34) with true. cbv beta iota.
  rewrite unquote_appendStringBody_any.
  rewrite app_nil_r. reflexivity.
Qed.

Lemma parse_marshalStrings_any (n1 s1 n2 s2 : string) :
  parse (marshalStrings [(n1, s1); (n2, s2)])
  = Some (Object [(sanitize n1, Str (sanitize s1)); (sanitize n2, Str (sanitize s2))]).
Proof.
  rewrite marshalStrings_2. unfold parse, lex.
  cbn [append lexFrom step].
  change (stepIdle "{"%char) with (Some (MIdle, [TLBrace])). cbv beta iota.
  rewrite lex_string_literal_any.
  cbn [append lexFrom step].
  change (stepIdle ":"%char) with (Some (MIdle, [TColon])). cbv beta iota.
  rewrite lex_string_literal_any.
  cbn [append lexFrom step].
  change (stepIdle ","%char) with (Some (MIdle, [TComma])). cbv beta iota.
  rewrite lex_string_literal_any.
  cbn [append lexFrom step].
  change (stepIdle ":"%char) with (Some (MIdle, [TColon])). cbv beta iota.
  rewrite lex_string_literal_any.
  cbn [append lexFrom step].
  change (stepIdle "}"%char) with (Some (MIdle, [TRBrace])). cbv beta iota.
  reflexivity.
Qed.

Lemma wf8_ValidString (s : string) : wf8 s -> utf8.ValidString s = true.
Proof.
  induction 1 as [|b t Hb _ IH|b b1 t Hb H1 _ IH|b b1 b2 t Hb H1 H2 HE0 HED _ IH
                 |b b1 b2 b3 t Hb H1 H2 H3 HF0 HF4 _ IH].
  - reflexivity.
  - cbn [utf8.ValidString]. unfold utf8.DecodeRune, utf8.RuneSelf, utf8.RuneError.
    cbv zeta. btest. cbn [andb utf8.advance]. exact IH.
  - cbn [utf8.ValidString]. rewrite DecodeRune_2 by assumption.
    cbn [Nat.eqb]. rewrite andb_false_r. cbn [utf8.advance]. exact IH.
  - cbn [utf8.ValidString]. rewrite DecodeRune_3 by assumption.
    cbn [Nat.eqb]. rewrite andb_false_r. cbn [utf8.advance]. exact IH.
  - cbn [utf8.ValidString]. rewrite DecodeRune_4 by assumption.
    cbn [Nat.eqb]. rewrite andb_false_r. cbn [utf8.advance]. exact IH.
Qed.

Lemma sanitize_wf8 (s : string) : wf8 (sanitize s).
Proof.
  induction (scanned_all s)
    as [|b t Hb _ IH|b b1 t Hb H1 _ IH|b b1 b2 t Hb H1 H2 HE0 HED _ IH
       |b b1 b2 b3 t Hb H1 H2 H3 HF0 HF4 _ IH|b t Hb Hd _ IH].
  - constructor.
  - rewrite sanitize_1 by assumption. apply wf8_1; assumption.
  - rewrite sanitize_2 by assumption. apply wf8_2; assumption.
  - rewrite sanitize_3 by assumption. apply wf8_3; assumption.
  - rewrite sanitize_4 by assumption. apply wf8_4; assumption.
  - rewrite sanitize_bad by assumption.
    change (utf8.EncodeRune utf8.RuneError ++ sanitize t)
      with (String (mk 0xEF) (String (mk 0xBF) (String (mk 0xBD) (sanitize t)))).
    assert (E1 : bv (mk 0xEF) = 0xEF) by reflexivity.
    assert (E2 : bv (mk 0xBF) = 0xBF) by reflexivity.
    assert (E3 : bv (mk 0xBD) = 0xBD) by reflexivity.
    apply wf8_3; rewrite ?E1, ?E2, ?E3; first [lia | exact IH].
Qed.

(** [sanitize] gives valid UTF-8, and leaves valid UTF-8 as it is. *)
Lemma sanitize_spec (s : string) :
  utf8.ValidString (sanitize s) = true
  /\ (utf8.ValidString s = true -> sanitize s = s).
Proof.
  split.
  - apply wf8_ValidString, sanitize_wf8.
  - intros H. apply sanitize_valid, ValidString_wf8, H.
Qed.

(** ** The credential store: Save again, and Delete *)

(** Property X1.  [Save], then [Load], for every record.  On a store whose
    credentials files lie in directories that exist and can be read, when
    [Save] of a record succeeds, [Load] returns the record in which every
    byte of a field that is not part of a valid UTF-8 encoded rune is replaced
    by the three bytes that encode U+FFFD.  The fields returned are valid
    UTF-8, and a field that was valid UTF-8 is returned as it was. *)
Theorem Save_Load_sanitized (c : credentials.Credentials) (fs fs' : credentials.FS) :
  credentials.wf fs = true -> readable_files fs = true ->
  credentials.Save c fs = (None, fs') ->
  credentials.Load fs'
  = Ok {| credentials.Token := sanitize (credentials.Token c);
          credentials.TokenId := sanitize (credentials.TokenId c) |}
  /\ (forall s, utf8.ValidString (sanitize s) = true
                /\ (utf8.ValidString s = true -> sanitize s = s)).
Proof.
  intros Hwf Hrd Hs. split; [|exact sanitize_spec].
  unfold credentials.Save in Hs. cbn [credentials.Marshal] in Hs.
  destruct (credentials.ConfigFile fs) as [[p|e] fs1] eqn:Hc; [|discriminate].
  destruct (save_load_bytes _ fs p fs1 fs' Hwf Hrd Hc Hs) as [Hsearch Hread].
  unfold credentials.Load, Unmarshal. rewrite Hsearch, Hread, parse_marshalStrings_any.
  reflexivity.
Qed.

(** Property X1, a witness: a token that starts with the byte 0xFF. *)
Lemma Save_Load_sanitized_witness :
  credentials.Load
    (snd (credentials.Save {| credentials.Token := String (mk 255) "abc";
                              credentials.TokenId := "def" |} [freshDir]))
  = Ok {| credentials.Token :=
            String (mk 0xEF) (String (mk 0xBF) (String (mk 0xBD) "abc"));
          credentials.TokenId := "def" |}.
Proof.
  exact (proj1 (Save_Load_sanitized {| credentials.Token := String (mk 255) "abc";
                                       credentials.TokenId := "def" |}
                  [freshDir] _ eq_refl eq_refl eq_refl)).
Defined.

Lemma write_savable (bytes : string) (fs : credentials.FS) :
  match credentials.ConfigFile fs with
  | (Ok p, fs1) => succeeded (fst (credentials.WriteFile p bytes fs1)) = savable fs
  | (Err _, _) => savable fs = false
  end.
Proof.
  induction fs as [|d fs IH]; [reflexivity|].
  cbn [credentials.ConfigFile savable].
  destruct (credentials.present d) eqn:Hp; cbn [orb].
  - cbn [credentials.WriteFile]. unfold credentials.writeDir. rewrite Hp.
    destruct (credentials.entry d) as [f|].
    + destruct (credentials.writable f); reflexivity.
    + cbn [andb]. destruct (credentials.createOk d); reflexivity.
  - destruct (credentials.mkdirOk d) eqn:Hm.
    + cbn [credentials.WriteFile]. unfold credentials.writeDir.
      cbn [credentials.entry credentials.present credentials.createOk andb].
      destruct (credentials.entry d) as [f|].
      * destruct (credentials.writable f); reflexivity.
      * destruct (credentials.createOk d); reflexivity.
    + destruct (credentials.ConfigFile fs) as [[p|e] fs1]; [|exact IH].
      cbn [credentials.WriteFile].
      destruct (credentials.WriteFile p bytes fs1) as [e fs2]. exact IH.
Qed.

(** Property X2.  [Save] succeeds exactly when the first directory of the
    search path that exists or can be created holds a credentials file that
    can be written, or holds none and lets one be created.  The directories
    further down the search path are not tried once such a directory is
    found; the record plays no part. *)
Theorem Save_succeeds_iff_savable (c : credentials.Credentials) (fs : credentials.FS) :
  succeeded (fst (credentials.Save c fs)) = savable fs.
Proof.
  unfold credentials.Save. cbn [credentials.Marshal].
  pose proof (write_savable
                (marshalStrings [("token", credentials.Token c);
                                 ("token_id", credentials.TokenId c)]) fs) as H.
  destruct (credentials.ConfigFile fs) as [[p|e] fs1]; [exact H|].
  rewrite H. reflexivity.
Qed.

(** A second write after a successful one goes to the same file and
    succeeds. *)
Lemma write_again (b1 b2 : string) (fs : credentials.FS) :
  forall p fs1 fs2,
    credentials.wf fs = true -> readable_files fs = true ->
    credentials.ConfigFile fs = (Ok p, fs1) ->
    credentials.WriteFile p b1 fs1 = (None, fs2) ->
    exists fs3,
      credentials.ConfigFile fs2 = (Ok p, fs2)
      /\ credentials.WriteFile p b2 fs2 = (None, fs3)
      /\ credentials.SearchConfigFile fs3 = Ok p
      /\ credentials.ReadFile p fs3 = Ok b2.
Proof.
  induction fs as [|d fs IH]; intros p fs1 fs2 Hwf Hrd Hc Hw; [discriminate|].
  cbn [credentials.wf forallb] in Hwf. apply andb_true_iff in Hwf.
  destruct Hwf as [Hd Hwf]. cbn [readable_files forallb] in Hrd.
  apply andb_true_iff in Hrd. destruct Hrd as [Hr Hrd].
  unfold credentials.wf_dir in Hd. cbn [credentials.ConfigFile] in Hc.
  destruct (credentials.present d) eqn:Hp.
  - injection Hc as <- <-. cbn [credentials.WriteFile] in Hw.
    unfold credentials.writeDir in Hw. rewrite Hp in Hw.
    destruct (credentials.entry d) as [f|] eqn:He.
    + destruct (credentials.writable f) eqn:Hwr; [|discriminate].
      injection Hw as <-. eexists. cbn. rewrite ?Hp, ?Hwr, ?Hr. cbn.
      rewrite ?Hp, ?Hwr, ?Hr. repeat split; reflexivity.
    + cbn [andb] in Hw. destruct (credentials.createOk d) eqn:Hk; [|discriminate].
      injection Hw as <-. eexists. cbn. rewrite ?Hp. cbn. repeat split; reflexivity.
  - destruct (credentials.entry d) as [f|] eqn:He; [discriminate|].
    destruct (credentials.mkdirOk d) eqn:Hm.
    + injection Hc as <- <-. cbn [credentials.WriteFile] in Hw.
      unfold credentials.writeDir in Hw. cbn in Hw. try rewrite He in Hw.
      destruct (credentials.createOk d) eqn:Hk; [|discriminate].
      injection Hw as <-. eexists. cbn. repeat split; reflexivity.
    + destruct (credentials.ConfigFile fs) as [r fs''] eqn:Hcf.
      destruct r as [i|e]; [|discriminate].
      injection Hc as <- <-. cbn [credentials.WriteFile] in Hw.
      destruct (credentials.WriteFile i b1 fs'') as [e fs3] eqn:Hw3.
      injection Hw as -> <-.
      destruct (IH i fs'' fs3 Hwf Hrd eq_refl Hw3) as (fs4 & Hc4 & Hw4 & Hs4 & Hr4).
      exists (d :: fs4). cbn [credentials.ConfigFile credentials.WriteFile
                              credentials.SearchConfigFile].
      rewrite Hp, Hm, Hc4, Hw4, He, Hs4. repeat split. exact Hr4.
Qed.

(** Property X3.  [Save] can be repeated.  On a store whose credentials
    files lie in directories that exist and can be read, once a [Save] has
    succeeded, the [Save] of another record succeeds too, into the same
    file, and [Load] then returns that second record, its fields being valid
    UTF-8. *)
Theorem Save_twice (c1 c2 : credentials.Credentials) (fs fs1 : credentials.FS) :
  utf8.ValidString (credentials.Token c2) = true ->
  utf8.ValidString (credentials.TokenId c2) = true ->
  credentials.wf fs = true -> readable_files fs = true ->
  credentials.Save c1 fs = (None, fs1) ->
  exists fs2, credentials.Save c2 fs1 = (None, fs2) /\ credentials.Load fs2 = Ok c2.
Proof.
  intros Ht Hi Hwf Hrd Hs.
  destruct (Unmarshal_Marshal c2 (ValidString_wf8 _ Ht) (ValidString_wf8 _ Hi))
    as (bytes & Hm & Hu).
  unfold credentials.Save in Hs.
  destruct (credentials.ConfigFile fs) as [[p|e] fsA] eqn:Hc; [|discriminate].
  cbn [credentials.Marshal] in Hs.
  destruct (write_again _ bytes fs p fsA fs1 Hwf Hrd Hc Hs) as (fs2 & Hc2 & Hw2 & Hs2 & Hr2).
  exists fs2. unfold credentials.Save. rewrite Hc2, Hm. split; [exact Hw2|].
  unfold credentials.Load. rewrite Hs2, Hr2, Hu, Credentials_of_value. reflexivity.
Qed.

(** Property X3, a witness: two records saved one after the other under a
    configuration directory that does not exist yet. *)
Lemma Save_twice_witness :
  exists fs2,
    credentials.Save {| credentials.Token := "new"; credentials.TokenId := "id2" |}
      (snd (credentials.Save {| credentials.Token := "old"; credentials.TokenId := "id1" |}
              [freshDir])) = (None, fs2)
    /\ credentials.Load fs2
       = Ok {| credentials.Token := "new"; credentials.TokenId := "id2" |}.
Proof.
  apply (Save_twice {| credentials.Token := "old"; credentials.TokenId := "id1" |}
           {| credentials.Token := "new"; credentials.TokenId := "id2" |} [freshDir]);
    reflexivity.
Defined.

Lemma Search_first (pre post : credentials.FS) (d : credentials.dir) :
  forallb noFile pre = true -> noFile d = false ->
  credentials.SearchConfigFile (pre ++ d :: post)%list = Ok (List.length pre).
Proof.
  intros Hpre Hd. induction pre as [|x pre IH]; cbn [app credentials.SearchConfigFile length].
  - unfold noFile in Hd. destruct (credentials.entry d); [reflexivity|discriminate].
  - cbn [forallb] in Hpre. apply andb_true_iff in Hpre. destruct Hpre as [Hx Hpre].
    unfold noFile in Hx. destruct (credentials.entry x); [discriminate|].
    rewrite (IH Hpre). reflexivity.
Qed.

Lemma Remove_at (pre post : credentials.FS) (d : credentials.dir) :
  noFile d = false ->
  credentials.Remove (List.length pre) (pre ++ d :: post)%list
  = if credentials.createOk d then (None, (pre ++ emptied d :: post)%list)
    else (Some (ErrPermission "remove: permission denied"), (pre ++ d :: post)%list).
Proof.
  intros Hd. induction pre as [|x pre IH]; cbn [app credentials.Remove length].
  - unfold noFile in Hd. unfold emptied. destruct (credentials.entry d); [|discriminate].
    destruct (credentials.createOk d); reflexivity.
  - rewrite IH. destruct (credentials.createOk d); reflexivity.
Qed.

Lemma Load_skip (d : credentials.dir) (fs : credentials.FS) :
  noFile d = true -> credentials.Load (d :: fs) = credentials.Load fs.
Proof.
  intros Hd. unfold credentials.Load. cbn [credentials.SearchConfigFile].
  unfold noFile in Hd. destruct (credentials.entry d); [discriminate|].
  destruct (credentials.SearchConfigFile fs) as [i|e]; reflexivity.
Qed.

Lemma Load_skip_all (pre fs : credentials.FS) :
  forallb noFile pre = true -> credentials.Load (pre ++ fs)%list = credentials.Load fs.
Proof.
  induction pre as [|x pre IH]; intros H; [reflexivity|].
  cbn [forallb] in H. apply andb_true_iff in H. destruct H as [Hx H].
  cbn [app]. rewrite (Load_skip x _ Hx). exact (IH H).
Qed.

(** Property X4.  [Delete] on a store that holds no credentials file fails
    with the error of a file that does not exist, and leaves the store as it
    was. *)
Theorem Delete_without_file (fs : credentials.FS) :
  forallb noFile fs = true ->
  exists msg, credentials.Delete fs = (Some (ErrNotExist msg), fs).
Proof.
  intros H. unfold credentials.Delete.
  pose proof (Search_noFile fs H) as Hs.
  destruct (credentials.SearchConfigFile fs) as [p|e]; [discriminate|].
  destruct e; try discriminate. eexists. reflexivity.
Qed.

(** Property X4, a witness: a configuration directory that does not exist
    yet. *)
Lemma Delete_without_file_witness :
  exists msg, credentials.Delete [freshDir] = (Some (ErrNotExist msg), [freshDir]).
Proof. apply (Delete_without_file [freshDir]). reflexivity. Defined.

(** Property X5.  [Delete] acts on the first credentials file of the search
    path, and on that one only: it removes it when its directory allows it,
    and fails with a permission error, changing nothing, when it does not.
    Once the file is removed, [Load] reads what the directories further down
    the search path hold. *)
Theorem Delete_first_file (pre post : credentials.FS) (d : credentials.dir) :
  forallb noFile pre = true -> noFile d = false ->
  credentials.Delete (pre ++ d :: post)%list
  = (if credentials.createOk d then (None, (pre ++ emptied d :: post)%list)
     else (Some (ErrPermission "remove: permission denied"), (pre ++ d :: post)%list))
  /\ credentials.Load (pre ++ emptied d :: post)%list = credentials.Load post.
Proof.
  intros Hpre Hd. split.
  - unfold credentials.Delete. rewrite (Search_first pre post d Hpre Hd).
    apply Remove_at. exact Hd.
  - rewrite (Load_skip_all pre _ Hpre). apply Load_skip. reflexivity.
Qed.

(** Property X5, a witness: a file in the second directory of the search
    path and the saved record in the third. *)
Lemma Delete_first_file_witness :
  credentials.Delete (freshDir :: storedFile "{}" :: savedStore)
  = (None, freshDir :: emptied (storedFile "{}") :: savedStore)
  /\ credentials.Load (freshDir :: emptied (storedFile "{}") :: savedStore)
     = Ok {| credentials.Token := "abc"; credentials.TokenId := "def" |}.
Proof.
  destruct (Delete_first_file [freshDir] savedStore (storedFile "{}") eq_refl eq_refl)
    as [H1 H2].
  split; [exact H1 | exact (eq_trans H2 eq_refl)].
Defined.

(** Property X6.  [Load] depends on the first credentials file of the search
    path alone: what the directories further down hold is not read, even when
    that first file cannot be read, in which case [Load] fails with a
    permission error. *)
Theorem Load_first_file (pre post : credentials.FS) (d : credentials.dir) :
  forallb noFile pre = true -> noFile d = false ->
  credentials.Load (pre ++ d :: post)%list = credentials.Load [d]
  /\ (forall f, credentials.entry d = Some f -> credentials.readable f = false ->
                credentials.Load (pre ++ d :: post)%list
                = Err (ErrPermission "open: permission denied")).
Proof.
  intros Hpre Hd.
  assert (H : credentials.Load (d :: post) = credentials.Load [d]).
  { unfold credentials.Load, credentials.ReadFile. cbn [credentials.SearchConfigFile].
    unfold noFile in Hd. destruct (credentials.entry d) as [f|] eqn:E; [|discriminate].
    cbn [nth_error]. rewrite E. reflexivity. }
  rewrite (Load_skip_all pre _ Hpre), H. split; [reflexivity|].
  intros f Hf Hr. unfold credentials.Load, credentials.ReadFile.
  cbn [credentials.SearchConfigFile]. rewrite Hf. cbn [nth_error]. rewrite Hf, Hr.
  reflexivity.
Qed.

(** Property X6, a witness: a file that cannot be read, before the saved
    record. *)
Lemma Load_first_file_witness :
  credentials.Load (freshDir :: unreadableFile :: savedStore)
  = Err (ErrPermission "open: permission denied").
Proof.
  exact (proj2 (Load_first_file [freshDir] savedStore unreadableFile eq_refl eq_refl)
           _ eq_refl eq_refl).
Defined.

(** A successful write into a store without files leaves one file, in a
    directory from which it can be removed. *)
Lemma write_then_remove (bytes : string) (fs : credentials.FS) :
  forall p fs1 fs2,
    forallb noFile fs = true ->
    credentials.ConfigFile fs = (Ok p, fs1) ->
    credentials.WriteFile p bytes fs1 = (None, fs2) ->
    exists fs3, credentials.Delete fs2 = (None, fs3) /\ forallb noFile fs3 = true.
Proof.
  induction fs as [|d fs IH]; intros p fs1 fs2 Hn Hc Hw; [discriminate|].
  cbn [forallb] in Hn. apply andb_true_iff in Hn. destruct Hn as [Hd Hn].
  unfold noFile in Hd. destruct (credentials.entry d) eqn:He; [discriminate|].
  cbn [credentials.ConfigFile] in Hc.
  destruct (credentials.present d) eqn:Hp.
  - injection Hc as <- <-. cbn [credentials.WriteFile] in Hw.
    unfold credentials.writeDir in Hw. rewrite He, Hp in Hw. cbn [andb] in Hw.
    destruct (credentials.createOk d) eqn:Hk; [|discriminate].
    injection Hw as <-. eexists. split.
    + unfold credentials.Delete. cbn. reflexivity.
    + cbn [forallb]. rewrite Hn. reflexivity.
  - destruct (credentials.mkdirOk d) eqn:Hm.
    + injection Hc as <- <-. cbn [credentials.WriteFile] in Hw.
      unfold credentials.writeDir in Hw. cbn in Hw. rewrite He in Hw.
      destruct (credentials.createOk d) eqn:Hk; [|discriminate].
      injection Hw as <-. eexists. split.
      * unfold credentials.Delete. cbn. reflexivity.
      * cbn [forallb]. rewrite Hn. reflexivity.
    + destruct (credentials.ConfigFile fs) as [r fs''] eqn:Hcf.
      destruct r as [i|e]; [|discriminate].
      injection Hc as <- <-. cbn [credentials.WriteFile] in Hw.
      destruct (credentials.WriteFile i bytes fs'') as [e fs3] eqn:Hw3.
      injection Hw as -> <-.
      destruct (IH i fs'' fs3 Hn eq_refl Hw3) as (fs4 & Hdel & Hn4).
      exists (d :: fs4). split.
      * unfold credentials.Delete in *. cbn [credentials.SearchConfigFile]. rewrite He.
        destruct (credentials.SearchConfigFile fs3) as [q|e']; [|discriminate].
        cbn [credentials.Remove]. rewrite Hdel. reflexivity.
      * cbn [forallb]. unfold noFile at 1. rewrite He. exact Hn4.
Qed.

(** Property X7.  On a store that holds no credentials file, a [Delete]
    after a successful [Save] succeeds and removes the file that [Save] has
    written: no file is left, and [Load] fails with the error of a file that
    does not exist. *)
Theorem Save_then_Delete (c : credentials.Credentials) (fs fs1 : credentials.FS) :
  forallb noFile fs = true ->
  credentials.Save c fs = (None, fs1) ->
  exists fs2,
    credentials.Delete fs1 = (None, fs2)
    /\ forallb noFile fs2 = true
    /\ failsWith isNotExist (credentials.Load fs2) = true.
Proof.
  intros Hn Hs. unfold credentials.Save in Hs.
  destruct (credentials.ConfigFile fs) as [[p|e] fsA] eqn:Hc; [|discriminate].
  cbn [credentials.Marshal] in Hs.
  destruct (write_then_remove _ fs p fsA fs1 Hn Hc Hs) as (fs2 & Hd & Hn2).
  exists fs2. split; [exact Hd|]. split; [exact Hn2|].
  pose proof (Search_noFile fs2 Hn2) as H. unfold credentials.Load.
  destruct (credentials.SearchConfigFile fs2); [discriminate|exact H].
Qed.

(** Property X7, a witness: a record saved under a configuration directory
    that does not exist yet, and deleted. *)
Lemma Save_then_Delete_witness :
  exists fs2,
    credentials.Delete
      (snd (credentials.Save {| credentials.Token := "abc"; credentials.TokenId := "def" |}
              [freshDir])) = (None, fs2)
    /\ forallb noFile fs2 = true
    /\ failsWith isNotExist (credentials.Load fs2) = true.
Proof.
  apply (Save_then_Delete {| credentials.Token := "abc"; credentials.TokenId := "def" |}
           [freshDir]); reflexivity.
Defined.

(** ** The decoder: the fields that a member names *)

Lemma distinctFolds_nth (fields : list (string * kind)) :
  distinctFolds fields = true ->
  forall i i' n k n' k',
    nth_error fields i = Some (n, k) -> nth_error fields i' = Some (n', k') ->
    foldName n = foldName n' -> i = i'.
Proof.
  induction fields as [|[m mk] fs IH]; intros Hd i i' n k n' k' Hi Hi' Hf.
  - destruct i; discriminate.
  - cbn [distinctFolds] in Hd. apply andb_true_iff in Hd. destruct Hd as [Hm Hd].
    apply negb_true_iff in Hm.
    assert (Hno : forall x xk, In (x, xk) fs -> foldName x <> foldName m).
    { intros x xk Hin E. apply not_true_iff_false in Hm. apply Hm.
      apply existsb_exists. exists (x, xk). split; [exact Hin|].
      cbn [fst]. apply String.eqb_eq. exact E. }
    destruct i as [|i], i' as [|i']; cbn [nth_error] in Hi, Hi'.
    + reflexivity.
    + injection Hi as <- <-. apply nth_error_In in Hi'.
      destruct (Hno n' k' Hi'). symmetry. exact Hf.
    + injection Hi' as <- <-. apply nth_error_In in Hi.
      destruct (Hno n k Hi). exact Hf.
    + f_equal. exact (IH Hd i i' n k n' k' Hi Hi' Hf).
Qed.

Lemma decodeField_miss (test : string -> bool) (j : value) (fields : list (string * kind)) :
  (forall n k, In (n, k) fields -> test n = false) ->
  forall vs, decodeField decode test fields vs j = None.
Proof.
  induction fields as [|[name fk] fs IH]; intros H vs; [reflexivity|].
  destruct vs as [|v vs]; [reflexivity|].
  cbn [decodeField]. fold (decodeField decode test).
  rewrite (H name fk (or_introl eq_refl)), IH; [reflexivity|].
  intros n k Hin. apply (H n k). right. exact Hin.
Qed.

Lemma decodeField_hit (test : string -> bool) (j : value) (fields : list (string * kind)) :
  forall vs i name fk v0,
    nth_error fields i = Some (name, fk) ->
    nth_error vs i = Some v0 ->
    test name = true ->
    (forall i' n k, nth_error fields i' = Some (n, k) -> test n = true -> i' = i) ->
    exists r,
      decodeField decode test fields vs j = Some r
      /\ forall vs', r = Ok vs' ->
                     exists v', decode fk j v0 = Ok v' /\ nth_error vs' i = Some v'.
Proof.
  induction fields as [|[n k] fs IH]; intros vs i name fk v0 Hi Hv Ht Hu.
  - destruct i; discriminate.
  - destruct vs as [|v vs]; [destruct i; discriminate|].
    cbn [decodeField]. fold (decodeField decode test).
    destruct i as [|i]; cbn [nth_error] in Hi, Hv.
    + injection Hi as -> ->. injection Hv as ->. rewrite Ht.
      eexists. split; [reflexivity|]. intros vs' H.
      destruct (decode fk j v0) as [v'|x]; [|discriminate].
      injection H as <-. exists v'. split; reflexivity.
    + destruct (test n) eqn:Tn.
      * specialize (Hu 0%nat n k eq_refl Tn). discriminate.
      * destruct (IH vs i name fk v0 Hi Hv Ht) as (r & Hr & Hok).
        { intros i' n' k' Hi' Tn'. specialize (Hu (S i') n' k' Hi' Tn'). lia. }
        rewrite Hr. destruct r as [r|x].
        -- eexists. split; [reflexivity|]. intros vs' H. injection H as <-.
           cbn [nth_error]. apply Hok. reflexivity.
        -- eexists. split; [reflexivity|]. discriminate.
Qed.

Lemma decodeMembers_app (field : (string -> bool) -> list rvalue -> value
                                 -> option (result (list rvalue)))
    (a b : list (string * value)) :
  forall vs,
    decodeMembers field (a ++ b) vs
    = match decodeMembers field a vs with
      | Ok vs1 => decodeMembers field b vs1
      | Err x => Err x
      end.
Proof.
  induction a as [|[key j] a IH]; intros vs; [reflexivity|].
  cbn [app decodeMembers].
  destruct (match field (String.eqb key) vs j with
            | Some r => r
            | None => match field (fun name => String.eqb (foldName name) (foldName key)) vs j with
                      | Some r => r
                      | None => Ok vs
                      end
            end) as [vs1|x]; [apply IH | reflexivity].
Qed.

(** One member that names the field [i], decoded into a list of fields
    that holds [v0] there. *)
Lemma decodeMember_hit (fields : list (string * kind)) (i : nat) (name : string)
    (fk : kind) (key : string) (j : value) (vs vs' : list rvalue) (v0 : rvalue) :
  distinctFolds fields = true ->
  nth_error fields i = Some (name, fk) ->
  nth_error vs i = Some v0 ->
  foldName key = foldName name ->
  decodeMembers (fun test => decodeField decode test fields) [(key, j)] vs = Ok vs' ->
  exists v', decode fk j v0 = Ok v' /\ nth_error vs' i = Some v'.
Proof.
  intros Hd Hi Hv Hf H. cbn [decodeMembers] in H.
  assert (Hfold : forall i' n k,
             nth_error fields i' = Some (n, k) ->
             String.eqb (foldName n) (foldName key) = true -> i' = i).
  { intros i' n k Hi' E. apply String.eqb_eq in E.
    apply (distinctFolds_nth fields Hd i' i n k name fk Hi' Hi). congruence. }
  assert (Hexact : forall i' n k,
             nth_error fields i' = Some (n, k) -> String.eqb key n = true -> i' = i).
  { intros i' n k Hi' E. apply String.eqb_eq in E. subst n.
    apply (distinctFolds_nth fields Hd i' i key k name fk Hi' Hi Hf). }
  destruct (String.eqb key name) eqn:Ek.
  - destruct (decodeField_hit (String.eqb key) j fields vs i name fk v0 Hi Hv Ek Hexact)
      as (r & Hr & Hok).
    rewrite Hr in H. destruct r as [r|x]; [|discriminate].
    injection H as <-. apply Hok. reflexivity.
  - rewrite decodeField_miss in H.
    + assert (Et : String.eqb (foldName name) (foldName key) = true)
        by (apply String.eqb_eq; congruence).
      destruct (decodeField_hit _ j fields vs i name fk v0 Hi Hv Et Hfold)
        as (r & Hr & Hok).
      rewrite Hr in H. destruct r as [r|x]; [|discriminate].
      injection H as <-. apply Hok. reflexivity.
    + intros n k Hin. destruct (String.eqb key n) eqn:E; [|reflexivity].
      apply In_nth_error in Hin. destruct Hin as [i' Hi'].
      pose proof (Hexact i' n k Hi' E) as ->. rewrite Hi in Hi'.
      injection Hi' as <- _. congruence.
Qed.

(** An object decoded into the zero value of a struct leaves, in a field
    that one member of the object names, what that member decodes to. *)
Lemma decode_present_field (fields : list (string * kind))
    (pre post : list (string * value)) (key : string) (j : value)
    (v : rvalue) (i : nat) (name : string) (fk : kind) :
  decode (KStruct fields) (Object (pre ++ (key, j) :: post)) (zero (KStruct fields)) = Ok v ->
  distinctFolds fields = true ->
  nth_error fields i = Some (name, fk) ->
  namesOnce name key pre post ->
  decode fk j (zero fk) = Ok (fieldOf i v).
Proof.
  intros H Hd Hi [Hf Hothers]. rewrite decode_struct, zero_struct in H. cbn [fieldsOf] in H.
  destruct (decodeMembers _ (pre ++ (key, j) :: post) (zeros fields)) as [vs|x] eqn:E;
    [|discriminate].
  injection H as <-. unfold fieldOf. cbn [fieldsOf].
  rewrite decodeMembers_app in E.
  destruct (decodeMembers _ pre (zeros fields)) as [vs1|x] eqn:E1; [|discriminate].
  change ((key, j) :: post) with ([(key, j)] ++ post)%list in E.
  rewrite decodeMembers_app in E.
  destruct (decodeMembers _ [(key, j)] vs1) as [vs2|x] eqn:E2; [|discriminate].
  assert (H1 : nth_error vs1 i = Some (zero fk)).
  { rewrite (decodeMembers_frame fields i name fk pre Hi) with (vs := zeros fields) (vs' := vs1).
    - apply (nth_error_zeros fields i name fk Hi).
    - intros k' j' Hin. apply (Hothers k' j'). apply in_or_app. left. exact Hin.
    - exact E1. }
  destruct (decodeMember_hit fields i name fk key j vs1 vs2 (zero fk) Hd Hi H1 Hf E2)
    as (v' & Hv' & H2).
  assert (H3 : nth_error vs i = Some v').
  { rewrite (decodeMembers_frame fields i name fk post Hi) with (vs := vs2) (vs' := vs).
    - exact H2.
    - intros k' j' Hin. apply (Hothers k' j'). apply in_or_app. right. exact Hin.
    - exact E. }
  rewrite Hv'. f_equal. symmetry. apply nth_error_nth. exact H3.
Qed.

(** Property X8.  When [Load] succeeds on a file that holds an object, a
    member whose value is a string and whose key names the field [token], in
    whatever letter case, gives the token, provided no other member names that
    field; the same for [token_id].  The other members of the object, and
    where the member stands among them, play no part. *)
Theorem Load_reads_named_members (fs : credentials.FS) (p : nat) (content : string)
    (pre post : list (string * value)) (key s : string) (c : credentials.Credentials) :
  credentials.SearchConfigFile fs = Ok p ->
  credentials.ReadFile p fs = Ok content ->
  parse content = Some (Object (pre ++ (key, Str s) :: post)) ->
  credentials.Load fs = Ok c ->
  (namesOnce "token" key pre post -> credentials.Token c = s)
  /\ (namesOnce "token_id" key pre post -> credentials.TokenId c = s).
Proof.
  intros Hs Hr Hp HL. unfold credentials.Load, Unmarshal in HL. rewrite Hs, Hr, Hp in HL.
  destruct (decode credentials.Credentials_kind _ _) as [v|x] eqn:E; [|discriminate].
  injection HL as <-. split; intros Hn.
  - pose proof (decode_present_field _ pre post key (Str s) v 0%nat "token" KString
                  E eq_refl eq_refl Hn) as H.
    cbn [decode] in H. injection H as H.
    cbn [credentials.Credentials_of credentials.Token]. rewrite <- H. reflexivity.
  - pose proof (decode_present_field _ pre post key (Str s) v 1%nat "token_id" KString
                  E eq_refl eq_refl Hn) as H.
    cbn [decode] in H. injection H as H.
    cbn [credentials.Credentials_of credentials.TokenId]. rewrite <- H. reflexivity.
Qed.

(** Property X8, a witness: a file with the keys [TOKEN] and [Token_ID]
    and a member that names no field. *)
Lemma Load_reads_named_members_witness :
  credentials.Load [storedFile handWritten]
  = Ok {| credentials.Token := "abc"; credentials.TokenId := "def" |}.
Proof.
  destruct (credentials.Load [storedFile handWritten]) as [c|e] eqn:E;
    [|vm_compute in E; discriminate E].
  destruct c as [t i]. f_equal. f_equal.
  - apply (proj1 (Load_reads_named_members [storedFile handWritten] 0 handWritten
                    [("comment", Array [Number "1"; Number "2"])]
                    [("Token_ID", Str "def")] "TOKEN" "abc" _
                    eq_refl eq_refl eq_refl E)).
    split; [reflexivity|]. intros key' j' Hin.
    repeat (destruct Hin as [Hin|Hin]; [injection Hin as <- <-; discriminate|]).
    destruct Hin.
  - apply (proj2 (Load_reads_named_members [storedFile handWritten] 0 handWritten
                    [("comment", Array [Number "1"; Number "2"]); ("TOKEN", Str "abc")]
                    [] "Token_ID" "def" _
                    eq_refl eq_refl eq_refl E)).
    split; [reflexivity|]. intros key' j' Hin.
    repeat (destruct Hin as [Hin|Hin]; [injection Hin as <- <-; discriminate|]).
    destruct Hin.
Defined.

(** Property X9.  When [GetProblem] succeeds on a body that holds an
    object, the field that one member of the object names, by the JSON name of
    the field in whatever letter case, holds what the value of that member
    decodes to, provided no other member names the field: the title is the
    string sent, the time limit the integer sent, the flag the boolean
    sent. *)
Theorem GetProblem_returns_named_fields (c : api.Client) (problemID : string) (u : url.URL)
    (resp : http.Response) (rest : list RoundTrip) (tr : list Event) (body : string)
    (pre post : list (string * value)) (key : string) (j : value) (problem : api.Problem) :
  api.baseURL c = "https://syoj.org" ->
  url.Parse ("https://syoj.org" ++ "/api/problems/" ++ problemID) = Ok u ->
  http.RespBody resp = Ok body ->
  parse body = Some (Object (pre ++ (key, j) :: post)) ->
  fst (fst (api.GetProblem c problemID {| script := RTResponse resp :: rest; trace := tr |}))
  = Ok problem ->
  exists v,
    problem = api.Problem_of v
    /\ (forall i name fk,
           nth_error (fieldsOfKind api.Problem_kind) i = Some (name, fk) ->
           namesOnce name key pre post ->
           decode fk j (zero fk) = Ok (fieldOf i v))
    /\ (forall s, namesOnce "title" key pre post -> j = Str s -> api.Title problem = s)
    /\ (forall lit, namesOnce "timeLimit" key pre post -> j = Number lit ->
                    ParseInt lit = Some (api.TimeLimit problem))
    /\ (forall b, namesOnce "allowSubmit" key pre post -> j = Bool b ->
                  api.AllowSubmit problem = b).
Proof.
  intros Hb Hu Hbody Hp Hr. fold base in Hb, Hu. rewrite Parse_problem_url in Hu.
  rewrite (GetProblem_run c problemID u _ Hb Hu) in Hr. cbn [script fst] in Hr.
  unfold fetchVerdict, Unmarshal in Hr. rewrite Hbody, Hp in Hr.
  destruct (negb _); [discriminate|].
  destruct (decode api.Problem_kind _ _) as [v|x] eqn:E; [|discriminate].
  injection Hr as <-. exists v. split; [reflexivity|].
  assert (G : forall i name fk,
             nth_error (fieldsOfKind api.Problem_kind) i = Some (name, fk) ->
             namesOnce name key pre post ->
             decode fk j (zero fk) = Ok (fieldOf i v)).
  { intros i name fk Hi Hn.
    exact (decode_present_field _ pre post key j v i name fk E eq_refl Hi Hn). }
  split; [exact G|]. split; [|split].
  - intros s Hn ->. pose proof (G 1%nat "title" KString eq_refl Hn) as H.
    cbn [decode] in H. injection H as H. cbn [api.Problem_of api.Title].
    rewrite <- H. reflexivity.
  - intros lit Hn ->. pose proof (G 5%nat "timeLimit" KInt eq_refl Hn) as H.
    cbn [decode] in H. destruct (ParseInt lit) as [n|]; [|discriminate].
    injection H as H. cbn [api.Problem_of api.TimeLimit]. rewrite <- H. reflexivity.
  - intros b Hn ->. pose proof (G 12%nat "allowSubmit" KBool eq_refl Hn) as H.
    cbn [decode] in H. injection H as H. cbn [api.Problem_of api.AllowSubmit].
    rewrite <- H. reflexivity.
Qed.

(** Property X9, a witness: a body with a title, a time limit and the
    flag. *)
Lemma GetProblem_returns_named_fields_witness :
  exists problem,
    fst (fst (api.GetProblem seededClient "I001"
                {| script := [RTResponse titledResponse]; trace := [] |})) = Ok problem
    /\ api.Title problem = "A+B".
Proof.
  destruct (fst (fst (api.GetProblem seededClient "I001"
                        {| script := [RTResponse titledResponse]; trace := [] |})))
    as [problem|e] eqn:E; [|vm_compute in E; discriminate E].
  exists problem. split; [reflexivity|].
  destruct (GetProblem_returns_named_fields seededClient "I001" _ titledResponse [] []
              titledBody [] [("timeLimit", Number "1000"); ("allowSubmit", Bool true)]
              "title" (Str "A+B") problem eq_refl eq_refl eq_refl eq_refl E)
    as (v & _ & _ & Ht & _).
  apply (Ht "A+B"); [|reflexivity]. split; [reflexivity|].
  intros key' j' Hin.
  repeat (destruct Hin as [Hin|Hin]; [injection Hin as <- <-; discriminate|]).
  destruct Hin.
Defined.

(** The elements of an array are decoded one by one, in their order, each
    into the element that the destination holds at its place, or into a
    zero value. *)
Lemma decodeElems_each (e : kind) (elems : list value) :
  forall cs vs,
    decodeElems decode e elems cs = Ok vs ->
    List.length vs = List.length elems
    /\ forall i j, nth_error elems i = Some j ->
                   exists v, nth_error vs i = Some v
                             /\ decode e j (nth i cs (zero e)) = Ok v.
Proof.
  induction elems as [|j0 elems IH]; intros cs vs H.
  - injection H as <-. split; [reflexivity|]. intros [|i] j Hj; discriminate.
  - cbn [decodeElems] in H. fold (decodeElems decode e) in H.
    destruct (decode e j0 _) as [v0|x] eqn:E0; [|discriminate].
    destruct (decodeElems decode e elems (tl cs)) as [vs'|x] eqn:E1; [|discriminate].
    injection H as <-. destruct (IH _ _ E1) as [Hl Hn]. split.
    + cbn [length]. rewrite Hl. reflexivity.
    + intros [|i] j Hj; cbn [nth_error] in Hj |- *.
      * injection Hj as <-. exists v0. split; [reflexivity|].
        destruct cs; exact E0.
      * destruct (Hn i j Hj) as (v & Hv & Hd). exists v. split; [exact Hv|].
        destruct cs as [|c cs]; [|exact Hd].
        cbn [tl] in Hd. destruct i; exact Hd.
Qed.

Lemma decode_array (e : kind) (elems : list value) (v : rvalue) :
  decode (KSlice e) (Array elems) (zero (KSlice e)) = Ok v ->
  List.length (sliceOf v) = List.length elems
  /\ forall i j, nth_error elems i = Some j ->
                 exists x, nth_error (sliceOf v) i = Some x
                           /\ decode e j (zero e) = Ok x.
Proof.
  rewrite decode_slice. cbn [zero sliceOf].
  destruct (decodeElems decode e elems []) as [vs|x] eqn:E; [|discriminate].
  intros H. injection H as <-. cbn [sliceOf].
  destruct (decodeElems_each e elems [] vs E) as [Hl Hn]. split; [exact Hl|].
  intros i j Hj. destruct (Hn i j Hj) as (x & Hx & Hd). exists x. split; [exact Hx|].
  destruct i; exact Hd.
Qed.

(** A successful [GetProblem] has decoded the body. *)
Lemma GetProblem_decoded (c : api.Client) (problemID : string) (u : url.URL)
    (resp : http.Response) (rest : list RoundTrip) (tr : list Event) (body : string)
    (j : value) (problem : api.Problem) :
  api.baseURL c = base ->
  problemURL problemID = Ok u ->
  http.RespBody resp = Ok body ->
  parse body = Some j ->
  fst (fst (api.GetProblem c problemID {| script := RTResponse resp :: rest; trace := tr |}))
  = Ok problem ->
  exists v, problem = api.Problem_of v
            /\ decode api.Problem_kind j (zero api.Problem_kind) = Ok v.
Proof.
  intros Hb Hu Hbody Hp Hr.
  rewrite (GetProblem_run c problemID u _ Hb Hu) in Hr. cbn [script fst] in Hr.
  unfold fetchVerdict, Unmarshal in Hr. rewrite Hbody, Hp in Hr.
  destruct (negb _); [discriminate|].
  destruct (decode api.Problem_kind _ _) as [v|x] eqn:E; [|discriminate].
  injection Hr as <-. exists v. split; reflexivity.
Qed.

Lemma nth_error_map_s {A B} (f : A -> B) (l : list A) (i : nat) (x : A) :
  nth_error l i = Some x -> nth_error (map f l) i = Some (f x).
Proof.
  revert i. induction l as [|a l IH]; intros [|i] H; try discriminate.
  - injection H as ->. reflexivity.
  - cbn [map nth_error] in *. exact (IH i H).
Qed.

(** Property X10.  When [GetProblem] succeeds on a body that holds an
    object, the groups of test cases and the sections of the problem are as
    many as the elements of the arrays that the members [testCases] and
    [ProblemSection] hold, and in their order: the element at a position of
    the list is what the element at that position of the array decodes to, on
    its own. *)
Theorem GetProblem_keeps_lists (c : api.Client) (problemID : string) (u : url.URL)
    (resp : http.Response) (rest : list RoundTrip) (tr : list Event) (body : string)
    (pre post : list (string * value)) (key : string) (elems : list value)
    (problem : api.Problem) :
  api.baseURL c = "https://syoj.org" ->
  url.Parse ("https://syoj.org" ++ "/api/problems/" ++ problemID) = Ok u ->
  http.RespBody resp = Ok body ->
  parse body = Some (Object (pre ++ (key, Array elems) :: post)) ->
  fst (fst (api.GetProblem c problemID {| script := RTResponse resp :: rest; trace := tr |}))
  = Ok problem ->
  (namesOnce "testCases" key pre post ->
   List.length (api.TestCases problem) = List.length elems
   /\ forall i j, nth_error elems i = Some j ->
                  exists x, decode api.TestCaseGroup_kind j (zero api.TestCaseGroup_kind) = Ok x
                            /\ nth_error (api.TestCases problem) i
                               = Some (api.TestCaseGroup_of x))
  /\ (namesOnce "ProblemSection" key pre post ->
      List.length (api.ProblemSection problem) = List.length elems
      /\ forall i j, nth_error elems i = Some j ->
                     exists x, decode api.Section_kind j (zero api.Section_kind) = Ok x
                               /\ nth_error (api.ProblemSection problem) i
                                  = Some (api.Section_of x)).
Proof.
  intros Hb Hu Hbody Hp Hr. fold base in Hb, Hu. rewrite Parse_problem_url in Hu.
  destruct (GetProblem_decoded c problemID u resp rest tr body _ problem Hb Hu Hbody Hp Hr)
    as (v & -> & E).
  split; intros Hn.
  - pose proof (decode_present_field _ pre post key (Array elems) v 10%nat "testCases"
                  (KSlice api.TestCaseGroup_kind) E eq_refl eq_refl Hn) as H.
    destruct (decode_array _ elems _ H) as [Hl Hi].
    cbn [api.Problem_of api.TestCases]. split.
    + rewrite length_map. exact Hl.
    + intros i j Hj. destruct (Hi i j Hj) as (x & Hx & Hd).
      exists x. split; [exact Hd|]. apply nth_error_map_s. exact Hx.
  - pose proof (decode_present_field _ pre post key (Array elems) v 11%nat "ProblemSection"
                  (KSlice api.Section_kind) E eq_refl eq_refl Hn) as H.
    destruct (decode_array _ elems _ H) as [Hl Hi].
    cbn [api.Problem_of api.ProblemSection]. split.
    + rewrite length_map. exact Hl.
    + intros i j Hj. destruct (Hi i j Hj) as (x & Hx & Hd).
      exists x. split; [exact Hd|]. apply nth_error_map_s. exact Hx.
Qed.

(** Property X10, a witness: a body with two groups of test cases, the
    first of them empty. *)
Lemma GetProblem_keeps_lists_witness :
  exists problem,
    fst (fst (api.GetProblem seededClient "I001"
                {| script := [RTResponse groupsResponse]; trace := [] |})) = Ok problem
    /\ List.length (api.TestCases problem) = 2%nat.
Proof.
  destruct (fst (fst (api.GetProblem seededClient "I001"
                        {| script := [RTResponse groupsResponse]; trace := [] |})))
    as [problem|e] eqn:E; [|vm_compute in E; discriminate E].
  exists problem. split; [reflexivity|].
  refine (proj1 (proj1 (GetProblem_keeps_lists seededClient "I001" _ groupsResponse [] []
                          groupsBody [] [] "testCases"
                          [Object [("testCases", Array [])];
                           Object [("testCases",
                                    Array [Object [("input", Str "1 2");
                                                   ("output", Str "3")]])]]
                          problem eq_refl eq_refl eq_refl eq_refl E) _)).
  split; [reflexivity|]. intros key' j' [].
Defined.

(** ** Login and GetProblem: requests, cookies and errors *)

Lemma loginVerdict_success (resp : http.Response) (jar : http.Jar) :
  loginSucceeded resp = true ->
  loginVerdict (http.StatusCode resp) (http.RespBody resp) jar
  = Ok (api.extractCookies (http.JarCookies baseAddress jar)).
Proof.
  unfold loginSucceeded, loginVerdict. intros H. apply andb_true_iff in H.
  destruct H as [Hs H]. destruct (http.RespBody resp) as [body|e]; [|discriminate].
  destruct (Unmarshal body _ _) as [v|e]; [|discriminate].
  rewrite Hs, H. reflexivity.
Qed.

(** Property X11.  [Login] sends one request, whatever comes back: a POST
    to [/api/login] under the base address, with the headers [Content-Type:
    application/json] and [User-Agent: syojctl/1.0], whose body parses as the
    JSON object of the two members [email] and [password], in that order.
    Their values are the strings passed to the call when these are valid
    UTF-8; every byte that is not part of a valid rune goes out as U+FFFD. *)
Theorem Login_sends_credentials_as_json (c : api.Client) (email password : string)
    (w : World) :
  api.baseURL c = "https://syoj.org" ->
  exists sent,
    requestsOf (trace (snd (api.Login c email password w)))
    = (requestsOf (trace w) ++ [sent])%list
    /\ http.Method sent = "POST"
    /\ url.Parse "https://syoj.org/api/login" = Ok (http.URL sent)
    /\ http.Header sent
       = [("Content-Type", "application/json"); ("User-Agent", "syojctl/1.0")]
    /\ parse (http.Body sent)
       = Some (Object [("email", Str (sanitize email));
                       ("password", Str (sanitize password))])
    /\ (utf8.ValidString email = true -> sanitize email = email)
    /\ (utf8.ValidString password = true -> sanitize password = password).
Proof.
  intros Hb. fold base in Hb. rewrite (Login_run c email password w Hb). cbv zeta.
  exists (attach (loginRequest email password) (api.jar c)). split.
  - unfold logged.
    destruct (script w) as [|[msg|resp] rest]; cbn [snd trace];
      rewrite ?requestsOf_app; cbn [requestsOf]; rewrite ?app_nil_r; reflexivity.
  - repeat split; try (intros H; apply (proj2 (sanitize_spec _) H)).
    cbn [attach http.Body loginRequest]. apply parse_marshalStrings_any.
Qed.

(** Property X11, a witness: a password with characters that [Marshal]
    escapes. *)
Lemma Login_sends_credentials_as_json_witness :
  exists sent,
    requestsOf (trace (snd (api.Login freshClient "user@example.com" "p<&>w"
                              {| script := []; trace := [] |}))) = [sent]
    /\ parse (http.Body sent)
       = Some (Object [("email", Str "user@example.com"); ("password", Str "p<&>w")]).
Proof.
  destruct (Login_sends_credentials_as_json freshClient "user@example.com" "p<&>w"
              {| script := []; trace := [] |} eq_refl)
    as (sent & Hr & _ & _ & _ & Hb & _).
  exists sent. split; [exact Hr | exact Hb].
Defined.

Lemma store_paths (P : http.Cookie -> Prop) (c : http.Cookie) (jar : http.Jar) :
  P c -> Forall P jar -> Forall P (http.store c jar).
Proof.
  intros Hc Hj. induction Hj as [|x jar Hx Hj IH]; cbn [http.store].
  - constructor; [exact Hc | constructor].
  - destruct (http.sameId x c); constructor; assumption.
Qed.

Lemma SetCookies_pathless (u : url.URL) (cookies : list http.Cookie) :
  forallb pathless cookies = true ->
  forall jar,
    Forall (fun e => http.Path e = http.defaultPath (url.Path u)) jar ->
    Forall (fun e => http.Path e = http.defaultPath (url.Path u))
           (http.SetCookies u cookies jar).
Proof.
  unfold http.SetCookies. induction cookies as [|ck cookies IH]; intros H jar Hj.
  - exact Hj.
  - cbn [forallb] in H. apply andb_true_iff in H. destruct H as [Hck H].
    cbn [fold_left]. apply (IH H). apply store_paths; [|exact Hj].
    unfold pathless in Hck. apply negb_true_iff in Hck. rewrite Hck. reflexivity.
Qed.

Lemma JarCookies_none (u : url.URL) (jar : http.Jar) :
  Forall (fun e => http.pathMatch (match url.Path u with EmptyString => "/" | p => p end)
                     (http.Path e) = false) jar ->
  http.JarCookies u jar = [].
Proof.
  intros H. unfold http.JarCookies.
  replace (filter _ jar) with (@nil http.Cookie); [reflexivity|].
  induction H as [|x jar Hx Hj IH]; cbn [filter]; [reflexivity|].
  rewrite Hx. exact IH.
Qed.

(** Property X12.  The cookies that the response to a login sets without a
    path of their own are stored in the jar under [/api], the directory of the
    login address; [Login] asks the jar for the cookies of the base address,
    which do not include them.  On a client whose jar was empty, a successful
    login that sets only such cookies returns a record whose two fields are
    empty. *)
Theorem Login_misses_cookies_without_path (c : api.Client) (email password : string)
    (resp : http.Response) (rest : list RoundTrip) (tr : list Event) :
  api.baseURL c = "https://syoj.org" ->
  api.jar c = [] ->
  loginSucceeded resp = true ->
  forallb pathless (http.SetCookie resp) = true ->
  exists c',
    fst (api.Login c email password {| script := RTResponse resp :: rest; trace := tr |})
    = (Ok {| api.Token := EmptyString; api.TokenId := EmptyString |}, c')
    /\ api.jar c' = http.SetCookies loginURL (http.SetCookie resp) []
    /\ Forall (fun e => http.Path e = "/api") (api.jar c').
Proof.
  intros Hb Hj Hs Hp. fold base in Hb.
  rewrite (Login_response c email password resp rest tr Hb). cbv zeta.
  rewrite (loginVerdict_success resp _ Hs), Hj.
  assert (HF : Forall (fun e => http.Path e = "/api")
                 (http.SetCookies loginURL (http.SetCookie resp) [])).
  { apply (SetCookies_pathless loginURL _ Hp). constructor. }
  exists (api.withJar c (http.SetCookies loginURL (http.SetCookie resp) [])).
  split; [|split; [reflexivity | exact HF]].
  rewrite JarCookies_none; [reflexivity|].
  eapply Forall_impl; [|exact HF]. intros e He. cbn. rewrite He. reflexivity.
Qed.

(** Property X12, a witness: a successful response that sets the cookie
    Token without a path. *)
Lemma Login_misses_cookies_without_path_witness :
  exists c',
    fst (api.Login freshClient "user@example.com" "secret"
           {| script := [RTResponse (loggedIn [ {| http.Name := "Token"; http.Value := "abc";
                                                  http.Path := EmptyString |} ])];
              trace := [] |})
    = (Ok {| api.Token := EmptyString; api.TokenId := EmptyString |}, c')
    /\ api.jar c' = [ {| http.Name := "Token"; http.Value := "abc"; http.Path := "/api" |} ].
Proof.
  destruct (Login_misses_cookies_without_path freshClient "user@example.com" "secret"
              (loggedIn [ {| http.Name := "Token"; http.Value := "abc";
                             http.Path := EmptyString |} ])
              [] [] eq_refl eq_refl eq_refl eq_refl) as (c' & H & Hj & _).
  exists c'. split; [exact H | exact Hj].
Defined.

Lemma Unmarshal_exact (k : kind) (body : string) :
  let r := Unmarshal body k (zero k) in
  failsWith isParseError r = malformed k body /\ isOk r = negb (malformed k body).
Proof.
  unfold Unmarshal, malformed. destruct (parse body) as [j|]; [|split; reflexivity].
  destruct (decode_exact k j (zero k) (shaped_zero _)) as [Hok _].
  rewrite <- Hok. destruct (decode k j (zero k)) as [v|x] eqn:E; [split; reflexivity|].
  cbn [failsWith isOk negb]. rewrite (decode_error _ _ _ _ E). split; reflexivity.
Qed.

(** Property X13.  When the transport fails, [GetProblem] and [Login]
    return its error after having sent their request; they read no body and
    leave the client as it was.  When the body of the response cannot be read,
    [Login], and [GetProblem] on the status 200, return the error of the
    read. *)
Theorem network_errors_are_returned (c : api.Client) (problemID email password : string)
    (u : url.URL) (rest : list RoundTrip) (tr : list Event) :
  api.baseURL c = "https://syoj.org" ->
  url.Parse ("https://syoj.org" ++ "/api/problems/" ++ problemID) = Ok u ->
  (forall msg,
      let w := {| script := RTError msg :: rest; trace := tr |} in
      (exists sent,
          api.GetProblem c problemID w
          = ((Err (TransportError msg), c),
             {| script := rest; trace := (tr ++ [EvRequest sent])%list |}))
      /\ (exists sent,
             api.Login c email password w
             = ((Err (TransportError msg), c),
                {| script := rest; trace := (tr ++ [EvRequest sent])%list |})))
  /\ (forall resp e,
         http.RespBody resp = Err e ->
         let w := {| script := RTResponse resp :: rest; trace := tr |} in
         (http.StatusCode resp = 200%Z -> fst (fst (api.GetProblem c problemID w)) = Err e)
         /\ fst (fst (api.Login c email password w)) = Err e).
Proof.
  intros Hb Hu. fold base in Hb, Hu. rewrite Parse_problem_url in Hu. split.
  - intros msg w. subst w. split.
    + rewrite (GetProblem_run c problemID u _ Hb Hu). eexists. reflexivity.
    + rewrite (Login_run c email password _ Hb). eexists. reflexivity.
  - intros resp e He w. subst w. split.
    + intros Hs. rewrite (GetProblem_run c problemID u _ Hb Hu). cbn [script fst].
      unfold fetchVerdict. rewrite Hs, He. reflexivity.
    + rewrite (Login_run c email password _ Hb). cbn [script fst].
      unfold loginVerdict. rewrite He. reflexivity.
Qed.

(** Property X13, a witness: a timeout for [GetProblem], and a body that
    breaks off for [Login]. *)
Lemma network_errors_are_returned_witness :
  api.GetProblem seededClient "I001" {| script := [RTError "timeout"]; trace := [] |}
  = ((Err (TransportError "timeout"), seededClient),
     {| script := [];
        trace := [EvRequest (attach (problemRequest
                    {| url.Scheme := "https"; url.Host := "syoj.org";
                       url.Path := "/api/problems/I001"; url.RawQuery := EmptyString;
                       url.Fragment := EmptyString |}) (api.jar seededClient))] |})
  /\ fst (fst (api.Login freshClient "user@example.com" "secret"
                 {| script := [RTResponse (brokenBody 200)]; trace := [] |}))
     = Err (ReadError "unexpected EOF").
Proof.
  pose proof (network_errors_are_returned seededClient "I001" "user@example.com" "secret"
                _ [] [] eq_refl eq_refl) as [H1 _].
  pose proof (network_errors_are_returned freshClient "I001" "user@example.com" "secret"
                _ [] [] eq_refl eq_refl) as [_ H2].
  split.
  - destruct (proj1 (H1 "timeout")) as (sent & Hs). rewrite Hs.
    vm_compute in Hs. injection Hs as <-. reflexivity.
  - exact (proj2 (H2 (brokenBody 200) _ eq_refl)).
Defined.

(** Property X14.  For every response of status 200 to [GetProblem] whose
    body can be read, the call succeeds or fails with a parse error, and it
    fails exactly when the body is not JSON or does not conform to the
    structure of [Problem]: a value of another type for a field, or a number
    that is not a 64-bit integer for an integer field. *)
Theorem GetProblem_body_errors (c : api.Client) (problemID : string) (u : url.URL)
    (resp : http.Response) (rest : list RoundTrip) (tr : list Event) (body : string) :
  api.baseURL c = "https://syoj.org" ->
  url.Parse ("https://syoj.org" ++ "/api/problems/" ++ problemID) = Ok u ->
  http.StatusCode resp = 200%Z ->
  http.RespBody resp = Ok body ->
  let r := fst (fst (api.GetProblem c problemID
                       {| script := RTResponse resp :: rest; trace := tr |})) in
  failsWith isParseError r = malformed api.Problem_kind body
  /\ isOk r = negb (malformed api.Problem_kind body).
Proof.
  intros Hb Hu Hs Hbody r. subst r. fold base in Hb, Hu. rewrite Parse_problem_url in Hu.
  rewrite (GetProblem_run c problemID u _ Hb Hu). cbn [script fst].
  unfold fetchVerdict. rewrite Hs, Hbody. cbn [Z.eqb Pos.eqb negb].
  pose proof (Unmarshal_exact api.Problem_kind body) as H. cbv zeta in H.
  destruct (Unmarshal body api.Problem_kind (zero api.Problem_kind)); exact H.
Qed.

(** Property X14, a witness: a time limit of 1.5, and the sample body. *)
Lemma GetProblem_body_errors_witness :
  fst (fst (api.GetProblem seededClient "I001"
              {| script := [RTResponse fractionalLimit]; trace := [] |}))
  = Err (UnmarshalTypeError "number 1.5")
  /\ isOk (fst (fst (api.GetProblem seededClient "I001"
                       {| script := [RTResponse sampleResponse]; trace := [] |}))) = true.
Proof.
  split.
  - pose proof (proj1 (GetProblem_body_errors seededClient "I001" _ fractionalLimit [] []
                         _ eq_refl eq_refl eq_refl eq_refl)) as H.
    destruct (fst (fst (api.GetProblem seededClient "I001"
                {| script := [RTResponse fractionalLimit]; trace := [] |}))) as [p|e] eqn:E;
      [discriminate H|].
    vm_compute in E. injection E as <-. reflexivity.
  - exact (proj2 (GetProblem_body_errors seededClient "I001" _ sampleResponse [] []
                    _ eq_refl eq_refl eq_refl eq_refl)).
Defined.

(** Property X15.  [Login] decodes the body whatever the status: for every
    response whose body can be read, the call fails with a parse error
    exactly when the body is not JSON or does not conform to the structure of
    [LoginResponse].  A page of an error that is not JSON is reported as a
    syntax error, not by its status. *)
Theorem Login_decodes_body_before_status (c : api.Client) (email password : string)
    (resp : http.Response) (rest : list RoundTrip) (tr : list Event) (body : string) :
  api.baseURL c = "https://syoj.org" ->
  http.RespBody resp = Ok body ->
  failsWith isParseError
    (fst (fst (api.Login c email password
                 {| script := RTResponse resp :: rest; trace := tr |})))
  = malformed api.LoginResponse_kind body.
Proof.
  intros Hb Hbody. fold base in Hb.
  rewrite (Login_response c email password resp rest tr Hb). cbn [fst].
  unfold loginVerdict. rewrite Hbody.
  pose proof (Unmarshal_exact api.LoginResponse_kind body) as [H1 H2]. cbv zeta in H1, H2.
  destruct (Unmarshal body api.LoginResponse_kind (zero api.LoginResponse_kind)) as [v|e].
  - cbn [isOk] in H2. rewrite <- (negb_involutive (malformed _ _)), <- H2.
    destruct (_ && _); reflexivity.
  - exact H1.
Qed.

(** Property X15, a witness: a page in HTML with the status 502. *)
Lemma Login_decodes_body_before_status_witness :
  fst (fst (api.Login freshClient "user@example.com" "secret"
              {| script := [RTResponse gatewayError]; trace := [] |}))
  = Err SyntaxError.
Proof.
  pose proof (Login_decodes_body_before_status freshClient "user@example.com" "secret"
                gatewayError [] [] _ eq_refl eq_refl) as H.
  destruct (fst (fst (api.Login freshClient "user@example.com" "secret"
              {| script := [RTResponse gatewayError]; trace := [] |}))) as [p|e] eqn:E;
    [discriminate H|].
  vm_compute in E. injection E as <-. reflexivity.
Defined.

(** Property X16.  On a client constructed from a record, a successful
    login whose response sets no cookie returns that very record: what
    [NewClientWithCredentials] puts into the jar is what the loop of [Login]
    reads out of it. *)
Theorem Login_returns_seeded_cookies (token tokenId : string) (c : api.Client)
    (email password : string) (resp : http.Response) (rest : list RoundTrip)
    (tr : list Event) :
  api.NewClientWithCredentials token tokenId = Ok c ->
  loginSucceeded resp = true ->
  http.SetCookie resp = [] ->
  fst (api.Login c email password {| script := RTResponse resp :: rest; trace := tr |})
  = (Ok {| api.Token := token; api.TokenId := tokenId |}, c).
Proof.
  intros H Hs Hn. rewrite NewClientWithCredentials_seeded in H. injection H as <-.
  rewrite (Login_response (clientOf token tokenId) email password resp rest tr eq_refl).
  cbv zeta. rewrite (loginVerdict_success resp _ Hs), Hn. reflexivity.
Qed.

(** Property X16, a witness: the client of the record "abc", "def". *)
Lemma Login_returns_seeded_cookies_witness :
  fst (api.Login seededClient "user@example.com" "secret"
         {| script := [RTResponse (loggedIn [])]; trace := [] |})
  = (Ok {| api.Token := "abc"; api.TokenId := "def" |}, seededClient).
Proof.
  exact (Login_returns_seeded_cookies "abc" "def" seededClient "user@example.com" "secret"
           (loggedIn []) [] [] eq_refl eq_refl eq_refl).
Defined.

(** ** The markdown of a problem *)

Lemma writeSections_text (sections : list api.Section) :
  forall markdown,
    cmd.writeSections sections markdown
    = markdown ++ numbered (fun _ => sectionText) 0 sections.
Proof.
  assert (H : forall i markdown,
             cmd.writeSections sections markdown
             = markdown ++ numbered (fun _ => sectionText) i sections).
  { induction sections as [|s sections IH]; intros i markdown; cbn [cmd.writeSections numbered].
    - rewrite append_nil_r_s. reflexivity.
    - rewrite (IH (S i)). unfold cmd.WriteString, sectionText.
      rewrite !append_assoc_s. reflexivity. }
  intros markdown. apply H.
Qed.

Lemma writeTestCases_text (i : nat) (testCases : list api.TestCase) :
  forall j markdown,
    cmd.writeTestCases i j testCases markdown
    = markdown ++ numbered (testCaseText i) j testCases.
Proof.
  induction testCases as [|t testCases IH]; intros j markdown;
    cbn [cmd.writeTestCases numbered].
  - rewrite append_nil_r_s. reflexivity.
  - rewrite IH. unfold cmd.WriteString, testCaseText, fenced.
    destruct (String.eqb (api.Input t) EmptyString);
      destruct (String.eqb (api.Output t) EmptyString); cbn [negb];
      rewrite ?append_assoc_s; cbn [append]; rewrite ?append_assoc_s; reflexivity.
Qed.

Lemma writeGroups_text (groups : list api.TestCaseGroup) :
  forall i n markdown,
    fst (cmd.writeGroups i groups n markdown) = markdown ++ numbered groupText i groups.
Proof.
  induction groups as [|g groups IH]; intros i n markdown; cbn [cmd.writeGroups numbered].
  - cbn [fst]. rewrite append_nil_r_s. reflexivity.
  - unfold groupText at 1. destruct (api.Group_TestCases g) as [|t ts] eqn:E.
    + cbn [length Nat.ltb Nat.leb]. rewrite IH. reflexivity.
    + cbn [length Nat.ltb Nat.leb]. rewrite IH, writeTestCases_text.
      unfold cmd.WriteString. rewrite !append_assoc_s. reflexivity.
Qed.

(** Property X17.  The markdown of a problem is, in this order: the title
    and the four lines of the identifier, the time limit, the memory limit and
    the difficulty; the description under its heading, unless it is empty;
    every section of the problem, in the order of the list; every group of
    test cases that is not empty, under the number of its position in the list
    of all groups, each test case under the numbers of the group and of its
    own position, with its input and its output fenced unless empty; the notes
    under their heading, unless they are empty.  Nothing else of the problem
    is written. *)
Theorem problemToMarkdown_text (p : api.Problem) :
  cmd.problemToMarkdown p
  = headerText p
    ++ titled "Description" (api.Description p)
    ++ numbered (fun _ => sectionText) 0 (api.ProblemSection p)
    ++ numbered groupText 0 (api.TestCases p)
    ++ titled "Notes" (api.Notes p).
Proof.
  unfold cmd.problemToMarkdown.
  pose proof (writeGroups_text (api.TestCases p) 0 0) as Hg.
  destruct (cmd.writeGroups 0 (api.TestCases p) 0 _) as [m n] eqn:E.
  match type of E with cmd.writeGroups _ _ _ ?m0 = _ => specialize (Hg m0) end.
  rewrite E in Hg. cbn [fst] in Hg. subst m.
  rewrite writeSections_text. unfold cmd.WriteString, titled, headerText.
  destruct (String.eqb (api.Description p) EmptyString);
    destruct (String.eqb (api.Notes p) EmptyString); cbn [negb];
    rewrite ?append_assoc_s; cbn [append]; rewrite ?append_nil_r_s; reflexivity.
Qed.

(** ** The commands *)

Lemma fetchVerdict_isOk (resp : http.Response) :
  isOk (fetchVerdict resp) = carriesProblem resp.
Proof.
  unfold fetchVerdict, carriesProblem.
  destruct (Z.eqb (http.StatusCode resp) 200); cbn [negb andb]; [|reflexivity].
  destruct (http.RespBody resp) as [body|e]; [|reflexivity].
  pose proof (Unmarshal_exact api.Problem_kind body) as [_ H]. cbv zeta in H.
  destruct (Unmarshal body api.Problem_kind (zero api.Problem_kind)); exact H.
Qed.

(** Property X18.  With stored credentials and an identifier whose address
    parses, [show-problem] ends with a problem to show exactly when the
    response has the status 200 and a body that can be read and decodes into a
    [Problem]; for every other response it ends with "Failed to fetch
    problem" and an error. *)
Theorem showProblem_outcome (env : cmd.Env) (creds : credentials.Credentials)
    (problemID : string) (u : url.URL) (resp : http.Response)
    (rest : list RoundTrip) (tr : list Event) :
  credentials.Load (cmd.store env) = Ok creds ->
  url.Parse ("https://syoj.org" ++ "/api/problems/" ++ problemID) = Ok u ->
  let o := fst (cmd.showProblemRun problemID env
                  {| script := RTResponse resp :: rest; trace := tr |}) in
  isShown o = carriesProblem resp
  /\ failedWith "Failed to fetch problem" o = negb (carriesProblem resp).
Proof.
  intros HL Hu o. subst o. fold base in Hu. rewrite Parse_problem_url in Hu.
  unfold cmd.showProblemRun. rewrite HL, NewClientWithCredentials_seeded. unfold bind.
  rewrite (GetProblem_run (clientOf _ _) problemID u _ eq_refl Hu). cbn [script].
  rewrite <- fetchVerdict_isOk. destruct (fetchVerdict resp); split; reflexivity.
Qed.

(** Property X18, a witness: the sample body, and a response of status
    404. *)
Lemma showProblem_outcome_witness :
  isShown (fst (cmd.showProblemRun "I001"
                  {| cmd.store := savedStore; cmd.osReadFile := noFiles;
                     cmd.stdin := EmptyString |}
                  {| script := [RTResponse sampleResponse]; trace := [] |})) = true
  /\ failedWith "Failed to fetch problem"
       (fst (cmd.showProblemRun "I001"
               {| cmd.store := savedStore; cmd.osReadFile := noFiles;
                  cmd.stdin := EmptyString |}
               {| script := [RTResponse notFound]; trace := [] |})) = true.
Proof.
  split.
  - exact (proj1 (showProblem_outcome
                    {| cmd.store := savedStore; cmd.osReadFile := noFiles;
                       cmd.stdin := EmptyString |} _ "I001" _ sampleResponse [] []
                    eq_refl eq_refl)).
  - exact (proj2 (showProblem_outcome
                    {| cmd.store := savedStore; cmd.osReadFile := noFiles;
                       cmd.stdin := EmptyString |} _ "I001" _ notFound [] []
                    eq_refl eq_refl)).
Defined.

Lemma loginVerdict_failure (resp : http.Response) (jar : http.Jar) :
  loginSucceeded resp = false ->
  isOk (loginVerdict (http.StatusCode resp) (http.RespBody resp) jar) = false.
Proof.
  unfold loginSucceeded, loginVerdict, successMessage.
  destruct (http.RespBody resp) as [body|e]; [|reflexivity].
  destruct (Unmarshal body _ _) as [v|e]; [|reflexivity].
  intros H. rewrite H. reflexivity.
Qed.

(** Property X19.  When the transport fails or the response does not
    report a successful login, [login] ends with "Failed during login" and an
    error, unless the name or the password was missing, and the credential
    store is as it was: the record of an earlier login stays. *)
Theorem failed_login_keeps_store
    (username password envUsername envPassword : string) (env : cmd.Env)
    (r : RoundTrip) (rest : list RoundTrip) (tr : list Event) :
  match r with
  | RTError _ => True
  | RTResponse resp => loginSucceeded resp = false
  end ->
  let run := cmd.loginRun username password envUsername envPassword env
               {| script := r :: rest; trace := tr |} in
  snd (fst run) = cmd.store env
  /\ (failedWith "Failed during login" (fst (fst run)) = true
      \/ fst run = (cmd.Failed loginUsage None, cmd.store env)).
Proof.
  intros Hr run. subst run. unfold cmd.loginRun.
  fold (orEnv username envUsername) (orEnv password envPassword).
  destruct (_ || _); [split; [reflexivity | right; reflexivity]|].
  cbn [api.NewClient]. unfold bind.
  rewrite (Login_run freshClient (orEnv username envUsername)
             (orEnv password envPassword) _ eq_refl).
  cbn [script]. destruct r as [msg|resp].
  - split; [reflexivity | left; reflexivity].
  - cbv zeta. pose proof (loginVerdict_failure resp
                 (http.SetCookies loginURL (http.SetCookie resp) (api.jar freshClient)) Hr) as H.
    destruct (loginVerdict _ _ _); [discriminate H|].
    split; [reflexivity | left; reflexivity].
Qed.

(** Property X19, a witness: a wrong password, with a saved record. *)
Lemma failed_login_keeps_store_witness :
  let run := cmd.loginRun "user@example.com" "wrong" EmptyString EmptyString
               {| cmd.store := savedStore; cmd.osReadFile := noFiles;
                  cmd.stdin := EmptyString |}
               {| script := [RTResponse wrongPassword]; trace := [] |} in
  snd (fst run) = savedStore
  /\ failedWith "Failed during login" (fst (fst run)) = true.
Proof.
  destruct (failed_login_keeps_store "user@example.com" "wrong" EmptyString EmptyString
              {| cmd.store := savedStore; cmd.osReadFile := noFiles;
                 cmd.stdin := EmptyString |}
              (RTResponse wrongPassword) [] [] eq_refl) as [Hs [Hf|Hf]].
  - split; [exact Hs | exact Hf].
  - vm_compute in Hf. discriminate Hf.
Defined.

(** Property X20.  [login] takes the user name from its flag, and from the
    environment when the flag is empty; the same for the password.  It sends
    one request, the login with that name and that password, exactly when
    neither is empty.  When either is empty it stops with the message that
    both are required: it sends nothing and leaves the store as it is. *)
Theorem login_requires_name_and_password
    (username password envUsername envPassword : string) (env : cmd.Env) (w : World) :
  let name := orEnv username envUsername in
  let pass := orEnv password envPassword in
  let run := cmd.loginRun username password envUsername envPassword env w in
  requestsOf (trace (snd run))
  = (requestsOf (trace w)
     ++ if String.eqb name EmptyString || String.eqb pass EmptyString then []
        else [loginRequest name pass])%list
  /\ (name = EmptyString \/ pass = EmptyString ->
      run = ((cmd.Failed loginUsage None, cmd.store env), w)).
Proof.
  cbv zeta. unfold cmd.loginRun.
  fold (orEnv username envUsername) (orEnv password envPassword). split.
  - destruct (_ || _); [cbn [ret snd]; rewrite app_nil_r; reflexivity|].
    cbn [api.NewClient]. unfold bind.
    rewrite (Login_run freshClient (orEnv username envUsername)
               (orEnv password envPassword) _ eq_refl).
    cbv zeta. unfold logged.
    change (attach (loginRequest ?n ?p) (api.jar freshClient)) with (loginRequest n p).
    destruct (script w) as [|[msg|resp] rest].
    + cbn [snd trace ret]. rewrite requestsOf_app. reflexivity.
    + cbn [snd trace ret]. rewrite requestsOf_app. reflexivity.
    + destruct (loginVerdict _ _ _) as [creds|e].
      * destruct (credentials.Save _ _) as [[e|] fs]; cbn [snd trace ret];
          rewrite !requestsOf_app; cbn [requestsOf]; rewrite app_nil_r; reflexivity.
      * cbn [snd trace ret]. rewrite !requestsOf_app. cbn [requestsOf].
        rewrite app_nil_r. reflexivity.
  - intros [H|H]; rewrite H; cbn [String.eqb orb]; [|rewrite orb_true_r]; reflexivity.
Qed.

(** Property X20, a witness: a user name and no password. *)
Lemma login_requires_name_and_password_witness :
  cmd.loginRun "user@example.com" EmptyString "other@example.com" EmptyString
    emptyTokenEnv {| script := [RTResponse (loggedIn [])]; trace := [] |}
  = ((cmd.Failed loginUsage None, emptyTokenStore),
     {| script := [RTResponse (loggedIn [])]; trace := [] |}).
Proof.
  apply (proj2 (login_requires_name_and_password "user@example.com" EmptyString
                  "other@example.com" EmptyString emptyTokenEnv
                  {| script := [RTResponse (loggedIn [])]; trace := [] |})).
  right. reflexivity.
Defined.




Lemma completeLines_split (input : string) :
  exists tail,
    input = completeLines input ++ tail
    /\ noNewline tail = true
    /\ (completeLines input = EmptyString
        \/ lastByte (completeLines input) = Some bufio.newline).
Proof.
  induction input as [|c t (tail & Ht & Hn & Hl)]; cbn [completeLines].
  - exists EmptyString. repeat split. left. reflexivity.
  - destruct (completeLines t) as [|c' r] eqn:E.
    + cbn [append] in Ht. subst tail. destruct (Ascii.eqb c bufio.newline) eqn:Ec.
      * exists t. repeat split; [exact Hn|]. right. apply Ascii.eqb_eq in Ec. subst c.
        reflexivity.
      * exists (String c t). repeat split; [|left; reflexivity].
        cbn [noNewline]. rewrite Ec, Hn. reflexivity.
    + exists tail. split; [|split; [exact Hn|]].
      * cbn [append]. rewrite Ht at 1. reflexivity.
      * right. destruct Hl as [Hl|Hl]; [discriminate|]. exact Hl.
Qed.

(** Property X22.  The loop of [submit] reads the standard input to its
    end, and the code it builds is the input up to its last newline, that
    newline included: the input is the code followed by a rest without a
    newline, and the code is empty or ends with a newline. *)
Theorem stdin_code_up_to_last_newline (input : string) :
  exists tail,
    input = fst (cmd.readStdin input) ++ tail
    /\ noNewline tail = true
    /\ (fst (cmd.readStdin input) = EmptyString
        \/ lastByte (fst (cmd.readStdin input)) = Some bufio.newline)
    /\ snd (cmd.readStdin input) = EmptyString.
Proof.
  unfold cmd.readStdin. rewrite readLoop_lines by lia. cbn [fst snd append].
  destruct (completeLines_split input) as (tail & H1 & H2 & H3).
  exists tail. repeat split; assumption.
Qed.

Lemma noNewline_completeLines (s : string) :
  noNewline s = true -> completeLines s = EmptyString.
Proof.
  induction s as [|c t IH]; [reflexivity|]. cbn [noNewline completeLines].
  intros H. apply andb_true_iff in H. destruct H as [Hc Ht].
  rewrite (IH Ht). apply negb_true_iff in Hc. rewrite Hc. reflexivity.
Qed.

(** Property X23.  [submit] stops with "No code provided for submission"
    and sends nothing, the stored credentials not being looked at, when the
    input file is empty or, without an input file, when the standard input
    holds no newline. *)
Theorem submit_without_code_sends_nothing (problemID language inputFile : string)
    (env : cmd.Env) (w : World) :
  (if String.eqb inputFile EmptyString then noNewline (cmd.stdin env) = true
   else cmd.osReadFile env inputFile = Ok EmptyString) ->
  cmd.submitRun problemID language inputFile env w
  = (cmd.Failed "No code provided for submission" None, w).
Proof.
  unfold cmd.submitRun. destruct (String.eqb inputFile EmptyString); intros H; cbn [negb].
  - unfold cmd.readStdin. rewrite readLoop_lines by lia.
    rewrite (noNewline_completeLines _ H). reflexivity.
  - rewrite H. reflexivity.
Qed.

(** Property X23, a witness: a standard input of one line without a
    newline. *)
Lemma submit_without_code_sends_nothing_witness :
  cmd.submitRun "I001" "python" EmptyString
    {| cmd.store := savedStore; cmd.osReadFile := noFiles; cmd.stdin := "print(1)" |}
    {| script := [RTResponse quietOK]; trace := [] |}
  = (cmd.Failed "No code provided for submission" None,
     {| script := [RTResponse quietOK]; trace := [] |}).
Proof.
  apply (submit_without_code_sends_nothing "I001" "python" EmptyString
           {| cmd.store := savedStore; cmd.osReadFile := noFiles; cmd.stdin := "print(1)" |}).
  reflexivity.
Defined.



Lemma substring_skip (a t : string) (k m : nat) :
  substring (String.length a + k) m (a ++ t) = substring k m t.
Proof. induction a as [|c a IH]; [reflexivity|]. cbn. exact IH. Qed.

Lemma length_append_s (a b : string) :
  String.length (a ++ b) = (String.length a + String.length b)%nat.
Proof. induction a as [|c a IH]; cbn; [reflexivity|]. rewrite IH. reflexivity. Qed.

Lemma HasSuffix_app (stem t suffix : string) :
  (String.length suffix <= String.length t)%nat ->
  HasSuffix (stem ++ t) suffix = HasSuffix t suffix.
Proof.
  intros H. unfold HasSuffix. rewrite length_append_s.
  replace (String.length stem + String.length t - String.length suffix)%nat
    with (String.length stem + (String.length t - String.length suffix))%nat by lia.
  rewrite substring_skip.
  replace (Nat.leb (String.length suffix) (String.length stem + String.length t))
    with true by (symmetry; apply Nat.leb_le; lia).
  replace (Nat.leb (String.length suffix) (String.length t))
    with true by (symmetry; apply Nat.leb_le; lia).
  reflexivity.
Qed.

Lemma substring_split (s : string) :
  forall k, (k <= String.length s)%nat ->
            s = substring 0 k s ++ substring k (String.length s - k) s.
Proof.
  induction s as [|c s IH]; intros k Hk.
  - destruct k; reflexivity.
  - destruct k as [|k].
    + cbn [substring append String.length Nat.sub]. clear.
      f_equal. induction s as [|d s IH]; cbn; [reflexivity|]. f_equal. exact IH.
    + cbn [substring append String.length Nat.sub]. f_equal. apply IH.
      cbn [String.length] in Hk. lia.
Qed.

Lemma HasSuffix_split (s suffix : string) :
  HasSuffix s suffix = true -> exists pre, s = pre ++ suffix.
Proof.
  unfold HasSuffix. intros H. apply andb_true_iff in H. destruct H as [Hl He].
  apply Nat.leb_le in Hl. apply String.eqb_eq in He.
  exists (substring 0 (String.length s - String.length suffix) s).
  pose proof (substring_split s (String.length s - String.length suffix)) as H.
  replace (String.length s - (String.length s - String.length suffix))%nat
    with (String.length suffix) in H by lia.
  rewrite He in H. apply H. lia.
Qed.

(** A name that ends with [ext] does not end with a longer [suffix] of
    which [ext] is not the end. *)
Lemma HasSuffix_longer (stem ext suffix : string) :
  (String.length ext <= String.length suffix)%nat ->
  HasSuffix suffix ext = false ->
  HasSuffix (stem ++ ext) suffix = false.
Proof.
  intros Hl Hn. destruct (HasSuffix (stem ++ ext) suffix) eqn:E; [|reflexivity].
  apply HasSuffix_split in E. destruct E as [pre E].
  assert (H : HasSuffix (stem ++ ext) ext = true).
  { rewrite HasSuffix_app by lia. unfold HasSuffix. rewrite Nat.sub_diag.
    rewrite Nat.leb_refl. cbn [andb]. apply String.eqb_eq.
    clear. induction ext as [|c ext IH]; [reflexivity|]. cbn. f_equal. exact IH. }
  rewrite E, HasSuffix_app, Hn in H by exact Hl. discriminate H.
Qed.

Ltac suffix_tests :=
  repeat first
    [ rewrite HasSuffix_app by (cbn; lia)
    | rewrite HasSuffix_longer by (first [cbn; lia | reflexivity]) ].

(** Property X25.  The language that [submit] infers from the name of the
    input file depends on the extension alone, whatever comes before it, and
    the order of the cases plays no part, no name matching two of them:
    [.cpp], [.cc] and [.cxx] give cpp20, [.c] gives c, [.py] python, [.js]
    javascript, [.go] go, [.java] java, [.rs] rust and [.cs] csharp. *)
Theorem inferLanguage_by_extension (stem : string) :
  cmd.inferLanguage (stem ++ ".cpp") = "cpp20"
  /\ cmd.inferLanguage (stem ++ ".cc") = "cpp20"
  /\ cmd.inferLanguage (stem ++ ".cxx") = "cpp20"
  /\ cmd.inferLanguage (stem ++ ".c") = "c"
  /\ cmd.inferLanguage (stem ++ ".py") = "python"
  /\ cmd.inferLanguage (stem ++ ".js") = "javascript"
  /\ cmd.inferLanguage (stem ++ ".go") = "go"
  /\ cmd.inferLanguage (stem ++ ".java") = "java"
  /\ cmd.inferLanguage (stem ++ ".rs") = "rust"
  /\ cmd.inferLanguage (stem ++ ".cs") = "csharp".
Proof.
  unfold cmd.inferLanguage. repeat split; suffix_tests; reflexivity.
Qed.
